(** * IFR-Compliance: the semantic rule evaluator of
      [run_compliance_check_semantic.py]

    A shallow embedding of the rule-evaluation engine and theorems about its
    decision procedure, followed by the text utilities and the document
    loader of the same file, the pattern test and the loader of
    [debug_text_extraction.py], and the summary of [analyze_report.py].

    Conventions of the embedding.
    - What the file system, python-docx and PyPDF2 answer for a path is a
      parameter ([file_system]); what is printed is left out.
    - Python [str] values are [string]s of 8-bit characters; [lower],
      [upper], [strip], [int] and the regular-expression classes are the
      ASCII restrictions of Python's.
    - Python [float] confidences are exact rationals ([Q]); the one
      conversion of an int to a float, in the confidence of a FOUND
      outcome, raises [OverflowError] where Python's does.
    - A rule is the [dict] that [json.loads] produced: an association list
      from keys to JSON values, read with [dict.get].
    - An exception is an explicit [Raise] result.
    - The built-in functions and [re] are those of CPython 3.11.
    - The evaluator is embedded twice: as a function of its arguments, and
      in [Stored] with the list objects that it creates and mutates and
      with the order in which its sets are iterated; the two are proved to
      agree. *)

From Stdlib Require Import List String Ascii Bool Arith ZArith QArith Qminmax Lia.
Import ListNotations.

Local Open Scope string_scope.
Local Open Scope list_scope.
Local Open Scope nat_scope.

(** ** Results of fallible code *)

(** The exceptions that the embedded code can raise.  [re_error] is
    [re.error]; like Python's, it carries the pattern handed to
    [re.compile].  [Unsupported] is not a Python exception: it marks a
    pattern that uses regular-expression syntax outside the fragment embedded
    in [Re.parse] below.  Of a run that ends in [Raise (Unsupported p)] the
    embedding says nothing: Python may compile [p], or reject it. *)
Inductive exn : Type :=
| re_error (msg pattern : string)
| TypeError
| ValueError
| AttributeError
| OverflowError
| Unsupported (pattern : string).

Inductive result (A : Type) : Type :=
| Ok (a : A)
| Raise (e : exn).
Arguments Ok {A} a.
Arguments Raise {A} e.

Definition bind {A B : Type} (m : result A) (k : A -> result B) : result B :=
  match m with
  | Ok a => k a
  | Raise e => Raise e
  end.

Notation "x <- m ;; k" := (bind m (fun x => k))
  (at level 61, m at next level, right associativity).
Notation "' p <- m ;; k" := (bind m (fun x => let p := x in k))
  (at level 61, p pattern, m at next level, right associativity).

(** [mapM f l]: a comprehension [[f(x) for x in l]] whose body may raise. *)
Fixpoint mapM {A B : Type} (f : A -> result B) (l : list A) : result (list B) :=
  match l with
  | [] => Ok []
  | x :: l' => y <- f x ;; ys <- mapM f l' ;; Ok (y :: ys)
  end.

(** The Python exceptions among [exn]. *)
Definition is_exception (e : exn) : Prop :=
  match e with
  | Unsupported _ => False
  | _ => True
  end.

(** The code raises a Python exception. *)
Definition raises {A : Type} (m : result A) : Prop :=
  match m with
  | Ok _ => False
  | Raise e => is_exception e
  end.

(** The run stays inside the embedded fragment: it returns, or it raises a
    Python exception. *)
Definition modelled {A : Type} (m : result A) : Prop :=
  match m with
  | Raise (Unsupported _) => False
  | _ => True
  end.

(** ** Strings *)

Definition chars (s : string) : list ascii := list_ascii_of_string s.
Definition str (l : list ascii) : string := string_of_list_ascii l.

Definition code (c : ascii) : nat := nat_of_ascii c.

Definition in_range (lo hi : nat) (c : ascii) : bool :=
  (lo <=? code c) && (code c <=? hi).

Definition is_upper (c : ascii) : bool := in_range 65 90 c.
Definition is_lower (c : ascii) : bool := in_range 97 122 c.
Definition is_digit (c : ascii) : bool := in_range 48 57 c.

Definition lower_char (c : ascii) : ascii :=
  if is_upper c then ascii_of_nat (code c + 32) else c.
Definition upper_char (c : ascii) : ascii :=
  if is_lower c then ascii_of_nat (code c - 32) else c.

(** [s.lower()] and [s.upper()]. *)
Definition lower (s : string) : string := str (map lower_char (chars s)).
Definition upper (s : string) : string := str (map upper_char (chars s)).

(** [str.isspace] on one character: the characters that [str.strip()]
    removes and that [\s] matches. *)
Definition is_space (c : ascii) : bool :=
  in_range 9 13 c || in_range 28 32 c.

(** [\w]: letters, digits and the underscore. *)
Definition is_word (c : ascii) : bool :=
  is_upper c || is_lower c || is_digit c || (code c =? 95).

(** [sys.get_int_max_str_digits()]: the most digits that [int] converts
    from a string, by default (CPython 3.11). *)
Definition max_str_digits : nat := 4300.

(** [text[a:b]] for [0 <= a] and [0 <= b]. *)
Definition slice (text : string) (a b : nat) : string :=
  substring a (b - a) text.

Fixpoint prefix_of (p s : list ascii) : bool :=
  match p, s with
  | [], _ => true
  | _ :: _, [] => false
  | x :: p', y :: s' => Ascii.eqb x y && prefix_of p' s'
  end.

Fixpoint occurs_in (p s : list ascii) : bool :=
  prefix_of p s ||
  match s with
  | [] => false
  | _ :: s' => occurs_in p s'
  end.

(** [needle in hay] on strings. *)
Definition contains (needle hay : string) : bool :=
  occurs_in (chars needle) (chars hay).

(** [sep.join(parts)]. *)
Fixpoint join (sep : string) (parts : list string) : string :=
  match parts with
  | [] => ""
  | [p] => p
  | p :: rest => (p ++ sep ++ join sep rest)%string
  end.

(** [s.replace(old, new)] for a non-empty [old]: left to right, without
    overlap. *)
Fixpoint replace_chars (fuel : nat) (old new s : list ascii) : list ascii :=
  match fuel with
  | 0 => s
  | S fuel' =>
      match s with
      | [] => []
      | c :: s' =>
          if prefix_of old s
          then new ++ replace_chars fuel' old new (skipn (List.length old) s)
          else c :: replace_chars fuel' old new s'
      end
  end.

Definition replace (old new s : string) : string :=
  str (replace_chars (String.length s) (chars old) (chars new) (chars s)).

Fixpoint lstrip_chars (s : list ascii) : list ascii :=
  match s with
  | c :: s' => if is_space c then lstrip_chars s' else s
  | [] => []
  end.

(** [s.strip()]. *)
Definition strip (s : string) : string :=
  str (rev (lstrip_chars (rev (lstrip_chars (chars s))))).

(** ** Regular expressions

    The part of Python's [re] that the evaluator relies on: a backtracking
    matcher whose alternatives are tried in the order of [sre], so that
    [search] and [finditer] return the matches Python returns. *)

Module Re.

Record flags : Type := Flags {
  IGNORECASE : bool;
  MULTILINE : bool;
  DOTALL : bool
}.

Inductive category : Type := Digit | Word | Space.

Inductive set_item : Type :=
| SChar (c : ascii)
| SRange (lo hi : ascii)
| SCategory (k : category) (negated : bool).

Inductive regex : Type :=
| Empty
| Literal (c : ascii)
| AnyChar
| CharSet (negated : bool) (items : list set_item)
| AtBeginning
| AtEnd
| Boundary (negated : bool)
| Cat (r1 r2 : regex)
| Branch (r1 r2 : regex)
| Repeat (lo : nat) (hi : option nat) (r : regex)
| Group (r : regex).

Definition in_category (k : category) (c : ascii) : bool :=
  match k with
  | Digit => is_digit c
  | Word => is_word c
  | Space => is_space c
  end.

Section Matching.
Variable fl : flags.
Variable text : list ascii.

Definition same_char (c x : ascii) : bool :=
  if IGNORECASE fl
  then Ascii.eqb (lower_char c) (lower_char x)
  else Ascii.eqb c x.

Definition within (lo hi x : ascii) : bool :=
  (code lo <=? code x) && (code x <=? code hi).

Definition item_matches (it : set_item) (x : ascii) : bool :=
  match it with
  | SChar c => same_char c x
  | SRange lo hi =>
      if IGNORECASE fl
      then within lo hi (lower_char x) || within lo hi (upper_char x)
      else within lo hi x
  | SCategory k negated => xorb negated (in_category k x)
  end.

Definition newline : ascii := ascii_of_nat 10.

Definition word_at (i : nat) : bool :=
  match nth_error text i with
  | Some c => is_word c
  | None => false
  end.

Definition word_before (i : nat) : bool :=
  match i with
  | 0 => false
  | S j => word_at j
  end.

Definition at_beginning (i : nat) : bool :=
  match i with
  | 0 => true
  | S j =>
      MULTILINE fl &&
      match nth_error text j with
      | Some c => Ascii.eqb c newline
      | None => false
      end
  end.

Definition at_end (i : nat) : bool :=
  let n := List.length text in
  (i =? n) ||
  match nth_error text i with
  | Some c => Ascii.eqb c newline && (MULTILINE fl || (S i =? n))
  | None => false
  end.

(** One character consumed at [i] when [p] accepts it. *)
Definition one (p : ascii -> bool) (i : nat) : list nat :=
  match nth_error text i with
  | Some x => if p x then [S i] else []
  | None => []
  end.

(** The loop of a greedy repeat ([MAX_UNTIL] of [sre]): [count] bodies are
    done and the position is [i].  Below [lo] the body is mandatory; from
    [lo] on another body is tried first, then the tail.  A body that
    matched the empty string ends the loop. *)
Fixpoint until (body : nat -> list nat) (lo : nat) (hi : option nat)
         (fuel count i : nat) : list nat :=
  match fuel with
  | 0 => []
  | S fuel' =>
      if count <? lo
      then flat_map (until body lo hi fuel' (S count)) (body i)
      else
        (if match hi with Some h => count <? h | None => true end
         then flat_map (fun j => if j =? i then [i]
                                 else until body lo hi fuel' (S count) j)
                       (body i)
         else [])
        ++ [i]
  end.

(** [ends r i]: the end positions of the matches of [r] that start at
    [i], in the order in which backtracking finds them.  As in CPython
    up to 3.13, neither [\b] nor [\B] matches in an empty text. *)
Fixpoint ends (r : regex) (i : nat) : list nat :=
  match r with
  | Empty => [i]
  | Literal c => one (same_char c) i
  | AnyChar => one (fun x => DOTALL fl || negb (Ascii.eqb x newline)) i
  | CharSet negated items =>
      one (fun x => xorb negated (existsb (fun it => item_matches it x) items)) i
  | AtBeginning => if at_beginning i then [i] else []
  | AtEnd => if at_end i then [i] else []
  | Boundary negated =>
      match text with
      | [] => []
      | _ :: _ =>
          if xorb negated (xorb (word_before i) (word_at i)) then [i] else []
      end
  | Cat r1 r2 => flat_map (ends r2) (ends r1 i)
  | Branch r1 r2 => ends r1 i ++ ends r2 i
  | Repeat lo hi r' =>
      until (ends r') lo hi (lo + (List.length text - i) + 1) 0 i
  | Group r' => ends r' i
  end.

(** The leftmost match at or after [i], among the next [k] start
    positions; an end position that [reject]s is skipped. *)
Fixpoint search_at (r : regex) (reject : nat -> bool) (k i : nat)
  : option (nat * nat) :=
  match k with
  | 0 => None
  | S k' =>
      match find (fun e => negb (reject e)) (ends r i) with
      | Some e => Some (i, e)
      | None => search_at r reject k' (S i)
      end
  end.

(** The scanner behind [finditer]: after an empty match the next one
    must not be empty at the same place. *)
Fixpoint scan (r : regex) (fuel pos : nat) (must_advance : bool)
  : list (nat * nat) :=
  match fuel with
  | 0 => []
  | S fuel' =>
      match search_at r (fun e => must_advance && (e =? pos))
                      (List.length text - pos + 1) pos with
      | None => []
      | Some (s, e) => (s, e) :: scan r fuel' e (e =? s)
      end
  end.
End Matching.

(** *** The pattern syntax

    [parse] reads the syntax of [re] for the constructs above: literals,
    [.], [^], [$], the escapes [\d \D \w \W \s \S \b \B \n \t \r \f \v] and
    escaped punctuation, character sets with ranges, capturing and [(?:)]
    groups, [|], and the greedy quantifiers [* + ? {m} {m,} {m,n} {,n}].
    A pattern that [sre_parse] rejects with [re.error] is [Malformed] with
    the message of the error ([e.msg]), one on which it raises another
    exception (a repetition count that is too large) [Throws] it.  Any
    other syntax (lazy and possessive quantifiers, look-around,
    back-references, named groups, flags, ...) is [Outside] the fragment,
    and so is a pattern whose groups are nested deeper than [max_depth],
    which can exhaust the recursion limit of the interpreter: of such a
    pattern the embedding says nothing. *)

Inductive count_error : Type :=
| TooManyDigits   (* [int] refuses the digits: ValueError *)
| TooLarge.       (* the count reaches [MAXREPEAT]: OverflowError *)

Inductive parsed (A : Type) : Type :=
| Parsed (a : A)
| Malformed (msg : string)
| Throws (e : count_error)
| Outside.
Arguments Parsed {A} a.
Arguments Malformed {A} msg.
Arguments Throws {A} e.
Arguments Outside {A}.

Definition and_then {A B : Type} (m : parsed A) (k : A -> parsed B) : parsed B :=
  match m with
  | Parsed a => k a
  | Malformed msg => Malformed msg
  | Throws e => Throws e
  | Outside => Outside
  end.

Definition is_alnum (c : ascii) : bool :=
  is_upper c || is_lower c || is_digit c.

Definition category_escape (c : ascii) : option (category * bool) :=
  match c with
  | "d"%char => Some (Digit, false)
  | "D"%char => Some (Digit, true)
  | "w"%char => Some (Word, false)
  | "W"%char => Some (Word, true)
  | "s"%char => Some (Space, false)
  | "S"%char => Some (Space, true)
  | _ => None
  end.

(** The character that [\c] stands for, when it stands for one. *)
Definition char_escape (c : ascii) : option ascii :=
  match c with
  | "n"%char => Some (ascii_of_nat 10)
  | "t"%char => Some (ascii_of_nat 9)
  | "r"%char => Some (ascii_of_nat 13)
  | "f"%char => Some (ascii_of_nat 12)
  | "v"%char => Some (ascii_of_nat 11)
  | _ => if is_alnum c then None else Some c
  end.

(** The digits at the head of [s], and the rest. *)
Fixpoint digit_span (s : list ascii) : list ascii * list ascii :=
  match s with
  | c :: s' =>
      if is_digit c
      then let '(ds, rest) := digit_span s' in (c :: ds, rest)
      else ([], s)
  | [] => ([], [])
  end.

Definition number (ds : list ascii) : N :=
  fold_left (fun n c => (10 * n + N.of_nat (code c - 48))%N) ds 0%N.

(** [MAXREPEAT] of [_sre]. *)
Definition MAXREPEAT : N := 4294967295.

(** The tokenizer of [sre_parse] looks one token ahead: when the pattern
    ends in a lone backslash, it raises as soon as the token before that
    backslash is consumed.  An error that the parser finds once it has
    consumed everything but [rest] is therefore the error of the tokenizer
    when [rest] is that backslash. *)
Definition raised {A : Type} (error : parsed A) (rest : list ascii) : parsed A :=
  match rest with
  | ["\"%char] => Malformed "bad escape (end of pattern)"
  | _ => error
  end.

(** A repetition count [int(ds)]: [int] raises [ValueError] above
    [max_str_digits] digits, and the parser [OverflowError] from
    [MAXREPEAT] on; [rest] follows the closing brace. *)
Definition repeat_count (ds rest : list ascii) : parsed nat :=
  if max_str_digits <? List.length ds then raised (Throws TooManyDigits) rest
  else if (MAXREPEAT <=? number ds)%N then raised (Throws TooLarge) rest
  else Parsed (N.to_nat (number ds)).

(** A quantifier at the head of [s]: its bounds and the rest. *)
Definition quantifier (s : list ascii)
  : parsed (option (nat * option nat * list ascii)) :=
  match s with
  | "*"%char :: s' => Parsed (Some (0, None, s'))
  | "+"%char :: s' => Parsed (Some (1, None, s'))
  | "?"%char :: s' => Parsed (Some (0, Some 1, s'))
  | "{"%char :: s' =>
      let '(lo, s1) := digit_span s' in
      match s1 with
      | "}"%char :: s2 =>
          match lo with
          | _ :: _ =>
              and_then (repeat_count lo s2) (fun m => Parsed (Some (m, Some m, s2)))
          | [] => Outside
          end
      | ","%char :: s2 =>
          let '(hi, s3) := digit_span s2 in
          match s3 with
          | "}"%char :: s4 =>
              and_then (match lo with
                        | _ :: _ => repeat_count lo s4
                        | [] => Parsed 0
                        end) (fun m =>
              match hi with
              | _ :: _ =>
                  and_then (repeat_count hi s4) (fun n =>
                  if n <? m
                  then raised (Malformed "min repeat greater than max repeat") s4
                  else Parsed (Some (m, Some n, s4)))
              | [] => Parsed (Some (m, None, s4))
              end)
          | _ => Outside
          end
      | _ => Outside
      end
  | _ => Parsed None
  end.

(** An atom followed by its quantifier, if any.  [repeatable] is false for
    the zero-width atoms [^ $ \b \B]. *)
Definition quantified (repeatable : bool) (r : regex) (s : list ascii)
  : parsed (regex * list ascii) :=
  and_then (quantifier s) (fun q =>
  match q with
  | None => Parsed (r, s)
  | Some (lo, hi, s') =>
      if repeatable
      then match s' with
           | "*"%char :: s'' => raised (Malformed "multiple repeat") s''
           | "?"%char :: _ | "+"%char :: _ | "{"%char :: _ => Outside
           | _ => Parsed (Repeat lo hi r, s')
           end
      else raised (Malformed "nothing to repeat") s'
  end).

(** One member of a character set, a character or a category, with the
    token that stands for it. *)
Definition set_member (s : list ascii)
  : parsed (set_item * list ascii * list ascii) :=
  match s with
  | [] => Malformed "unterminated character set"
  | "\"%char :: [] => Malformed "bad escape (end of pattern)"
  | "\"%char :: c :: s' =>
      match category_escape c with
      | Some (k, negated) => Parsed (SCategory k negated, ["\"%char; c], s')
      | None =>
          match char_escape c with
          | Some x => Parsed (SChar x, ["\"%char; c], s')
          | None => Outside
          end
      end
  | c :: s' => Parsed (SChar c, [c], s')
  end.

Fixpoint set_items (fuel : nat) (first : bool) (s : list ascii)
  : parsed (list set_item * list ascii) :=
  match fuel with
  | 0 => Outside
  | S fuel' =>
      match s with
      | [] => Malformed "unterminated character set"
      | c :: s0 =>
          if Ascii.eqb c "]"%char && negb first then Parsed ([], s0)
          else
            and_then (set_member s) (fun '(it, this, s1) =>
            match s1 with
            | "-"%char :: s2 =>
                match s2 with
                | [] => Malformed "unterminated character set"
                | "]"%char :: s3 => Parsed ([it; SChar "-"%char], s3)
                | _ =>
                    and_then (set_member s2) (fun '(it2, that, s3) =>
                    match it, it2 with
                    | SChar lo, SChar hi =>
                        if code hi <? code lo
                        then raised (Malformed ("bad character range "
                                                ++ str this ++ "-" ++ str that)%string)
                                    s3
                        else and_then (set_items fuel' false s3) (fun '(its, s4) =>
                             Parsed (SRange lo hi :: its, s4))
                    | _, _ => Outside
                    end)
                end
            | _ =>
                and_then (set_items fuel' false s1) (fun '(its, s2) =>
                Parsed (it :: its, s2))
            end)
      end
  end.

Definition cat (r1 r2 : regex) : regex :=
  match r2 with
  | Empty => r1
  | _ => Cat r1 r2
  end.

(** The letters of the inline flags, and a group [(?flags)] of global
    flags at the head of [s], after [(?]. *)
Definition is_flag (c : ascii) : bool :=
  existsb (Ascii.eqb c) (chars "aimsux").

Fixpoint flag_span (s : list ascii) : list ascii * list ascii :=
  match s with
  | c :: s' =>
      if is_flag c
      then let '(fs, rest) := flag_span s' in (c :: fs, rest)
      else ([], s)
  | [] => ([], [])
  end.

Definition global_flags (s : list ascii) : option (list ascii) :=
  match flag_span s with
  | (f :: fs, ")"%char :: rest) =>
      if existsb (Ascii.eqb "a") (f :: fs) && existsb (Ascii.eqb "u") (f :: fs)
      then None
      else Some rest
  | _ => None
  end.

(** The nesting of groups that the embedding reads. *)
Definition max_depth : nat := 100.

(** [alternatives] reads [a|b|...], [items] one alternative and [atom] one
    quantified atom; each returns what follows what it has read.  [depth]
    bounds the nesting of groups; [first] holds at the very start of the
    pattern, the only place for global flags. *)
Fixpoint alternatives (fuel depth : nat) (first : bool) (s : list ascii)
  : parsed (regex * list ascii) :=
  match fuel with
  | 0 => Outside
  | S fuel' =>
      and_then (items fuel' depth first s) (fun '(r, s1) =>
      match s1 with
      | "|"%char :: s2 =>
          and_then (alternatives fuel' depth false s2) (fun '(r', s3) =>
          Parsed (Branch r r', s3))
      | _ => Parsed (r, s1)
      end)
  end

with items (fuel depth : nat) (first : bool) (s : list ascii)
  : parsed (regex * list ascii) :=
  match fuel with
  | 0 => Outside
  | S fuel' =>
      match s with
      | [] => Parsed (Empty, s)
      | "|"%char :: _ => Parsed (Empty, s)
      | ")"%char :: _ => Parsed (Empty, s)
      | _ =>
          and_then (atom fuel' depth first s) (fun '(r, s1) =>
          and_then (items fuel' depth false s1) (fun '(r', s2) =>
          Parsed (cat r r', s2)))
      end
  end

with atom (fuel depth : nat) (first : bool) (s : list ascii)
  : parsed (regex * list ascii) :=
  match fuel with
  | 0 => Outside
  | S fuel' =>
      match s with
      | [] => Outside
      | "("%char :: s0 =>
          let body capture s1 :=
            match depth with
            | 0 => Outside
            | S depth' =>
                and_then (alternatives fuel' depth' false s1) (fun '(r, s2) =>
                match s2 with
                | ")"%char :: s3 =>
                    quantified true (if capture : bool then Group r else r) s3
                | _ => Malformed "missing ), unterminated subpattern"
                end)
            end in
          match s0 with
          | "?"%char :: ":"%char :: s1 => body false s1
          | "?"%char :: s1 =>
              match global_flags s1 with
              | Some rest =>
                  if first then Outside
                  else raised (Malformed
                                 "global flags not at the start of the expression")
                              rest
              | None => Outside
              end
          | _ => body true s0
          end
      | "["%char :: s0 =>
          let '(negated, s1) :=
            match s0 with
            | "^"%char :: s1 => (true, s1)
            | _ => (false, s0)
            end in
          and_then (set_items (S (List.length s1)) true s1) (fun '(its, s2) =>
          quantified true (CharSet negated its) s2)
      | "."%char :: s0 => quantified true AnyChar s0
      | "^"%char :: s0 => quantified false AtBeginning s0
      | "$"%char :: s0 => quantified false AtEnd s0
      | "*"%char :: s0 | "+"%char :: s0 | "?"%char :: s0 =>
          raised (Malformed "nothing to repeat") s0
      | "{"%char :: _ => Outside
      | "\"%char :: [] => Malformed "bad escape (end of pattern)"
      | "\"%char :: c :: s0 =>
          match category_escape c with
          | Some (k, negated) =>
              quantified true (CharSet false [SCategory k negated]) s0
          | None =>
              match c with
              | "b"%char => quantified false (Boundary false) s0
              | "B"%char => quantified false (Boundary true) s0
              | _ =>
                  match char_escape c with
                  | Some x => quantified true (Literal x) s0
                  | None => Outside
                  end
              end
          end
      | c :: s0 => quantified true (Literal c) s0
      end
  end.

Definition parse (pattern : string) : parsed regex :=
  let s := chars pattern in
  and_then (alternatives (4 * List.length s + 4) max_depth true s) (fun '(r, rest) =>
  match rest with
  | [] => Parsed r
  | _ => Malformed "unbalanced parenthesis"
  end).

(** *** The interface of [re] *)

(** A compiled pattern: [re.compile(pattern, flags)]. *)
Record Pattern : Type := {
  pattern_flags : flags;
  pattern_regex : regex
}.

Definition compile (pattern : string) (fl : flags) : result Pattern :=
  match parse pattern with
  | Parsed r => Ok {| pattern_flags := fl; pattern_regex := r |}
  | Malformed msg => Raise (re_error msg pattern)
  | Throws TooManyDigits => Raise ValueError
  | Throws TooLarge => Raise OverflowError
  | Outside => Raise (Unsupported pattern)
  end.

(** A match object: its span; [m.group(0)] is the text in between. *)
Definition Match : Type := (nat * nat)%type.
Definition m_start (m : Match) : nat := fst m.
Definition m_end (m : Match) : nat := snd m.
Definition group0 (text : string) (m : Match) : string :=
  slice text (m_start m) (m_end m).

(** [p.finditer(text)], as a list. *)
Definition finditer (p : Pattern) (text : string) : list Match :=
  let s := chars text in
  scan (pattern_flags p) s (pattern_regex p) (2 * List.length s + 2) 0 false.

(** [p.search(text)]. *)
Definition search (p : Pattern) (text : string) : option Match :=
  let s := chars text in
  search_at (pattern_flags p) s (pattern_regex p) (fun _ => false)
            (List.length s + 1) 0.

(** [p.findall(text)] for a pattern without groups. *)
Definition findall (p : Pattern) (text : string) : list string :=
  map (group0 text) (finditer p text).

(** [re.compile(re.escape(s), flags)]: the characters of [s], each matched
    literally. *)
Definition escaped (s : string) (fl : flags) : Pattern :=
  {| pattern_flags := fl;
     pattern_regex := fold_right (fun c r => cat (Literal c) r) Empty (chars s) |}.

(** [re.escape(s)]: a backslash before each character that is special in a
    pattern. *)
Definition special (c : ascii) : bool :=
  existsb (Ascii.eqb c) (chars "()[]{}?*+-|^$\.&~# ") || in_range 9 13 c.

Definition escape (s : string) : string :=
  str (flat_map (fun c => if special c then ["\"%char; c] else [c]) (chars s)).

End Re.

(** ** JSON values and the Python operations on them *)

(** What [json.loads] returns.  [JFloat q] is a finite float; [JInfinity]
    and [JNaN] are the floats of the literals [Infinity], [-Infinity] and
    [NaN], and of a number beyond the float range such as [1e999]. *)
#[warnings="-register-all"]
Inductive json : Type :=
| JNull
| JBool (b : bool)
| JInt (z : Z)
| JFloat (q : Q)
| JInfinity (negative : bool)
| JNaN
| JStr (s : string)
| JList (l : list json)
| JDict (d : list (string * json)).

(** A [dict] with string keys; each key occurs once. *)
Definition dict : Type := list (string * json).

Fixpoint lookup (d : dict) (k : string) : option json :=
  match d with
  | [] => None
  | (k', v) :: d' => if String.eqb k' k then Some v else lookup d' k
  end.

(** [d.get(k, default)]; [d.get(k)] is [get d k JNull]. *)
Definition get (d : dict) (k : string) (default : json) : json :=
  match lookup d k with
  | Some v => v
  | None => default
  end.

(** Truth value of an object: [None], [False], zero and empty containers
    are false. *)
Definition truthy (v : json) : bool :=
  match v with
  | JNull => false
  | JBool b => b
  | JInt z => negb (z =? 0)%Z
  | JFloat q => negb (Qnum q =? 0)%Z
  | JInfinity _ | JNaN => true
  | JStr s => negb (String.eqb s "")
  | JList l => match l with [] => false | _ => true end
  | JDict d => match d with [] => false | _ => true end
  end.

(** [a or b]. *)
Definition py_or (a b : json) : json := if truthy a then a else b.

(** The elements that [for x in v] visits: the items of a list, the
    characters of a string, the keys of a dict; other values are not
    iterable. *)
Definition iterate (v : json) : result (list json) :=
  match v with
  | JList l => Ok l
  | JStr s => Ok (map (fun c => JStr (String c "")) (chars s))
  | JDict d => Ok (map (fun kv => JStr (fst kv)) d)
  | _ => Raise TypeError
  end.

(** [v.get(k)]: only a dict has the method. *)
Definition method_get (v : json) (k : string) : result json :=
  match v with
  | JDict d => Ok (get d k JNull)
  | _ => Raise AttributeError
  end.

(** [v == s] for a string literal [s]. *)
Definition equals_str (v : json) (s : string) : bool :=
  match v with
  | JStr s' => String.eqb s' s
  | _ => false
  end.

(** [v.upper()]: only a string has the method. *)
Definition method_upper (v : json) : result string :=
  match v with
  | JStr s => Ok (upper s)
  | _ => Raise AttributeError
  end.

(** An item of [sep.join(...)] or the argument of [re.escape]: a string, or
    [TypeError]. *)
Definition expect_str (v : json) : result string :=
  match v with
  | JStr s => Ok s
  | _ => Raise TypeError
  end.

Fixpoint digit_run (s : list ascii) (acc : Z) : option Z :=
  match s with
  | [] => Some acc
  | c :: s' =>
      if is_digit c then digit_run s' (10 * acc + Z.of_nat (code c - 48))%Z
      else if Ascii.eqb c "_"%char
      then match s' with
           | d :: _ => if is_digit d then digit_run s' acc else None
           | [] => None
           end
      else None
  end.

(** The whitespace that [int] skips around the digits of an ASCII string:
    the characters 9 to 13 and the space. *)
Definition is_cspace (c : ascii) : bool :=
  in_range 9 13 c || (code c =? 32).

Fixpoint skip_cspace (s : list ascii) : list ascii :=
  match s with
  | c :: s' => if is_cspace c then skip_cspace s' else s
  | [] => []
  end.

(** [int(s)] for a string: surrounding whitespace, a sign, decimal digits
    with single underscores between them, no more than [max_str_digits]
    of them. *)
Definition int_of_str (s : string) : option Z :=
  let body := rev (skip_cspace (rev (skip_cspace (chars s)))) in
  let '(negative, ds) :=
    match body with
    | "-"%char :: ds => (true, ds)
    | "+"%char :: ds => (false, ds)
    | _ => (false, body)
    end in
  match ds with
  | d :: _ =>
      if is_digit d && (List.length (filter is_digit ds) <=? max_str_digits)
      then option_map (fun z => if negative : bool then (- z)%Z else z)
                      (digit_run ds 0%Z)
      else None
  | [] => None
  end.

(** [int(v)]: a finite float is truncated towards zero, a string is
    parsed; an infinite float is an [OverflowError], a NaN a
    [ValueError]. *)
Definition py_int (v : json) : result Z :=
  match v with
  | JInt z => Ok z
  | JBool b => Ok (if b then 1 else 0)%Z
  | JFloat q => Ok (Z.quot (Qnum q) (Z.pos (Qden q)))
  | JInfinity _ => Raise OverflowError
  | JNaN => Raise ValueError
  | JStr s => match int_of_str s with
              | Some z => Ok z
              | None => Raise ValueError
              end
  | JNull | JList _ | JDict _ => Raise TypeError
  end.

(** ** The evaluator: [run_compliance_check_semantic.py] *)

(** *** Text utilities *)

(** [snippet(text, start, end, margin=120)]. *)
Definition snippet_with (margin : nat) (text : string) (start finish : nat) : string :=
  let a := Nat.max 0 (start - margin) in
  let b := Nat.min (String.length text) (finish + margin) in
  strip (replace "\n" " " (slice text a b)).

Definition snippet : string -> nat -> nat -> string := snippet_with 120.

Definition any_regex_flags : Re.flags :=
  {| Re.IGNORECASE := true; Re.MULTILINE := true; Re.DOTALL := true |}.

(** [any_regex(patterns)]: [None] for no pattern, else the alternation of
    the non-empty patterns, compiled. *)
Definition any_regex (patterns : json) : result (option Re.Pattern) :=
  ps <- iterate (py_or patterns (JList [])) ;;
  match filter truthy ps with
  | [] => Ok None
  | pats =>
      strs <- mapM expect_str pats ;;
      p <- Re.compile ("(" ++ join "|" strs ++ ")")%string any_regex_flags ;;
      Ok (Some p)
  end.

(** [find_all(pattern, text)]. *)
Definition find_all (pattern : option Re.Pattern) (text : string) : list Re.Match :=
  match pattern with
  | None => []
  | Some p => if String.eqb text "" then [] else Re.finditer p text
  end.

(** [window_has_negative(text, center_span, neg_re, char_window)]. *)
Definition window_has_negative (text : string) (center_span : Re.Match)
           (neg_re : option Re.Pattern) (char_window : nat) : bool :=
  match neg_re with
  | None => false
  | Some p =>
      let '(s, e) := center_span in
      let a := Nat.max 0 (s - char_window) in
      let b := Nat.min (String.length text) (e + char_window) in
      match Re.search p (slice text a b) with
      | Some _ => true
      | None => false
      end
  end.

(** *** Outcomes *)

Inductive Decision : Type := FOUND | MISSING | CONFLICT | REVIEW.

Record Outcome : Type := {
  decision : Decision;
  matched_positive : list string;
  matched_forbidden : list string;
  matched_pattern : string;
  confidence : Q;
  notes : string
}.

Definition nonempty {A : Type} (l : list A) : bool :=
  match l with
  | [] => false
  | _ :: _ => true
  end.

(** *** The legacy path (lines 151-173) *)

Definition legacy_found (pat : string) : Outcome :=
  {| decision := FOUND;
     matched_positive := [];
     matched_forbidden := [];
     matched_pattern := pat;
     confidence := 0.6;
     notes := "Legacy contains_any match" |}.

Definition legacy_missing : Outcome :=
  {| decision := MISSING;
     matched_positive := [];
     matched_forbidden := [];
     matched_pattern := "";
     confidence := 0;
     notes := "Legacy contains_any not found" |}.

(** The inner loop [for pat in (chk.get("patterns") or [])]: the first
    pattern that is truthy and whose lowercase form occurs in the lowercase
    text.  [pat.lower()] exists for a string only. *)
Fixpoint first_hit (pats : list json) (doc_text : string) : result (option string) :=
  match pats with
  | [] => Ok None
  | pat :: rest =>
      if truthy pat
      then match pat with
           | JStr s =>
               if contains (lower s) (lower doc_text) then Ok (Some s)
               else first_hit rest doc_text
           | _ => Raise AttributeError
           end
      else first_hit rest doc_text
  end.

(** The outer loop [for chk in checks]. *)
Fixpoint legacy_scan (checks : list json) (doc_text : string) : result (option string) :=
  match checks with
  | [] => Ok None
  | chk :: rest =>
      ty <- method_get chk "type" ;;
      if equals_str ty "contains_any"
      then pv <- method_get chk "patterns" ;;
           pats <- iterate (py_or pv (JList [])) ;;
           hit <- first_hit pats doc_text ;;
           match hit with
           | Some pat => Ok (Some pat)
           | None => legacy_scan rest doc_text
           end
      else legacy_scan rest doc_text
  end.

Definition legacy_path (checks : json) (doc_text : string) : result Outcome :=
  chks <- iterate checks ;;
  hit <- legacy_scan chks doc_text ;;
  match hit with
  | Some pat => Ok (legacy_found pat)
  | None => Ok legacy_missing
  end.

(** *** The semantic path: reading the rule (lines 176-182) *)

Record Settings : Type := {
  rule_type : json;
  pos_re : option Re.Pattern;
  neg_re : option Re.Pattern;
  forbid_re : option Re.Pattern;
  threshold : Z;
  char_window : nat
}.

Definition read_settings (rule : dict) : result Settings :=
  let rule_type := get rule "rule_type" (JStr "affirm") in
  pos_re <- any_regex (get rule "positive_patterns" JNull) ;;
  neg_re <- any_regex (get rule "negative_patterns" JNull) ;;
  forbid_re <- any_regex (get rule "forbidden_claims" JNull) ;;
  threshold <- py_int (get rule "threshold" (JInt 1)) ;;
  tokens <- py_int (get rule "negation_window_tokens" (JInt 12)) ;;
  Ok {| rule_type := rule_type;
        pos_re := pos_re;
        neg_re := neg_re;
        forbid_re := forbid_re;
        threshold := threshold;
        char_window := Z.to_nat (Z.max 0 (tokens * 6)) |}.

(** *** Step 1: forbidden claims (lines 188-200) *)

Definition forbidden_snips (forbid_re : option Re.Pattern) (doc_text : string)
  : list string :=
  map (fun m => snippet doc_text (Re.m_start m) (Re.m_end m))
      (find_all forbid_re doc_text).

(** [rule_type in {"deny", "limit", "align_with_opspecs", "affirm"}]: a list
    or a dict cannot be hashed. *)
Definition known_rule_type (rule_type : json) : result bool :=
  match rule_type with
  | JList _ | JDict _ => Raise TypeError
  | _ => Ok (equals_str rule_type "deny" || equals_str rule_type "limit"
             || equals_str rule_type "align_with_opspecs"
             || equals_str rule_type "affirm")
  end.

(** *** Step 2: positive evidence with the local negation check
        (lines 202-213) *)

(** The variables that the loop over the positive matches updates. *)
Record Evidence : Type := {
  pos_hits : Z;
  matched_positive_snips : list string;
  matched_forbidden_snips : list string;
  first_pattern : string
}.

Definition positive_step (doc_text : string) (neg_re : option Re.Pattern)
           (char_window : nat) (ev : Evidence) (m : Re.Match) : Evidence :=
  let snip := snippet doc_text (Re.m_start m) (Re.m_end m) in
  if negb (window_has_negative doc_text m neg_re char_window)
  then {| pos_hits := pos_hits ev + 1;
          matched_positive_snips := matched_positive_snips ev ++ [snip];
          matched_forbidden_snips := matched_forbidden_snips ev;
          first_pattern := if String.eqb (first_pattern ev) ""
                           then Re.group0 doc_text m
                           else first_pattern ev |}
  else {| pos_hits := pos_hits ev;
          matched_positive_snips := matched_positive_snips ev;
          matched_forbidden_snips := matched_forbidden_snips ev ++ [snip];
          first_pattern := first_pattern ev |}.

Definition positive_scan (st : Settings) (doc_text : string)
           (forbidden : list string) : Evidence :=
  fold_left (positive_step doc_text (neg_re st) (char_window st))
            (find_all (pos_re st) doc_text)
            {| pos_hits := 0;
               matched_positive_snips := [];
               matched_forbidden_snips := forbidden;
               first_pattern := "" |}.

(** *** Step 3: alignment with ops_facts (lines 215-235) *)

Definition search_flags : Re.flags :=
  {| Re.IGNORECASE := true; Re.MULTILINE := false; Re.DOTALL := false |}.

(** [re.search(re.escape(s), doc_text, re.I) is not None]; the escaped
    pattern compiles to the literals of [s] ([escaped_compiles] below). *)
Definition mentions (doc_text s : string) : bool :=
  match Re.search (Re.escaped s search_flags) doc_text with
  | Some _ => true
  | None => false
  end.

(** The compiled [r"\b[0-9A-Z]{1,2}-[A-Z]{3}\b"] with [re.I]. *)
Definition registration_shape : Re.Pattern :=
  let alnum := Re.CharSet false [Re.SRange "0" "9"; Re.SRange "A" "Z"] in
  let letter := Re.CharSet false [Re.SRange "A" "Z"] in
  {| Re.pattern_flags := search_flags;
     Re.pattern_regex :=
       Re.Cat (Re.Boundary false)
        (Re.Cat (Re.Repeat 1 (Some 2) alnum)
          (Re.Cat (Re.Literal "-")
            (Re.Cat (Re.Repeat 3 (Some 3) letter) (Re.Boundary false)))) |}.

(** [sorted(set(l))] on strings. *)
Fixpoint insert_sorted (x : string) (l : list string) : list string :=
  match l with
  | [] => [x]
  | y :: l' =>
      if String.eqb x y then l
      else if String.ltb x y then x :: l
      else y :: insert_sorted x l'
  end.

Definition sorted_set (l : list string) : list string :=
  fold_right insert_sorted [] l.

Definition member (x : string) (l : list string) : bool :=
  existsb (String.eqb x) l.

(** The body of the alignment block up to its decisions: the notes and the
    snippets that it appends to [matched_forbidden_snips]. *)
Definition check_alignment (of_ : json) (doc_text : string)
  : result (list string * list string) :=
  rv <- method_get of_ "registrations" ;;
  let regs := py_or rv (JList []) in
  '(notes1, extras) <-
    (if truthy regs
     then rs <- iterate regs ;;
          names <- mapM expect_str rs ;;
          let missing := filter (fun r => negb (mentions doc_text r)) names in
          let notes1 :=
            if nonempty missing
            then [("Missing registrations in manuals: " ++ join ", " missing)%string]
            else [] in
          let all_regs_found := Re.findall registration_shape doc_text in
          let extras :=
            filter (fun r => negb (member (upper r) (map upper names)))
                   (sorted_set all_regs_found) in
          Ok (notes1, map (fun x => ("Extra reg in manuals: " ++ x)%string) extras)
     else Ok ([], [])) ;;
  av <- method_get of_ "area" ;;
  notes2 <-
    (if truthy av
     then xs <- iterate av ;;
          desired <- mapM method_upper xs ;;
          Ok (if negb (existsb (mentions doc_text) desired)
              then ["Area from OpsSpecs not clearly stated in manuals"]
              else [])
     else Ok []) ;;
  Ok (notes1 ++ notes2, extras).

(** *** Step 4: the final decision (lines 256-282) *)

(** The first int that [float] does not convert: it rounds to 2^1024. *)
Definition float_limit : Z := 2 ^ 1024 - 2 ^ 970.

(** [sys.maxsize], the largest length of a list. *)
Definition ssize_max : Z := 2 ^ 63 - 1.

(** A number of items of a list: at most [ssize_max]. *)
Definition counted (n : Z) : Z := Z.min n ssize_max.

(** [pos_hits - threshold] as the float that [0.2 * (pos_hits - threshold)]
    multiplies: the conversion of the int raises [OverflowError] from
    [float_limit] on.  [pos_hits] has counted items of the list of matches,
    so that it is [counted]: only a negative threshold takes the difference
    out of the float range.  The confidence is computed on exact rationals,
    which gives the value of the float computation: 0.6 for no surplus, 0.8
    for one, and 1 from two on. *)
Definition surplus (pos_hits threshold : Z) : result Q :=
  if (float_limit <=? counted pos_hits - threshold)%Z
  then Raise OverflowError
  else Ok (inject_Z (pos_hits - threshold)).

Definition final_decision (st : Settings) (ev : Evidence) : result Outcome :=
  if (threshold st <=? pos_hits ev)%Z
  then x <- surplus (pos_hits ev) (threshold st) ;;
       Ok {| decision := FOUND;
             matched_positive := matched_positive_snips ev;
             matched_forbidden := [];
             matched_pattern := first_pattern ev;
             confidence := Qmin 1 (0.6 + 0.2 * x);
             notes := "" |}
  else if nonempty (matched_positive_snips ev) && nonempty (matched_forbidden_snips ev)
  then Ok {| decision := REVIEW;
             matched_positive := matched_positive_snips ev;
             matched_forbidden := matched_forbidden_snips ev;
             matched_pattern := first_pattern ev;
             confidence := 0.5;
             notes := "Positive evidence appears near negations/contradictions" |}
  else Ok {| decision := MISSING;
             matched_positive := [];
             matched_forbidden := [];
             matched_pattern := first_pattern ev;
             confidence := 0;
             notes := "" |}.

(** *** [evaluate_rule_semantic(rule, doc_text, ops_facts)] *)

(** The guard of the alignment block:
    [rule_type == "align_with_opspecs" and (ops_facts or rule.get("ops_facts"))]. *)
Definition aligned (st : Settings) (rule_facts ops_facts : json) : bool :=
  equals_str (rule_type st) "align_with_opspecs"
  && truthy (py_or ops_facts rule_facts).

(** [of = rule.get("ops_facts") or ops_facts or {}]. *)
Definition selected_facts (rule_facts ops_facts : json) : json :=
  py_or rule_facts (py_or ops_facts (JDict [])).

(** The semantic path once the rule is read. *)
Definition evaluate_settings (st : Settings) (rule_facts : json)
           (doc_text : string) (ops_facts : json) : result Outcome :=
  let forbidden := forbidden_snips (forbid_re st) doc_text in
  hard <- (if nonempty forbidden then known_rule_type (rule_type st) else Ok false) ;;
  if hard : bool
  then Ok {| decision := CONFLICT;
             matched_positive := [];
             matched_forbidden := forbidden;
             matched_pattern := "";
             confidence := 0.95;
             notes := "Forbidden claim(s) present" |}
  else
    let ev := positive_scan st doc_text forbidden in
    if aligned st rule_facts ops_facts
    then
      let of_ := selected_facts rule_facts ops_facts in
      '(notes, extras) <- check_alignment of_ doc_text ;;
      let ev' := {| pos_hits := pos_hits ev;
                    matched_positive_snips := matched_positive_snips ev;
                    matched_forbidden_snips := matched_forbidden_snips ev ++ extras;
                    first_pattern := first_pattern ev |} in
      if nonempty (matched_forbidden_snips ev')
      then Ok {| decision := CONFLICT;
                 matched_positive := matched_positive_snips ev';
                 matched_forbidden := matched_forbidden_snips ev';
                 matched_pattern := first_pattern ev';
                 confidence := 0.9;
                 notes := if nonempty notes then join "; " notes
                          else "Conflict with ops_facts" |}
      else if nonempty notes && (pos_hits ev' <? threshold st)%Z
      then Ok {| decision := MISSING;
                 matched_positive := matched_positive_snips ev';
                 matched_forbidden := [];
                 matched_pattern := first_pattern ev';
                 confidence := 0.2;
                 notes := join "; " notes |}
      else final_decision st ev'
    else final_decision st ev.

Definition evaluate_rule_semantic (rule : dict) (doc_text : string)
           (ops_facts : json) : result Outcome :=
  let checks := get rule "checks" (JList []) in
  if truthy checks
  then legacy_path checks doc_text
  else
    st <- read_settings rule ;;
    evaluate_settings st (get rule "ops_facts" JNull) doc_text ops_facts.

(** *** The evaluator with its list objects and sets

    The definitions above read the evaluator as a function of its
    arguments.  The Python function works on objects: it creates the lists
    [matched_positive_snips], [matched_forbidden_snips] and [notes], appends
    to them, and returns a dict that refers to the first two; it builds
    sets, whose iteration order depends on the hash seed of the process.
    [Stored] embeds the same lines with both made explicit: the list
    objects live in a heap, which a run receives from whatever ran before
    it, and the order in which a set is iterated is the parameter
    [order]. *)

Module Stored.

(** The address of a list object. *)
Definition ref : Type := nat.

(** The list objects that exist, by address. *)
Definition heap : Type := list (list string).

(** A run from a heap: what it returns or raises, and the heap it leaves. *)
Definition run (A : Type) : Type := heap -> result A * heap.

Definition ret {A : Type} (a : A) : run A := fun h => (Ok a, h).

(** A step that touches no object. *)
Definition lift {A : Type} (r : result A) : run A := fun h => (r, h).

Definition then_ {A B : Type} (m : run A) (k : A -> run B) : run B :=
  fun h =>
    match m h with
    | (Ok a, h') => k a h'
    | (Raise e, h') => (Raise e, h')
    end.

Notation "x <~ m ;; k" := (then_ m (fun x => k))
  (at level 61, m at next level, right associativity).
Notation "' p <~ m ;; k" := (then_ m (fun x => let p := x in k))
  (at level 61, p pattern, m at next level, right associativity).

(** The list display [[]]: a new object. *)
Definition new_list : run ref :=
  fun h => (Ok (List.length h), h ++ [[]]).

(** The items of the object at [r]. *)
Definition contents (r : ref) : run (list string) :=
  fun h => (Ok (nth r h []), h).

Fixpoint store (r : ref) (l : list string) (h : heap) : heap :=
  match h, r with
  | [], _ => []
  | _ :: t, 0 => l :: t
  | x :: t, S r' => x :: store r' l t
  end.

(** [r.extend(xs)] and [r.append(x)]: the object at [r] is changed in
    place. *)
Definition extend (r : ref) (xs : list string) : run unit :=
  fun h => (Ok tt, store r (nth r h [] ++ xs) h).

Definition append (r : ref) (x : string) : run unit := extend r [x].

(** [for x in l: body], with the local variables that the body rebinds. *)
Fixpoint for_each {A S : Type} (l : list A) (body : S -> A -> run S) (s : S)
  : run S :=
  match l with
  | [] => ret s
  | x :: l' => s' <~ body s x ;; for_each l' body s'
  end.

(** The returned dict: its two lists are objects. *)
Record Dict : Type := {
  d_decision : Decision;
  d_matched_positive : ref;
  d_matched_forbidden : ref;
  d_matched_pattern : string;
  d_confidence : Q;
  d_notes : string
}.

(** What a caller reads in the dict. *)
Definition value (h : heap) (d : Dict) : Outcome :=
  {| decision := d_decision d;
     matched_positive := nth (d_matched_positive d) h [];
     matched_forbidden := nth (d_matched_forbidden d) h [];
     matched_pattern := d_matched_pattern d;
     confidence := d_confidence d;
     notes := d_notes d |}.

(** What a run hands to its caller. *)
Definition returned (r : result Dict * heap) : result Outcome :=
  match r with
  | (Ok d, h) => Ok (value h d)
  | (Raise e, _) => Raise e
  end.

(** [sorted(s)] on strings. *)
Fixpoint insert_ordered (x : string) (l : list string) : list string :=
  match l with
  | [] => [x]
  | y :: l' => if String.leb x y then x :: l else y :: insert_ordered x l'
  end.

Definition sorted (l : list string) : list string :=
  fold_right insert_ordered [] l.

Section Evaluator.

(** [order l]: the items of [set(l)] in the order of iteration. *)
Variable order : list string -> list string.

(** Lines 151-173. *)
Definition legacy_path (checks : json) (doc_text : string) : run Dict :=
  chks <~ lift (iterate checks) ;;
  hit <~ lift (legacy_scan chks doc_text) ;;
  positive <~ new_list ;;
  forbidden <~ new_list ;;
  match hit with
  | Some pat =>
      ret {| d_decision := FOUND;
             d_matched_positive := positive;
             d_matched_forbidden := forbidden;
             d_matched_pattern := pat;
             d_confidence := 0.6;
             d_notes := "Legacy contains_any match" |}
  | None =>
      ret {| d_decision := MISSING;
             d_matched_positive := positive;
             d_matched_forbidden := forbidden;
             d_matched_pattern := "";
             d_confidence := 0;
             d_notes := "Legacy contains_any not found" |}
  end.

(** Lines 219-230: the registrations that are missing and those that are
    extra.  [regs] is iterated as a set, and so is [all_regs_found], which
    is sorted. *)
Definition registrations_block (regs : json) (doc_text : string)
           (notes matched_forbidden_snips : ref) : run unit :=
  if truthy regs
  then rs <~ lift (iterate regs) ;;
       names <~ lift (mapM expect_str rs) ;;
       let missing := filter (fun r => negb (mentions doc_text r)) names in
       _ <~ (if nonempty missing
             then append notes
                    ("Missing registrations in manuals: " ++ join ", " missing)%string
             else ret tt) ;;
       let all_regs_found := order (Re.findall registration_shape doc_text) in
       let known := order (map upper names) in
       let extras :=
         filter (fun r => negb (member (upper r) known)) (sorted all_regs_found) in
       if nonempty extras
       then extend matched_forbidden_snips
                   (map (fun x => ("Extra reg in manuals: " ++ x)%string) extras)
       else ret tt
  else ret tt.

(** Lines 231-235: the area.  [desired] is iterated as a set. *)
Definition area_block (av : json) (doc_text : string) (notes : ref) : run unit :=
  if truthy av
  then xs <~ lift (iterate av) ;;
       uppers <~ lift (mapM method_upper xs) ;;
       let desired := order uppers in
       if negb (existsb (mentions doc_text) desired)
       then append notes "Area from OpsSpecs not clearly stated in manuals"
       else ret tt
  else ret tt.

(** Lines 217-235: the alignment block up to its decisions. *)
Definition check_alignment (of_ : json) (doc_text : string)
           (notes matched_forbidden_snips : ref) : run unit :=
  rv <~ lift (method_get of_ "registrations") ;;
  _ <~ registrations_block (py_or rv (JList [])) doc_text
         notes matched_forbidden_snips ;;
  av <~ lift (method_get of_ "area") ;;
  area_block av doc_text notes.

(** Lines 256-282. *)
Definition final_decision (st : Settings) (pos_hits : Z) (first_pattern : string)
           (matched_positive_snips matched_forbidden_snips : ref) : run Dict :=
  if (threshold st <=? pos_hits)%Z
  then forbidden <~ new_list ;;
       x <~ lift (surplus pos_hits (threshold st)) ;;
       ret {| d_decision := FOUND;
              d_matched_positive := matched_positive_snips;
              d_matched_forbidden := forbidden;
              d_matched_pattern := first_pattern;
              d_confidence := Qmin 1 (0.6 + 0.2 * x);
              d_notes := "" |}
  else
    positive <~ contents matched_positive_snips ;;
    contradictions <~ contents matched_forbidden_snips ;;
    if nonempty positive && nonempty contradictions
    then ret {| d_decision := REVIEW;
                d_matched_positive := matched_positive_snips;
                d_matched_forbidden := matched_forbidden_snips;
                d_matched_pattern := first_pattern;
                d_confidence := 0.5;
                d_notes := "Positive evidence appears near negations/contradictions" |}
    else positive' <~ new_list ;;
         forbidden' <~ new_list ;;
         ret {| d_decision := MISSING;
                d_matched_positive := positive';
                d_matched_forbidden := forbidden';
                d_matched_pattern := first_pattern;
                d_confidence := 0;
                d_notes := "" |}.

(** Lines 184-282, once the rule is read. *)
Definition evaluate_settings (st : Settings) (rule_facts : json)
           (doc_text : string) (ops_facts : json) : run Dict :=
  matched_positive_snips <~ new_list ;;
  matched_forbidden_snips <~ new_list ;;
  _ <~ for_each (find_all (forbid_re st) doc_text)
         (fun _ m =>
            append matched_forbidden_snips
                   (snippet doc_text (Re.m_start m) (Re.m_end m)))
         tt ;;
  forbidden <~ contents matched_forbidden_snips ;;
  hard <~ lift (if nonempty forbidden then known_rule_type (rule_type st)
                else Ok false) ;;
  if hard : bool
  then positive <~ new_list ;;
       ret {| d_decision := CONFLICT;
              d_matched_positive := positive;
              d_matched_forbidden := matched_forbidden_snips;
              d_matched_pattern := "";
              d_confidence := 0.95;
              d_notes := "Forbidden claim(s) present" |}
  else
    '(pos_hits, first_pattern) <~
      for_each (find_all (pos_re st) doc_text)
        (fun '(pos_hits, first_pattern) m =>
           let snip := snippet doc_text (Re.m_start m) (Re.m_end m) in
           if negb (window_has_negative doc_text m (neg_re st) (char_window st))
           then _ <~ append matched_positive_snips snip ;;
                ret ((pos_hits + 1)%Z,
                     if String.eqb first_pattern "" then Re.group0 doc_text m
                     else first_pattern)
           else _ <~ append matched_forbidden_snips snip ;;
                ret (pos_hits, first_pattern))
        (0%Z, ""%string) ;;
    notes <~ new_list ;;
    if aligned st rule_facts ops_facts
    then
      let of_ := selected_facts rule_facts ops_facts in
      _ <~ check_alignment of_ doc_text notes matched_forbidden_snips ;;
      contradictions <~ contents matched_forbidden_snips ;;
      noted <~ contents notes ;;
      if nonempty contradictions
      then ret {| d_decision := CONFLICT;
                  d_matched_positive := matched_positive_snips;
                  d_matched_forbidden := matched_forbidden_snips;
                  d_matched_pattern := first_pattern;
                  d_confidence := 0.9;
                  d_notes := if nonempty noted then join "; " noted
                             else "Conflict with ops_facts" |}
      else if nonempty noted && (pos_hits <? threshold st)%Z
      then forbidden' <~ new_list ;;
           ret {| d_decision := MISSING;
                  d_matched_positive := matched_positive_snips;
                  d_matched_forbidden := forbidden';
                  d_matched_pattern := first_pattern;
                  d_confidence := 0.2;
                  d_notes := join "; " noted |}
      else final_decision st pos_hits first_pattern
                          matched_positive_snips matched_forbidden_snips
    else final_decision st pos_hits first_pattern
                        matched_positive_snips matched_forbidden_snips.

Definition evaluate_rule_semantic (rule : dict) (doc_text : string)
           (ops_facts : json) : run Dict :=
  let checks := get rule "checks" (JList []) in
  if truthy checks
  then legacy_path checks doc_text
  else
    st <~ lift (read_settings rule) ;;
    evaluate_settings st (get rule "ops_facts" JNull) doc_text ops_facts.

End Evaluator.
End Stored.

(** *** [main]: one report row per rule (lines 284-353) *)

Record ReportRow : Type := {
  row_rule_id : json;
  row_item : json;
  row_source_docs : string;
  row_result : Decision;
  row_matched_pattern : string;
  row_evidence_positive : string;
  row_contradiction : string;
  row_confidence : Q;
  row_locator_hint : json;
  row_owner : json;
  row_evidence_hints : string;
  row_notes : string
}.

(** [round(q, 2)]: to the nearest hundredth, ties to the even one. *)
Definition round2 (q : Q) : Q :=
  let a := (Qnum q * 100)%Z in
  let d := Z.pos (Qden q) in
  let fl := (a / d)%Z in
  let twice := (2 * (a mod d))%Z in
  let n := if (twice <? d)%Z then fl
           else if (d <? twice)%Z then (fl + 1)%Z
           else if Z.even fl then fl else (fl + 1)%Z in
  Qmake n 100.

(** The document texts of a run, by document key. *)
Definition text_cache : Type := list (string * string).

Fixpoint cached (cache : text_cache) (k : string) : string :=
  match cache with
  | [] => ""
  | (k', text) :: cache' => if String.eqb k' k then text else cached cache' k
  end.

(** [text_cache.get(k, "")]: a list or a dict cannot be a key; a key that
    is not a string is never in the cache. *)
Definition cache_get (cache : text_cache) (k : json) : result string :=
  match k with
  | JStr key => Ok (cached cache key)
  | JList _ | JDict _ => Raise TypeError
  | _ => Ok ""
  end.

(** [sep.join(v)] for a JSON value [v]. *)
Definition join_json (sep : string) (v : json) : result string :=
  xs <- iterate v ;;
  strs <- mapM expect_str xs ;;
  Ok (join sep strs).

(** The body of the loop [for r in rules]. *)
Definition report_row (cache : text_cache) (ops_facts : json) (r : json)
  : result ReportRow :=
  match r with
  | JDict rule =>
      let r_id := get rule "id" JNull in
      let item := get rule "item" (JStr "") in
      let src_docs := get rule "source_docs" (JList [JStr "OpsSpecs"]) in
      let locator := get rule "locator_hint" (JStr "") in
      let owner := get rule "owner" (JStr "") in
      evidence_hints <- join_json "; " (get rule "evidence_hints" (JList [])) ;;
      keys <- iterate src_docs ;;
      texts <- mapM (cache_get cache) keys ;;
      let doc_text := join (String (ascii_of_nat 10) "") texts in
      outcome <- evaluate_rule_semantic rule doc_text ops_facts ;;
      source_docs <- join_json ", " src_docs ;;
      Ok {| row_rule_id := r_id;
            row_item := item;
            row_source_docs := source_docs;
            row_result := decision outcome;
            row_matched_pattern := matched_pattern outcome;
            row_evidence_positive := join " | " (firstn 3 (matched_positive outcome));
            row_contradiction := join " | " (firstn 3 (matched_forbidden outcome));
            row_confidence := round2 (confidence outcome);
            row_locator_hint := locator;
            row_owner := owner;
            row_evidence_hints := evidence_hints;
            row_notes := notes outcome |}
  | _ => Raise AttributeError
  end.

(** The rules of the loaded JSON: the value under ["rules"] of a dict, or a
    bare list. *)
Definition rules_of (raw : json) : result json :=
  match raw with
  | JDict d => match lookup d "rules" with
               | Some rules => Ok rules
               | None => Raise ValueError
               end
  | JList _ => Ok raw
  | _ => Raise ValueError
  end.

(** [main] up to line 343, from the loaded inputs to [results], the table
    that is handed to pandas. *)
Definition main (raw : json) (ops_facts : json) (cache : text_cache)
  : result (list ReportRow) :=
  rules <- rules_of raw ;;
  rs <- iterate rules ;;
  mapM (report_row cache ops_facts) rs.

(** [main] with its export (lines 345-353).  What pandas and openpyxl do
    with the table, the file that they write or leave behind and the
    exception that they may raise, is the parameter [to_excel]: it is
    called after the loop, once, with all the rows. *)
Definition main_to_excel {file : Type}
           (to_excel : list ReportRow -> result file)
           (raw : json) (ops_facts : json) (cache : text_cache) : result file :=
  results <- main raw ops_facts cache ;;
  to_excel results.

(** ** debug_text_extraction.py: the pattern test of the debug script

    What the functions print is left out; what they return and raise is
    kept. *)

Module Debug.

(** The loop of [test_pattern_matching] (lines 66-72): [found] is
    [found_patterns] so far. *)
Fixpoint pattern_loop (doc_text : string) (patterns found : list json)
  : result (list json) :=
  match patterns with
  | [] => Ok found
  | pattern :: rest =>
      if truthy pattern
      then match pattern with
           | JStr s =>
               if contains (lower s) (lower doc_text)
               then pattern_loop doc_text rest (found ++ [pattern])
               else pattern_loop doc_text rest found
           | _ => Raise AttributeError
           end
      else pattern_loop doc_text rest found
  end.

(** [test_pattern_matching(doc_text, patterns, rule_name)] (lines 60-75). *)
Definition test_pattern_matching (doc_text : string) (patterns : json)
  : result bool :=
  ps <- iterate patterns ;;
  found_patterns <- pattern_loop doc_text ps [] ;;
  Ok (0 <? List.length found_patterns).

(** The body of [for check in checks] in [main] (lines 135-141): the
    overall result that is printed for a check of type "contains_any". *)
Definition check_result (combined_text : string) (check : json)
  : result (option Decision) :=
  match check with
  | JDict d =>
      let check_type := get d "type" JNull in
      let patterns := get d "patterns" (JList []) in
      if equals_str check_type "contains_any"
      then found <- test_pattern_matching combined_text patterns ;;
           Ok (Some (if found : bool then FOUND else MISSING))
      else Ok None
  | _ => Raise AttributeError
  end.

(** The results printed for one rule (lines 95, 135-141). *)
Definition check_results (combined_text : string) (rule : dict)
  : result (list (option Decision)) :=
  checks <- iterate (get rule "checks" (JList [])) ;;
  mapM (check_result combined_text) checks.

End Debug.

(** ** analyze_report.py: the summary of a report

    The report is read back as [main] wrote it; of each row the summary
    reads the Result column. *)

Module Analyze.

Definition has_result (d : Decision) (row : ReportRow) : bool :=
  match d, row_result row with
  | FOUND, FOUND | MISSING, MISSING | CONFLICT, CONFLICT | REVIEW, REVIEW => true
  | _, _ => false
  end.

(** [len(df)], [len(df[df['Result'] == 'FOUND'])] and
    [len(df[df['Result'] == 'MISSING'])] (lines 14-16). *)
Definition total (df : list ReportRow) : nat := List.length df.
Definition found (df : list ReportRow) : nat :=
  List.length (filter (has_result FOUND) df).
Definition missing (df : list ReportRow) : nat :=
  List.length (filter (has_result MISSING) df).

(** The rules listed as missing, with their items (lines 25-28). *)
Definition missing_rules (df : list ReportRow) : list (json * json) :=
  map (fun row => (row_rule_id row, row_item row))
      (filter (has_result MISSING) df).

End Analyze.


(** ** Text utilities: [split_sentences] (lines 84-93)

    [SENT_SPLIT] is [(?<=[.!?])\s+(?=[A-Z(])], compiled without flags: a run
    of whitespace after a character of [.!?] and before an uppercase letter
    or an opening parenthesis.  The two assertions consume nothing: the one
    behind is tested where the match starts, the one ahead where an end of
    [\s+] is tried, in the order of backtracking. *)

Definition no_flags : Re.flags :=
  {| Re.IGNORECASE := false; Re.MULTILINE := false; Re.DOTALL := false |}.

(** [\s+]. *)
Definition blanks : Re.regex :=
  Re.Repeat 1 None (Re.CharSet false [Re.SCategory Re.Space false]).

Definition sentence_end (c : ascii) : bool :=
  existsb (Ascii.eqb c) (chars ".!?").

Definition sentence_start (c : ascii) : bool :=
  is_upper c || Ascii.eqb c "("%char.

(** [(?<=[...])] at [i] and [(?=[...])] at [e]. *)
Definition look_behind (text : list ascii) (p : ascii -> bool) (i : nat) : bool :=
  match i with
  | 0 => false
  | S j => match nth_error text j with
           | Some c => p c
           | None => false
           end
  end.

Definition look_ahead (text : list ascii) (p : ascii -> bool) (e : nat) : bool :=
  match nth_error text e with
  | Some c => p c
  | None => false
  end.

(** The ends of the matches of [SENT_SPLIT] that start at [i]. *)
Definition SENT_SPLIT_ends (text : list ascii) (i : nat) : list nat :=
  if look_behind text sentence_end i
  then filter (look_ahead text sentence_start) (Re.ends no_flags text blanks i)
  else [].

(** [SENT_SPLIT.search(text, i)], among the next [k] start positions. *)
Fixpoint SENT_SPLIT_search (text : list ascii) (k i : nat) : option (nat * nat) :=
  match k with
  | 0 => None
  | S k' =>
      match SENT_SPLIT_ends text i with
      | e :: _ => Some (i, e)
      | [] => SENT_SPLIT_search text k' (S i)
      end
  end.

(** The spans of the parts of [SENT_SPLIT.split(text)] from [pos] on: the
    text up to the next match, then the parts after it, and the rest of the
    text when there is no match any more.  A match is never empty, so that
    [fuel] above the length of the text is never used up. *)
Fixpoint split_spans (text : list ascii) (fuel pos : nat) : list (nat * nat) :=
  match fuel with
  | 0 => [(pos, List.length text)]
  | S fuel' =>
      match SENT_SPLIT_search text (List.length text - pos + 1) pos with
      | Some (s, e) => (pos, s) :: split_spans text fuel' e
      | None => [(pos, List.length text)]
      end
  end.

Definition SENT_SPLIT_split (text : string) : list string :=
  map (fun span => slice text (fst span) (snd span))
      (split_spans (chars text) (String.length text + 1) 0).

(** [split_sentences(text)]. *)
Definition split_sentences (text : string) : list string :=
  if String.eqb text "" then []
  else map strip
           (filter (fun p => negb (String.eqb (strip p) ""))
                   (SENT_SPLIT_split text)).


(** ** I/O helpers: the document mapping and [load_text_from_doc]
       (lines 34-45, 48-81, 308-312)

    What the file system and the document libraries answer is a parameter:
    for a path that exists, the texts of the paragraphs that python-docx
    finds, the result of [extract_text()] for each page that PyPDF2 finds,
    and the decoded content, each of them possibly an exception. *)

Definition DOC_FILES : list (string * string) :=
  [("OpsSpecs", "Opspecs Brook BHSBEXBHT -BOB - 27-04-2025.pdf");
   ("AOC", "AOC 23-24.pdf");
   ("OM-A", "OMA - REV 05.docx");
   ("OM-B", "OMB - REV 05.docx");
   ("OM-C", "OMC  - REV 05.docx");
   ("OM-D", "OMD - REV 05.docx");
   ("MEL", "BROOK S-76 MEL 4X-BHS,BHP,BHT,BEX,BOB,BOA, BOI S76C++ Rev 6 (1 Aug 2025).docx");
   ("MCM", "BROOK MCM REV 4 - 1 Aug 2025.docx");
   ("SMS", "mod_Brook SMS Manual rev 0.docx");
   ("ERP", "ERP Draft - Final (1) (1).docx")].

Record FileData : Type := {
  paragraphs : result (list string);
  pages : result (list (result (option string)));
  read_text : result string
}.

(** [None] for a path that does not exist. *)
Definition file_system : Type := string -> option FileData.

(** The index of the last [c] in [l], counted from [i]. *)
Fixpoint rfind (c : ascii) (l : list ascii) (i : nat) (last : option nat)
  : option nat :=
  match l with
  | [] => last
  | x :: l' => rfind c l' (S i) (if Ascii.eqb x c then Some i else last)
  end.

(** [Path(name).suffix] for a file name without a directory. *)
Definition suffix (name : string) : string :=
  match rfind "."%char (chars name) 0 None with
  | Some i =>
      if (0 <? i) && (i <? String.length name - 1)
      then str (skipn i (chars name))
      else ""
  | None => ""
  end.

Definition line_break : string := String (ascii_of_nat 10) "".

(** [try: ... except Exception: text = ""]. *)
Definition recover (text : result string) : string :=
  match text with
  | Ok s => s
  | Raise _ => ""
  end.

(** [p.extract_text() or ""], and [""] when the extraction raises. *)
Definition page_text (p : result (option string)) : string :=
  match p with
  | Ok (Some s) => s
  | _ => ""
  end.

Definition load_text_from_doc (fs : file_system) (path : string) : string :=
  match fs path with
  | None => ""
  | Some f =>
      let lower := lower (suffix path) in
      recover
        (if String.eqb lower ".docx"
         then ps <- paragraphs f ;; Ok (join line_break ps)
         else if String.eqb lower ".pdf"
         then pgs <- pages f ;; Ok (join line_break (map page_text pgs))
         else if member lower [".txt"; ".md"]
         then read_text f
         else Ok "")
  end.

(** The loop that fills [text_cache] in [main]. *)
Definition load_documents (fs : file_system) : text_cache :=
  map (fun entry => (fst entry, load_text_from_doc fs (snd entry))) DOC_FILES.

(** *** The loader and the document mapping of the debug script
        (debug_text_extraction.py, lines 11-58 and 103-131) *)

Module DebugLoader.

(** What one page adds to [pages]: its stripped text unless that is empty,
    and [""] when the extraction raises. *)
Definition page_entry (p : result (option string)) : list string :=
  match p with
  | Ok t =>
      let page_text := match t with Some s => s | None => "" end in
      if negb (String.eqb (strip page_text) "") then [strip page_text] else []
  | Raise _ => [""]
  end.

Definition load_text_from_doc (fs : file_system) (path : string) : string :=
  match fs path with
  | None => ""
  | Some f =>
      let lower := lower (suffix path) in
      recover
        (if String.eqb lower ".docx"
         then ps <- paragraphs f ;;
              Ok (join line_break
                       (map strip
                            (filter (fun p => negb (String.eqb (strip p) "")) ps)))
         else if String.eqb lower ".pdf"
         then pgs <- pages f ;; Ok (join line_break (flat_map page_entry pgs))
         else Ok "")
  end.

(** The chain of comparisons of [doc_key] (lines 105-125). *)
Definition doc_file (doc_key : json) : option string :=
  if equals_str doc_key "OpsSpecs"
  then Some "Opspecs Brook BHSBEXBHT -BOB - 27-04-2025.pdf"
  else if equals_str doc_key "AOC" then Some "AOC 23-24.pdf"
  else if equals_str doc_key "OM-A" then Some "OMA - REV 05.docx"
  else if equals_str doc_key "OM-B" then Some "OMB - REV 05.docx"
  else if equals_str doc_key "OM-C" then Some "OMC  - REV 05.docx"
  else if equals_str doc_key "OM-D" then Some "OMD - REV 05.docx"
  else if equals_str doc_key "MEL"
  then Some "BROOK S-76 MEL 4X-BHS,BHP,BHT,BEX,BOB,BOA, BOI S76C++ Rev 6 (1 Aug 2025).docx"
  else if equals_str doc_key "MCM" then Some "BROOK MCM REV 4 - 1 Aug 2025.docx"
  else if equals_str doc_key "SMS" then Some "mod_Brook SMS Manual rev 0.docx"
  else if equals_str doc_key "ERP" then Some "ERP Draft - Final (1) (1).docx"
  else None.

(** The text stored under [doc_key] (lines 127-131); a list or a dict
    cannot be a key of [doc_texts]. *)
Definition doc_text (fs : file_system) (doc_key : json) : result string :=
  let text :=
    match doc_file doc_key with
    | Some file =>
        match fs file with
        | Some _ => load_text_from_doc fs file
        | None => ""
        end
    | None => ""
    end in
  match doc_key with
  | JList _ | JDict _ => Raise TypeError
  | _ => Ok text
  end.

End DebugLoader.


(** * Statements: vocabulary and inputs

    The predicates and functions in which the theorems are stated, the
    claims of the specification that the code refutes, worded as it words
    them, and the rules and texts of the scenarios. *)

(** ** Evidence *)

(** The rule has no legacy checks. *)
Definition semantic_path (rule : dict) : Prop :=
  truthy (get rule "checks" (JList [])) = false.

(** The snippet of a match. *)
Definition snip (doc_text : string) (m : Re.Match) : string :=
  snippet doc_text (Re.m_start m) (Re.m_end m).

(** A positive match is suppressed when the negative pattern occurs in the
    window around it. *)
Definition suppressed (st : Settings) (doc_text : string) (m : Re.Match) : bool :=
  window_has_negative doc_text m (neg_re st) (char_window st).

Definition positive_matches (st : Settings) (doc_text : string) : list Re.Match :=
  find_all (pos_re st) doc_text.

Definition clean_matches (st : Settings) (doc_text : string) : list Re.Match :=
  filter (fun m => negb (suppressed st doc_text m)) (positive_matches st doc_text).

Definition suppressed_matches (st : Settings) (doc_text : string) : list Re.Match :=
  filter (suppressed st doc_text) (positive_matches st doc_text).

(** The count of clean positive hits. *)
Definition clean_hits (st : Settings) (doc_text : string) : Z :=
  Z.of_nat (List.length (clean_matches st doc_text)).

(** The first non-empty text among [l], unless [acc] is one already. *)
Definition first_nonempty (acc : string) (l : list string) : string :=
  fold_left (fun fp g => if String.eqb fp "" then g else fp) l acc.

(** The evidence after the positive scan and the alignment check, when no
    forbidden claim was found. *)
Definition evidence (st : Settings) (doc_text : string) (extras : list string)
  : Evidence :=
  {| pos_hits := clean_hits st doc_text;
     matched_positive_snips := map (snip doc_text) (clean_matches st doc_text);
     matched_forbidden_snips :=
       map (snip doc_text) (suppressed_matches st doc_text) ++ extras;
     first_pattern :=
       first_nonempty "" (map (Re.group0 doc_text) (clean_matches st doc_text)) |}.

(** ** Facts and the alignment check *)

(** [v] is absent, empty, or the list of the strings [l]. *)
Definition string_list (v : json) (l : list string) : Prop :=
  py_or v (JList []) = JList (map JStr l).

(** Facts as the data model has them: a dict whose ["registrations"] and
    ["area"], when present, are lists of strings. *)
Definition well_formed_facts (of_ : json) (regs area : list string) : Prop :=
  exists d, of_ = JDict d
            /\ string_list (get d "registrations" JNull) regs
            /\ string_list (get d "area" JNull) area.

(** The expected registrations that the text does not mention. *)
Definition missing_registrations (regs : list string) (doc_text : string)
  : list string :=
  filter (fun r => negb (mentions doc_text r)) regs.

(** The registration-shaped codes of the text whose uppercase form is not
    an expected registration. *)
Definition extra_registrations (regs : list string) (doc_text : string)
  : list string :=
  filter (fun r => negb (member (upper r) (map upper regs)))
         (sorted_set (Re.findall registration_shape doc_text)).

(** The missing-notes of the alignment check. *)
Definition alignment_notes (regs area : list string) (doc_text : string)
  : list string :=
  (if nonempty (missing_registrations regs doc_text)
   then [("Missing registrations in manuals: "
          ++ join ", " (missing_registrations regs doc_text))%string]
   else [])
  ++ (if nonempty area && negb (existsb (mentions doc_text) (map upper area))
      then ["Area from OpsSpecs not clearly stated in manuals"]
      else []).

(** The conflict snippets of the alignment check. *)
Definition alignment_extras (regs : list string) (doc_text : string)
  : list string :=
  if nonempty regs
  then map (fun x => ("Extra reg in manuals: " ++ x)%string)
           (extra_registrations regs doc_text)
  else [].

(** The alignment branch leaves the decision to the final step: it is not
    taken, or it collects neither an extra registration nor a suppressed
    positive match. *)
Definition alignment_silent (st : Settings) (rule_facts ops_facts : json)
           (doc_text : string) : Prop :=
  aligned st rule_facts ops_facts = false
  \/ exists regs area,
       well_formed_facts (selected_facts rule_facts ops_facts) regs area
       /\ alignment_extras regs doc_text = []
       /\ suppressed_matches st doc_text = [].

(** The alignment branch is not taken, or it runs on well-formed facts. *)
Definition alignment_returns (st : Settings) (rule_facts ops_facts : json) : Prop :=
  aligned st rule_facts ops_facts = false
  \/ exists regs area,
       well_formed_facts (selected_facts rule_facts ops_facts) regs area.

(** ** Outcomes, by the return statement that builds them *)

(** Lines 193-200. *)
Definition forbidden_conflict (forbidden : list string) : Outcome :=
  {| decision := CONFLICT;
     matched_positive := [];
     matched_forbidden := forbidden;
     matched_pattern := "";
     confidence := 0.95;
     notes := "Forbidden claim(s) present" |}.

(** Lines 238-245. *)
Definition alignment_conflict (ev : Evidence) (notes : list string) : Outcome :=
  {| decision := CONFLICT;
     matched_positive := matched_positive_snips ev;
     matched_forbidden := matched_forbidden_snips ev;
     matched_pattern := first_pattern ev;
     confidence := 0.9;
     notes := if nonempty notes then join "; " notes else "Conflict with ops_facts" |}.

(** Lines 247-254. *)
Definition alignment_missing (ev : Evidence) (notes : list string) : Outcome :=
  {| decision := MISSING;
     matched_positive := matched_positive_snips ev;
     matched_forbidden := [];
     matched_pattern := first_pattern ev;
     confidence := 0.2;
     notes := join "; " notes |}.

(** Lines 258-265. *)
Definition found (st : Settings) (ev : Evidence) : Outcome :=
  {| decision := FOUND;
     matched_positive := matched_positive_snips ev;
     matched_forbidden := [];
     matched_pattern := first_pattern ev;
     confidence := Qmin 1 (0.6 + 0.2 * inject_Z (pos_hits ev - threshold st));
     notes := "" |}.

(** The outcome of the final step when the confidence can be computed
    (lines 256-282). *)
Definition decided (st : Settings) (ev : Evidence) : Outcome :=
  if (threshold st <=? pos_hits ev)%Z
  then found st ev
  else if nonempty (matched_positive_snips ev) && nonempty (matched_forbidden_snips ev)
  then {| decision := REVIEW;
          matched_positive := matched_positive_snips ev;
          matched_forbidden := matched_forbidden_snips ev;
          matched_pattern := first_pattern ev;
          confidence := 0.5;
          notes := "Positive evidence appears near negations/contradictions" |}
  else {| decision := MISSING;
          matched_positive := [];
          matched_forbidden := [];
          matched_pattern := first_pattern ev;
          confidence := 0;
          notes := "" |}.

(** The final step cannot compute the confidence: the rule is FOUND with a
    surplus of hits beyond the float range. *)
Definition overflows (st : Settings) (ev : Evidence) : bool :=
  (threshold st <=? pos_hits ev)%Z
  && (float_limit <=? counted (pos_hits ev) - threshold st)%Z.

(** Lines 275-282, when no clean match set [first_pattern]. *)
Definition missing_outcome : Outcome :=
  {| decision := MISSING;
     matched_positive := [];
     matched_forbidden := [];
     matched_pattern := "";
     confidence := 0;
     notes := "" |}.

(** ** Rule types, legacy checks, exceptions *)

(** The four rule types that the forbidden-claim guard lists. *)
Definition listed_rule_type (v : json) : Prop :=
  v = JStr "deny" \/ v = JStr "limit"
  \/ v = JStr "align_with_opspecs" \/ v = JStr "affirm".

(** A pattern hits when it is not empty and its lowercase form occurs in
    the lowercase text. *)
Definition hit (doc_text : string) (pat : string) : bool :=
  negb (String.eqb pat "") && contains (lower pat) (lower doc_text).

(** A legacy check of type "contains_any" with the patterns [pats]. *)
Definition contains_any_check (chk : json) (pats : list string) : Prop :=
  exists d, chk = JDict d
            /\ get d "type" JNull = JStr "contains_any"
            /\ string_list (get d "patterns" JNull) pats.

(** A legacy check that cannot hit: it has another type, or none of its
    patterns occurs in the text. *)
Definition idle_check (doc_text : string) (chk : json) : Prop :=
  exists d, chk = JDict d
            /\ (equals_str (get d "type" JNull) "contains_any" = false
                \/ exists pats,
                     string_list (get d "patterns" JNull) pats
                     /\ Forall (fun p => hit doc_text p = false) pats).

(** A legacy check as the data model has it: a dict whose patterns, for the
    type contains_any, are a list of strings. *)
Definition well_formed_check (chk : json) : Prop :=
  exists d, chk = JDict d
            /\ (equals_str (get d "type" JNull) "contains_any" = false
                \/ exists pats, string_list (get d "patterns" JNull) pats).

(** The class of an exception, as Python names it. *)
Definition class_name (e : exn) : string :=
  match e with
  | re_error _ _ => "re.error"
  | TypeError => "TypeError"
  | ValueError => "ValueError"
  | AttributeError => "AttributeError"
  | OverflowError => "OverflowError"
  | Unsupported _ => "(pattern outside the embedded syntax)"
  end.

(** ** The matcher *)

(** A body of a repeat moves forward and stays in the text. *)
Definition forward (text : list ascii) (body : nat -> list nat) : Prop :=
  forall i j, In j (body i) -> i <= j /\ (i <= List.length text -> j <= List.length text).

(** The characters of [re.escape(s)], and the pattern they are read as. *)
Definition escape_chars (cs : list ascii) : list ascii :=
  flat_map (fun c => if Re.special c then ["\"%char; c] else [c]) cs.

Definition literals (cs : list ascii) : Re.regex :=
  fold_right (fun c r => Re.cat (Re.Literal c) r) Re.Empty cs.

(** ** Claims that the code refutes, as the specification words them *)

(** C2: at or above the threshold the decision is FOUND for every semantic
    rule without a forbidden match. *)
Definition threshold_alone_decides (rule : dict) (doc_text : string)
           (ops_facts : json) : Prop :=
  semantic_path rule ->
  forall st, read_settings rule = Ok st ->
  (1 <= threshold st)%Z ->
  find_all (forbid_re st) doc_text = [] ->
  (threshold st <= clean_hits st doc_text)%Z ->
  exists o, evaluate_rule_semantic rule doc_text ops_facts = Ok o
            /\ decision o = FOUND.

(** C6: the empty text is decided MISSING with confidence 0. *)
Definition empty_text_missing_zero (rule : dict) (ops_facts : json) : Prop :=
  exists o, evaluate_rule_semantic rule "" ops_facts = Ok o
            /\ decision o = MISSING
            /\ confidence o == 0.

(** C7: evaluation of a malformed rule stops with one of the two typed
    errors. *)
Definition rejected_with_typed_error (rule : dict) (doc_text : string)
           (ops_facts : json) : Prop :=
  exists e, evaluate_rule_semantic rule doc_text ops_facts = Raise e
            /\ (class_name e = "PatternCompileError"
                \/ class_name e = "RuleShapeError").

(** C10: a threshold of 0 or less decides FOUND for every semantic rule
    without a forbidden match. *)
Definition nonpositive_threshold_always_found (rule : dict) (doc_text : string)
           (ops_facts : json) : Prop :=
  semantic_path rule ->
  forall st, read_settings rule = Ok st ->
  (threshold st <= 0)%Z ->
  find_all (forbid_re st) doc_text = [] ->
  exists o, evaluate_rule_semantic rule doc_text ops_facts = Ok o
            /\ decision o = FOUND.

(** ** Rules and texts of the scenarios *)

(** The rule of the scenarios of the specification. *)
Definition fuel_rule : dict :=
  [("rule_type", JStr "affirm");
   ("positive_patterns", JList [JStr "fuel reserve"]);
   ("threshold", JInt 1)].

Definition fuel_text : string := "The fuel reserve requirement is 30 minutes.".

(** The same rule with its negation pattern and a window of 3 tokens. *)
Definition negated_fuel_rule : dict :=
  [("rule_type", JStr "affirm");
   ("positive_patterns", JList [JStr "fuel reserve"]);
   ("threshold", JInt 1);
   ("negative_patterns", JList [JStr "no\s+fuel"]);
   ("negation_window_tokens", JInt 3)].

Definition negated_fuel_text : string := "There is no fuel reserve requirement.".

(** A forbidden claim and a positive pattern, under a rule type that the
    guard does not list and under one that it lists. *)
Definition advisory_rule : dict :=
  [("rule_type", JStr "advisory");
   ("forbidden_claims", JList [JStr "VFR only"]);
   ("positive_patterns", JList [JStr "fuel reserve"])].

Definition deny_rule : dict :=
  [("rule_type", JStr "deny");
   ("forbidden_claims", JList [JStr "VFR only"]);
   ("positive_patterns", JList [JStr "fuel reserve"])].

Definition advisory_text : string := "VFR only. The fuel reserve is 30 minutes.".

(** Alignment rules with the registrations of the specification's
    scenario: alone, with a positive pattern, with threshold 0, and with a
    negation pattern. *)
Definition registration_rule : dict :=
  [("rule_type", JStr "align_with_opspecs");
   ("ops_facts", JDict [("registrations", JList [JStr "4X-BHS"])])].

Definition fleet_rule : dict :=
  [("rule_type", JStr "align_with_opspecs");
   ("positive_patterns", JList [JStr "fuel reserve"]);
   ("threshold", JInt 1);
   ("ops_facts", JDict [("registrations", JList [JStr "4X-BHS"])])].

Definition lenient_fleet_rule : dict :=
  [("rule_type", JStr "align_with_opspecs");
   ("threshold", JInt 0);
   ("ops_facts", JDict [("registrations", JList [JStr "4X-BHS"])])].

Definition contradicted_fleet_rule : dict :=
  [("rule_type", JStr "align_with_opspecs");
   ("positive_patterns", JList [JStr "fuel reserve"]);
   ("negative_patterns", JList [JStr "no\s+fuel"]);
   ("negation_window_tokens", JInt 3);
   ("threshold", JInt 1);
   ("ops_facts", JDict [("registrations", JList [JStr "4X-BHS"])])].

Definition fleet_text : string :=
  "The fuel reserve applies to 4X-BHS and 4X-ZZZ.".

(** A rule that sets nothing but a negative threshold. *)
Definition lenient_rule : dict := [("threshold", JInt (-2))].

(** A threshold whose distance to 0 no float holds. *)
Definition overflowing_rule : dict := [("threshold", JInt (- 2 ^ 1024))].

(** Legacy rules: one whose other fields are malformed, one whose other
    fields would decide otherwise. *)
Definition legacy_checks : list json :=
  [JDict [("type", JStr "contains_any");
          ("patterns", JList [JStr ""; JStr "Night VFR"; JStr "fuel"])]].

Definition legacy_rule : dict :=
  [("id", JStr "R-1");
   ("checks", JList legacy_checks);
   ("positive_patterns", JList [JStr "("]);
   ("threshold", JStr "many")].

Definition legacy_text : string := "Fuel policy: night vfr is not approved.".

Definition overridden_rule : dict :=
  [("checks",
    JList [JDict [("type", JStr "regex"); ("patterns", JList [JStr "fuel"])];
           JDict [("type", JStr "contains_any");
                  ("patterns", JList [JStr "night VFR"])]]);
   ("rule_type", JStr "align_with_opspecs");
   ("positive_patterns", JList [JStr "fuel reserve"]);
   ("forbidden_claims", JList [JStr "fuel"]);
   ("threshold", JInt 0);
   ("ops_facts", JDict [("registrations", JList [JStr "4X-BHS"])])].

(** Malformed rules: a pattern with an unclosed parenthesis, under two
    ids; a string for the pattern list and a string for the threshold. *)
Definition unbalanced_rule : dict :=
  [("id", JStr "R-7");
   ("positive_patterns", JList [JStr "fuel"; JStr "(reserve"])].

Definition renamed_unbalanced_rule : dict :=
  [("id", JStr "R-70");
   ("positive_patterns", JList [JStr "fuel"; JStr "(reserve"])].

Definition misshapen_rule : dict :=
  [("id", JStr "R-8");
   ("positive_patterns", JStr "fuel");
   ("threshold", JStr "2")].

(** ** Matches *)

(** The matches follow one another from [pos] on, without overlap. *)
Fixpoint in_order (pos : nat) (ms : list Re.Match) : Prop :=
  match ms with
  | [] => True
  | m :: ms' =>
      pos <= Re.m_start m /\ Re.m_start m <= Re.m_end m
      /\ in_order (Re.m_end m) ms'
  end.

(** ** Snippets *)

(** No whitespace at the front of [l]. *)
Definition starts_clean (l : list ascii) : Prop :=
  match l with
  | [] => True
  | c :: _ => is_space c = false
  end.

(** No whitespace at either end of [s]. *)
Definition trimmed (s : string) : Prop :=
  starts_clean (chars s) /\ starts_clean (rev (chars s)).

(** ** The evidence of the semantic path *)

(** The evidence when the final decision is taken: [forbidden] are the
    snippets of the forbidden claims (kept when the rule type is not one
    that the guard lists), [extras] the snippets of the alignment check. *)
Definition collected (st : Settings) (doc_text : string)
           (forbidden extras : list string) : Evidence :=
  {| pos_hits := clean_hits st doc_text;
     matched_positive_snips := map (snip doc_text) (clean_matches st doc_text);
     matched_forbidden_snips :=
       (forbidden ++ map (snip doc_text) (suppressed_matches st doc_text))
       ++ extras;
     first_pattern :=
       first_nonempty "" (map (Re.group0 doc_text) (clean_matches st doc_text)) |}.

(** A rule with threshold 2 and a text with one clean and one negated
    match. *)
Definition strict_fuel_rule : dict :=
  [("positive_patterns", JList [JStr "fuel reserve"]);
   ("negative_patterns", JList [JStr "no\s+fuel"]);
   ("negation_window_tokens", JInt 1);
   ("threshold", JInt 2)].

Definition mixed_fuel_text : string :=
  "The fuel reserve is 30 minutes. On short sectors and in daylight there is no fuel reserve.".

(** ** Rules with absent keys *)

(** The value that the evaluator takes for each key that a rule lacks. *)
Definition defaults : dict :=
  [("checks", JList []);
   ("rule_type", JStr "affirm");
   ("positive_patterns", JList []);
   ("negative_patterns", JList []);
   ("forbidden_claims", JList []);
   ("threshold", JInt 1);
   ("negation_window_tokens", JInt 12);
   ("ops_facts", JNull)].

(** The pattern is not the empty string. *)
Definition not_empty (p : string) : bool := negb (String.eqb p "").

(** A rule whose only pattern is empty, and a rule with a negative
    window. *)
Definition blank_rule : dict := [("positive_patterns", JList [JStr ""])].

Definition narrow_rule : dict :=
  [("positive_patterns", JList [JStr "no fuel reserve"; JStr "fuel"]);
   ("negative_patterns", JList [JStr "no"]);
   ("negation_window_tokens", JInt (-3))].

(** ** The matched pattern of the semantic path *)

(** The text of the first clean positive match that is not empty. *)
Definition first_clean_text (st : Settings) (doc_text : string) : string :=
  match find not_empty (map (Re.group0 doc_text) (clean_matches st doc_text)) with
  | Some g => g
  | None => ""
  end.

(** ** Reports *)

(** A check whose patterns, when it has any, are a list of strings. *)
Definition listed_check (chk : json) (pats : list string) : Prop :=
  exists d, chk = JDict d
            /\ get d "patterns" (JList []) = JList (map JStr pats).

(** A rules file with two rules, and the texts of a run. *)
Definition sample_rules : json :=
  JDict [("rules", JList [JDict (("id", JStr "R-7") :: fuel_rule);
                          JDict (("id", JStr "R-8")
                                 :: ("source_docs", JList [JStr "OM-A"; JStr "OM-B"])
                                 :: deny_rule)])].

Definition sample_cache : text_cache :=
  [("OpsSpecs", fuel_text);
   ("OM-A", "Flights are VFR only.");
   ("OM-B", "The fuel reserve is 30 minutes.")].

(** The rows whose result is neither FOUND nor MISSING. *)
Definition set_aside (row : ReportRow) : bool :=
  Analyze.has_result CONFLICT row || Analyze.has_result REVIEW row.

(** ** Sentences *)

(** The characters of [l] that are not whitespace. *)
Definition visible (l : list ascii) : list ascii :=
  filter (fun c => negb (is_space c)) l.

(** The characters of [text] from [a] to [b]. *)
Definition piece (text : list ascii) (span : nat * nat) : list ascii :=
  firstn (snd span - fst span) (skipn (fst span) text).

(** ** Documents *)

(** [DOC_FILES.get(k)]. *)
Fixpoint file_of (files : list (string * string)) (k : string) : option string :=
  match files with
  | [] => None
  | (k', file) :: files' => if String.eqb k' k then Some file else file_of files' k
  end.

(** A file system with one manual of three paragraphs. *)
Definition sample_files : file_system :=
  fun path =>
    if String.eqb path "OMA - REV 05.docx"
    then Some {| paragraphs := Ok ["  1. General "; "   "; "Fuel policy"];
                 pages := Raise ValueError;
                 read_text := Raise ValueError |}
    else None.

(** ** Rules that differ in their threshold *)

Definition with_threshold (st : Settings) (t : Z) : Settings :=
  {| rule_type := rule_type st;
     pos_re := pos_re st;
     neg_re := neg_re st;
     forbid_re := forbid_re st;
     threshold := t;
     char_window := char_window st |}.

(** The rule [rule] with the threshold [t]. *)
Definition set_threshold (t : Z) (rule : dict) : dict :=
  ("threshold", JInt t) :: rule.

(** ** Rules without their negative patterns *)

Definition without_negation (st : Settings) : Settings :=
  {| rule_type := rule_type st;
     pos_re := pos_re st;
     neg_re := None;
     forbid_re := forbid_re st;
     threshold := threshold st;
     char_window := char_window st |}.

(** The rule [rule] with an empty list of negative patterns. *)
Definition drop_negation (rule : dict) : dict :=
  ("negative_patterns", JList []) :: rule.

(** The document of a key has no text: the key is not mapped, or its file
    does not exist. *)
Definition no_document (fs : file_system) (k : string) : Prop :=
  match file_of DOC_FILES k with
  | Some file => fs file = None
  | None => True
  end.

(** ** Sets and list objects *)

(** [order] iterates sets: the items of [set(l)] are those of [l], each
    once. *)
Definition enumerates (order : list string -> list string) : Prop :=
  forall l, NoDup (order l) /\ forall x, In x (order l) <-> In x l.

Definition precedes (x y : string) : Prop := String.compare x y = Lt.

(** Every item precedes the next ones. *)
Fixpoint ascending (l : list string) : Prop :=
  match l with
  | [] => True
  | x :: l' => (forall y, In y l' -> precedes x y) /\ ascending l'
  end.

(** The lists of a returned dict are objects of the heap. *)
Definition in_heap (h : Stored.heap) (r : result Stored.Dict) : Prop :=
  match r with
  | Ok d =>
      Stored.d_matched_positive d < List.length h
      /\ Stored.d_matched_forbidden d < List.length h
  | Raise _ => True
  end.

(** The two blocks of the alignment check, as functions. *)
Definition registrations_check (regs : json) (doc_text : string)
  : result (list string * list string) :=
  if truthy regs
  then rs <- iterate regs ;;
       names <- mapM expect_str rs ;;
       let missing := filter (fun r => negb (mentions doc_text r)) names in
       let notes1 :=
         if nonempty missing
         then [("Missing registrations in manuals: " ++ join ", " missing)%string]
         else [] in
       let all_regs_found := Re.findall registration_shape doc_text in
       let extras :=
         filter (fun r => negb (member (upper r) (map upper names)))
                (sorted_set all_regs_found) in
       Ok (notes1, map (fun x => ("Extra reg in manuals: " ++ x)%string) extras)
  else Ok ([], []).

Definition area_check (av : json) (doc_text : string) : result (list string) :=
  if truthy av
  then xs <- iterate av ;;
       desired <- mapM method_upper xs ;;
       Ok (if negb (existsb (mentions doc_text) desired)
           then ["Area from OpsSpecs not clearly stated in manuals"]
           else [])
  else Ok [].

(** ** Tactics *)

(** Case analysis on a character, keeping the cases that [H] allows. *)
Ltac each_char c H :=
  destruct c as [[] [] [] [] [] [] [] []]; cbv in H; try discriminate H; clear H.

(** Replace the settings [st] of [R : read_settings rule = Ok st] by their
    value. *)
Ltac settle_settings R :=
  vm_compute in R; injection R as <-.

(** * Properties *)

(** ** The matcher never runs out of fuel

    The loops of the matcher are written with a counter that bounds their
    length.  The bounds chosen in [Re.ends] and [Re.finditer] are never
    reached: any larger counter gives the same matches. *)

Section Adequacy.
Variable fl : Re.flags.
Variable text : list ascii.

Lemma one_forward (p : ascii -> bool) : forward text (Re.one text p).
Proof.
  intros i j. unfold Re.one.
  destruct (nth_error text i) as [x|] eqn:E; [|contradiction].
  assert (i < List.length text) by (apply nth_error_Some; congruence).
  destruct (p x); [|contradiction].
  intros [<-|[]]. lia.
Qed.

Lemma guard_forward (b : bool) : forward text (fun i => if b then [i] else []).
Proof. intros i j. destruct b; [|contradiction]. intros [<-|[]]. lia. Qed.

Lemma until_forward (body : nat -> list nat) (lo : nat) (hi : option nat) :
  forward text body ->
  forall fuel count, forward text (Re.until body lo hi fuel count).
Proof.
  intros B. induction fuel as [|fuel IH]; intros count i j; [contradiction|].
  cbn [Re.until].
  destruct (count <? lo).
  - rewrite in_flat_map. intros (k & K & J).
    apply B in K. apply IH in J. lia.
  - rewrite in_app_iff. intros [J|[<-|[]]]; [|lia].
    destruct (match hi with Some h => count <? h | None => true end);
      [|contradiction].
    rewrite in_flat_map in J. destruct J as (k & K & J).
    apply B in K.
    destruct (k =? i); [destruct J as [<-|[]]; lia|].
    apply IH in J. lia.
Qed.

Lemma ends_forward (r : Re.regex) : forward text (Re.ends fl text r).
Proof.
  induction r as [| c | | negated items | | | negated | r1 IH1 r2 IH2
                  | r1 IH1 r2 IH2 | lo hi r IH | r IH]; cbn [Re.ends].
  - intros i j [<-|[]]. lia.
  - apply one_forward.
  - apply one_forward.
  - apply one_forward.
  - intros i. apply (guard_forward (Re.at_beginning fl text i) i).
  - intros i. apply (guard_forward (Re.at_end fl text i) i).
  - intros i j H.
    assert (G : In j (if xorb negated
                           (xorb (Re.word_before text i) (Re.word_at text i))
                      then [i] else []))
      by (destruct text; [contradiction|exact H]).
    apply (guard_forward _ i j G).
  - intros i j. rewrite in_flat_map. intros (k & K & J).
    apply IH1 in K. apply IH2 in J. lia.
  - intros i j. rewrite in_app_iff. intros [J|J]; [apply IH1 in J|apply IH2 in J]; lia.
  - intros i. apply until_forward. exact IH.
  - exact IH.
Qed.

Lemma flat_map_agree {A B : Type} (f g : A -> list B) (l : list A) :
  (forall x, In x l -> f x = g x) -> flat_map f l = flat_map g l.
Proof.
  induction l as [|x l IH]; intros H; [reflexivity|].
  cbn [flat_map]. rewrite (H x (or_introl eq_refl)), IH; [reflexivity|].
  intros y I. apply H. right. exact I.
Qed.

(** Beyond [(lo - count) + (length text - i)] the counter of a repeat has
    no effect. *)
Lemma until_fuel (body : nat -> list nat) (lo : nat) (hi : option nat) :
  forward text body ->
  forall fuel fuel' count i,
    i <= List.length text ->
    (lo - count) + (List.length text - i) < fuel ->
    (lo - count) + (List.length text - i) < fuel' ->
    Re.until body lo hi fuel count i = Re.until body lo hi fuel' count i.
Proof.
  intros B. induction fuel as [|fuel IH]; intros fuel' count i L F F'; [lia|].
  destruct fuel' as [|fuel']; [lia|].
  cbn [Re.until].
  destruct (count <? lo) eqn:C.
  - apply Nat.ltb_lt in C. apply flat_map_agree. intros k K.
    apply B in K. apply IH; lia.
  - f_equal.
    destruct (match hi with Some h => count <? h | None => true end);
      [|reflexivity].
    apply flat_map_agree. intros k K. apply B in K.
    destruct (k =? i) eqn:E; [reflexivity|].
    apply Nat.eqb_neq in E. apply IH; lia.
Qed.

(** The counter that [Re.ends] gives to a repeat is large enough. *)
Lemma repeat_fuel (lo : nat) (hi : option nat) (r : Re.regex) (i fuel : nat) :
  i <= List.length text ->
  lo + (List.length text - i) < fuel ->
  Re.ends fl text (Re.Repeat lo hi r) i
  = Re.until (Re.ends fl text r) lo hi fuel 0 i.
Proof.
  intros L F. cbn [Re.ends].
  apply until_fuel; [apply ends_forward|exact L|lia|lia].
Qed.

Lemma search_at_found (r : Re.regex) (reject : nat -> bool) (k i s e : nat) :
  Re.search_at fl text r reject k i = Some (s, e) ->
  i <= s /\ s < i + k /\ s <= e /\ reject e = false
  /\ (s <= List.length text -> e <= List.length text).
Proof.
  revert i. induction k as [|k IH]; intros i; [discriminate|].
  cbn [Re.search_at].
  destruct (find _ (Re.ends fl text r i)) as [e'|] eqn:F.
  - intros H. injection H as <- <-.
    apply find_some in F. destruct F as [I R].
    apply ends_forward in I.
    apply negb_true_iff in R. repeat split; try lia. exact R.
  - intros H. apply IH in H. destruct H as (H1 & H2 & H3 & H4 & H5).
    repeat split; try lia. exact H4.
Qed.

(** Beyond [2 * (length text - pos) + 1] (one less after an empty match)
    the counter of the scanner has no effect. *)
Lemma scan_fuel (r : Re.regex) :
  forall fuel fuel' pos must_advance,
    pos <= List.length text ->
    2 * (List.length text - pos) + (if must_advance : bool then 0 else 1) < fuel ->
    2 * (List.length text - pos) + (if must_advance : bool then 0 else 1) < fuel' ->
    Re.scan fl text r fuel pos must_advance
    = Re.scan fl text r fuel' pos must_advance.
Proof.
  induction fuel as [|fuel IH]; intros fuel' pos ma L F F'; [lia|].
  destruct fuel' as [|fuel']; [lia|].
  cbn [Re.scan].
  destruct (Re.search_at fl text r _ _ pos) as [[s e]|] eqn:S; [|reflexivity].
  f_equal. apply search_at_found in S.
  destruct S as (S1 & S2 & S3 & S4 & S5).
  assert (e <= List.length text) by lia.
  destruct (e =? s) eqn:E.
  - apply Nat.eqb_eq in E. subst e.
    destruct ma; cbn [andb] in S4.
    + apply Nat.eqb_neq in S4. apply IH; lia.
    + apply IH; lia.
  - apply Nat.eqb_neq in E. apply IH; lia.
Qed.

End Adequacy.

Lemma length_chars (s : string) : List.length (chars s) = String.length s.
Proof.
  unfold chars. induction s as [|c s IH]; [reflexivity|].
  cbn. rewrite IH. reflexivity.
Qed.

(** [finditer] is the scanner run to its end. *)
Lemma finditer_fuel (p : Re.Pattern) (s : string) (fuel : nat) :
  2 * String.length s + 1 < fuel ->
  Re.finditer p s
  = Re.scan (Re.pattern_flags p) (chars s) (Re.pattern_regex p) fuel 0 false.
Proof.
  intros F. unfold Re.finditer.
  apply scan_fuel; rewrite ?length_chars; lia.
Qed.

(** ** The two fixed patterns of the alignment check *)

(** [registration_shape] is what the pattern of line 227 compiles to. *)
Lemma registration_shape_compiles :
  Re.compile "\b[0-9A-Z]{1,2}-[A-Z]{3}\b" search_flags = Ok registration_shape.
Proof. vm_compute. reflexivity. Qed.

(** [Re.escaped s] is what [re.escape(s)] compiles to. *)

Lemma quantifier_plain (c : ascii) (rest : list ascii) :
  Re.special c = false -> Re.quantifier (c :: rest) = Re.Parsed None.
Proof. intros H. each_char c H; reflexivity. Qed.

Lemma quantifier_escaped (cs : list ascii) :
  Re.quantifier (escape_chars cs) = Re.Parsed None.
Proof.
  destruct cs as [|c cs]; [reflexivity|].
  unfold escape_chars. cbn [flat_map].
  destruct (Re.special c) eqn:S; [reflexivity|].
  apply quantifier_plain. exact S.
Qed.

Lemma items_plain (c : ascii) (rest : list ascii) (fuel depth : nat)
      (first : bool) :
  Re.special c = false ->
  Re.quantifier rest = Re.Parsed None ->
  Re.items (S (S fuel)) depth first (c :: rest)
  = Re.and_then (Re.items (S fuel) depth false rest)
                (fun '(r, s) => Re.Parsed (Re.cat (Re.Literal c) r, s)).
Proof.
  intros H Q.
  each_char c H; cbn [Re.items Re.atom]; unfold Re.quantified;
    rewrite Q; reflexivity.
Qed.

Lemma items_special (c : ascii) (rest : list ascii) (fuel depth : nat)
      (first : bool) :
  Re.special c = true ->
  Re.quantifier rest = Re.Parsed None ->
  Re.items (S (S fuel)) depth first ("\"%char :: c :: rest)
  = Re.and_then (Re.items (S fuel) depth false rest)
                (fun '(r, s) => Re.Parsed (Re.cat (Re.Literal c) r, s)).
Proof.
  intros H Q.
  each_char c H; cbn [Re.items Re.atom Re.category_escape Re.char_escape];
    unfold Re.quantified; rewrite Q; reflexivity.
Qed.

Lemma items_escaped (cs : list ascii) (fuel depth : nat) (first : bool) :
  List.length cs < fuel ->
  Re.items (S fuel) depth first (escape_chars cs) = Re.Parsed (literals cs, []).
Proof.
  revert fuel first. induction cs as [|c cs IH]; intros fuel first F;
    [reflexivity|].
  destruct fuel as [|fuel]; [cbn in F; lia|].
  unfold escape_chars. cbn [flat_map].
  fold (escape_chars cs).
  destruct (Re.special c) eqn:S; cbn [app].
  - rewrite (items_special c _ fuel depth first S (quantifier_escaped cs)).
    rewrite IH by (cbn in F; lia). reflexivity.
  - rewrite (items_plain c _ fuel depth first S (quantifier_escaped cs)).
    rewrite IH by (cbn in F; lia). reflexivity.
Qed.

Lemma length_escape_chars (cs : list ascii) :
  List.length cs <= List.length (escape_chars cs).
Proof.
  induction cs as [|c cs IH]; [apply Nat.le_refl|].
  unfold escape_chars. cbn [flat_map]. fold (escape_chars cs).
  rewrite length_app. destruct (Re.special c); cbn [List.length]; lia.
Qed.

Lemma chars_str (l : list ascii) : chars (str l) = l.
Proof. apply list_ascii_of_string_of_list_ascii. Qed.

Theorem escaped_compiles (s : string) (fl : Re.flags) :
  Re.compile (Re.escape s) fl = Ok (Re.escaped s fl).
Proof.
  unfold Re.compile, Re.parse, Re.escape.
  fold (escape_chars (chars s)). rewrite chars_str.
  pose proof (length_escape_chars (chars s)) as L.
  remember (4 * List.length (escape_chars (chars s)) + 4) as fuel eqn:F.
  destruct fuel as [|[|fuel]]; [lia|lia|].
  cbn [Re.alternatives].
  rewrite items_escaped by lia.
  reflexivity.
Qed.

Example escape_registration : Re.escape "4X-BHS" = "4X\-BHS".
Proof. reflexivity. Qed.

(** ** The Python operations on well-shaped values *)

Lemma mapM_expect_str (l : list string) : mapM expect_str (map JStr l) = Ok l.
Proof.
  induction l as [|x l IH]; simpl; [reflexivity|].
  rewrite IH. reflexivity.
Qed.

Lemma mapM_method_upper (l : list string) :
  mapM method_upper (map JStr l) = Ok (map upper l).
Proof.
  induction l as [|x l IH]; simpl; [reflexivity|].
  rewrite IH. reflexivity.
Qed.

Lemma truthy_string_list (l : list string) :
  truthy (JList (map JStr l)) = nonempty l.
Proof. destruct l; reflexivity. Qed.

Lemma nonempty_false {A : Type} (l : list A) : nonempty l = false <-> l = [].
Proof. destruct l; simpl; split; congruence. Qed.

Lemma nonempty_true {A : Type} (l : list A) : nonempty l = true <-> l <> [].
Proof. destruct l; simpl; split; congruence. Qed.

Lemma nonempty_app {A : Type} (l1 l2 : list A) :
  nonempty (l1 ++ l2) = nonempty l1 || nonempty l2.
Proof. destruct l1, l2; reflexivity. Qed.

Lemma nonempty_map {A B : Type} (f : A -> B) (l : list A) :
  nonempty (map f l) = nonempty l.
Proof. destruct l; reflexivity. Qed.

(** ** The positive scan *)

Section PositiveScan.
Variable st : Settings.
Variable doc_text : string.

(** The loop adds one hit and one positive snippet per clean match, and
    one contradiction snippet per suppressed match. *)
Lemma positive_loop (ms : list Re.Match) (ev : Evidence) :
  fold_left (positive_step doc_text (neg_re st) (char_window st)) ms ev =
  {| pos_hits :=
       pos_hits ev
       + Z.of_nat (List.length (filter (fun m => negb (suppressed st doc_text m)) ms));
     matched_positive_snips :=
       matched_positive_snips ev
       ++ map (snip doc_text) (filter (fun m => negb (suppressed st doc_text m)) ms);
     matched_forbidden_snips :=
       matched_forbidden_snips ev
       ++ map (snip doc_text) (filter (suppressed st doc_text) ms);
     first_pattern :=
       first_nonempty (first_pattern ev)
         (map (Re.group0 doc_text)
              (filter (fun m => negb (suppressed st doc_text m)) ms)) |}.
Proof.
  revert ev. induction ms as [|m ms IH]; intros ev.
  - destruct ev; simpl. rewrite Z.add_0_r, !app_nil_r. reflexivity.
  - simpl fold_left. rewrite IH. clear IH.
    unfold positive_step. simpl filter. fold (suppressed st doc_text m).
    destruct (suppressed st doc_text m); simpl;
      rewrite <- ?app_assoc; simpl; unfold snip; f_equal; lia.
Qed.

Lemma positive_scan_spec (forbidden : list string) :
  positive_scan st doc_text forbidden =
  {| pos_hits := clean_hits st doc_text;
     matched_positive_snips := map (snip doc_text) (clean_matches st doc_text);
     matched_forbidden_snips :=
       forbidden ++ map (snip doc_text) (suppressed_matches st doc_text);
     first_pattern :=
       first_nonempty "" (map (Re.group0 doc_text) (clean_matches st doc_text)) |}.
Proof.
  unfold positive_scan. rewrite positive_loop. reflexivity.
Qed.
End PositiveScan.

(** ** The alignment check on well-formed facts *)

Lemma string_list_cases (v : json) (l : list string) :
  string_list v l ->
  (truthy v = true /\ v = JList (map JStr l) /\ nonempty l = true)
  \/ (truthy v = false /\ l = []).
Proof.
  unfold string_list, py_or. destruct (truthy v) eqn:T; intros H.
  - left. subst v. rewrite truthy_string_list in T. auto.
  - right. split; [reflexivity|]. destruct l; [reflexivity|discriminate].
Qed.

Lemma check_alignment_spec (of_ : json) (regs area : list string) (doc_text : string) :
  well_formed_facts of_ regs area ->
  check_alignment of_ doc_text
  = Ok (alignment_notes regs area doc_text, alignment_extras regs doc_text).
Proof.
  intros (d & -> & Hr & Ha).
  unfold check_alignment, method_get, bind.
  unfold string_list in Hr. rewrite Hr, truthy_string_list.
  apply string_list_cases in Ha.
  unfold alignment_notes, alignment_extras.
  destruct regs as [|r regs].
  - cbn [nonempty map filter missing_registrations app].
    destruct Ha as [(T & E & N) | (T & E)]; rewrite T.
    + rewrite E. cbn [iterate]. rewrite mapM_method_upper, N. reflexivity.
    + subst area. reflexivity.
  - cbn [nonempty iterate]. rewrite mapM_expect_str.
    fold (missing_registrations (r :: regs) doc_text).
    fold (extra_registrations (r :: regs) doc_text).
    destruct Ha as [(T & E & N) | (T & E)]; rewrite T.
    + rewrite E. cbn [iterate]. rewrite mapM_method_upper, N. reflexivity.
    + subst area. cbn [nonempty andb]. reflexivity.
Qed.

(** ** The semantic path, branch by branch *)

Lemma forbidden_snips_nil (re : option Re.Pattern) (doc_text : string) :
  find_all re doc_text = [] -> forbidden_snips re doc_text = [].
Proof. unfold forbidden_snips. intros ->. reflexivity. Qed.

Lemma evaluate_on_semantic_path (rule : dict) (doc_text : string) (ops_facts : json)
      (st : Settings) :
  semantic_path rule ->
  read_settings rule = Ok st ->
  evaluate_rule_semantic rule doc_text ops_facts
  = evaluate_settings st (get rule "ops_facts" JNull) doc_text ops_facts.
Proof.
  unfold semantic_path, evaluate_rule_semantic. intros -> ->. reflexivity.
Qed.

Lemma read_settings_rule_type (rule : dict) (st : Settings) :
  read_settings rule = Ok st ->
  rule_type st = get rule "rule_type" (JStr "affirm").
Proof.
  unfold read_settings, bind. intros H.
  repeat match type of H with
         | match ?x with Ok _ => _ | Raise _ => _ end = _ =>
             destruct x; [|discriminate]
         end.
  injection H as <-. reflexivity.
Qed.

(** The final step raises [OverflowError] when the surplus is beyond the
    float range, and returns the decided outcome otherwise. *)
Lemma final_decision_spec (st : Settings) (ev : Evidence) :
  final_decision st ev
  = if overflows st ev then Raise OverflowError else Ok (decided st ev).
Proof.
  unfold final_decision, overflows, decided, surplus, found.
  destruct (threshold st <=? pos_hits ev)%Z; cbn [andb].
  - destruct (float_limit <=? counted (pos_hits ev) - threshold st)%Z; reflexivity.
  - destruct (nonempty _ && nonempty _); reflexivity.
Qed.

Lemma counted_in_range (n : Z) : (counted n < float_limit)%Z.
Proof.
  assert (ssize_max < float_limit)%Z by (vm_compute; reflexivity).
  unfold counted. lia.
Qed.

(** Only a negative threshold can take the surplus out of the range. *)
Lemma threshold_in_range (st : Settings) (ev : Evidence) :
  (0 <= threshold st)%Z -> overflows st ev = false.
Proof.
  intros T. unfold overflows. apply andb_false_iff. right.
  apply Z.leb_gt. pose proof (counted_in_range (pos_hits ev)). lia.
Qed.

Lemma below_threshold_in_range (st : Settings) (ev : Evidence) :
  (pos_hits ev < threshold st)%Z -> overflows st ev = false.
Proof.
  intros T. unfold overflows. apply andb_false_iff. left.
  apply Z.leb_gt. exact T.
Qed.

Lemma final_decision_in_range (st : Settings) (ev : Evidence) :
  overflows st ev = false -> final_decision st ev = Ok (decided st ev).
Proof. intros H. rewrite final_decision_spec, H. reflexivity. Qed.

Lemma final_decision_ok (st : Settings) (ev : Evidence) (o : Outcome) :
  final_decision st ev = Ok o -> overflows st ev = false /\ o = decided st ev.
Proof.
  rewrite final_decision_spec. destruct (overflows st ev); [discriminate|].
  intros H. injection H as <-. split; reflexivity.
Qed.

Section SemanticBranches.
Variable st : Settings.
Variable rule_facts ops_facts : json.
Variable doc_text : string.
Hypothesis no_forbidden : find_all (forbid_re st) doc_text = [].

Lemma semantic_unaligned :
  aligned st rule_facts ops_facts = false ->
  evaluate_settings st rule_facts doc_text ops_facts
  = final_decision st (evidence st doc_text []).
Proof.
  intros A. unfold evaluate_settings.
  rewrite (forbidden_snips_nil _ _ no_forbidden). cbn [nonempty bind].
  rewrite A, positive_scan_spec. unfold evidence.
  rewrite app_nil_r. reflexivity.
Qed.

Lemma semantic_aligned (regs area : list string) :
  aligned st rule_facts ops_facts = true ->
  well_formed_facts (selected_facts rule_facts ops_facts) regs area ->
  let ev := evidence st doc_text (alignment_extras regs doc_text) in
  let notes := alignment_notes regs area doc_text in
  evaluate_settings st rule_facts doc_text ops_facts
  = if nonempty (matched_forbidden_snips ev)
    then Ok (alignment_conflict ev notes)
    else if nonempty notes && (pos_hits ev <? threshold st)%Z
         then Ok (alignment_missing ev notes)
         else final_decision st ev.
Proof.
  intros A W. unfold evaluate_settings.
  rewrite (forbidden_snips_nil _ _ no_forbidden). cbn [nonempty bind].
  rewrite A, (check_alignment_spec _ _ _ _ W), positive_scan_spec.
  cbn [bind pos_hits matched_positive_snips matched_forbidden_snips
       first_pattern app evidence].
  destruct (nonempty (map (snip doc_text) (suppressed_matches st doc_text)
                      ++ alignment_extras regs doc_text)); [reflexivity|].
  destruct (nonempty (alignment_notes regs area doc_text)
            && (clean_hits st doc_text <? threshold st)%Z); reflexivity.
Qed.
End SemanticBranches.

(** ** Forbidden claims (C1) *)

(** A rule type outside the four of the data model: the guard lists the
    four by name, and with [rule_type = "advisory"] a text in which the
    forbidden claim and the positive pattern both match is decided FOUND. *)
Example unlisted_rule_type_skips_guard :
  exists st o,
    read_settings advisory_rule = Ok st
    /\ find_all (forbid_re st) advisory_text <> []
    /\ evaluate_rule_semantic advisory_rule advisory_text JNull = Ok o
    /\ decision o = FOUND.
Proof.
  destruct (read_settings advisory_rule) as [st|e] eqn:R;
    [|vm_compute in R; discriminate].
  exists st. eexists. split; [reflexivity|]. split.
  - settle_settings R. vm_compute. discriminate.
  - split; [vm_compute; reflexivity|reflexivity].
Qed.

(** C1: on the semantic path, for a rule of any of the four rule types,
    deny, limit, align_with_opspecs and affirm (the default), a forbidden
    claim found in the text decides CONFLICT with confidence 0.95, the notes
    "Forbidden claim(s) present", the forbidden snippets and no positive
    snippet, whatever the positive patterns match. *)
Theorem forbidden_claim_wins (rule : dict) (doc_text : string) (ops_facts : json)
        (st : Settings) :
  semantic_path rule ->
  read_settings rule = Ok st ->
  listed_rule_type (get rule "rule_type" (JStr "affirm")) ->
  find_all (forbid_re st) doc_text <> [] ->
  evaluate_rule_semantic rule doc_text ops_facts
  = Ok (forbidden_conflict (forbidden_snips (forbid_re st) doc_text)).
Proof.
  intros S R L F.
  rewrite (evaluate_on_semantic_path _ _ _ _ S R).
  unfold evaluate_settings, forbidden_snips.
  rewrite nonempty_map. apply nonempty_true in F. rewrite F.
  rewrite (read_settings_rule_type _ _ R).
  destruct L as [-> | [-> | [-> | ->]]]; reflexivity.
Qed.

Lemma forbidden_claim_wins_witness :
  exists st,
    read_settings deny_rule = Ok st
    /\ positive_matches st advisory_text <> []
    /\ evaluate_rule_semantic deny_rule advisory_text JNull
       = Ok (forbidden_conflict ["VFR only. The fuel reserve is 30 minutes."]).
Proof.
  destruct (read_settings deny_rule) as [st|e] eqn:R;
    [|vm_compute in R; discriminate].
  exists st. split; [reflexivity|]. split.
  - settle_settings R. vm_compute. discriminate.
  - rewrite (forbidden_claim_wins deny_rule advisory_text JNull st).
    + settle_settings R. vm_compute. reflexivity.
    + reflexivity.
    + exact R.
    + left. reflexivity.
    + settle_settings R. vm_compute. discriminate.
Defined.

(** ** The threshold (C2, C10) *)

Lemma decided_found (st : Settings) (ev : Evidence) :
  (threshold st <= pos_hits ev)%Z -> decided st ev = found st ev.
Proof.
  intros H. unfold decided.
  apply Z.leb_le in H. rewrite H. reflexivity.
Qed.

Lemma decided_below (st : Settings) (ev : Evidence) :
  (pos_hits ev < threshold st)%Z ->
  decision (decided st ev) = REVIEW
  \/ decided st ev
     = {| decision := MISSING; matched_positive := []; matched_forbidden := [];
          matched_pattern := first_pattern ev; confidence := 0; notes := "" |}.
Proof.
  intros H. unfold decided.
  apply Z.leb_gt in H. rewrite H.
  destruct (nonempty (matched_positive_snips ev)
            && nonempty (matched_forbidden_snips ev)); auto.
Qed.

(** With the alignment branch silent, the final step decides on the
    evidence of the positive scan alone. *)
Lemma silent_alignment_defers (st : Settings) (rule_facts ops_facts : json)
      (doc_text : string) :
  find_all (forbid_re st) doc_text = [] ->
  alignment_silent st rule_facts ops_facts doc_text ->
  (aligned st rule_facts ops_facts = true ->
   forall (regs area : list string),
     well_formed_facts (selected_facts rule_facts ops_facts) regs area ->
     nonempty (alignment_notes regs area doc_text)
     && (clean_hits st doc_text <? threshold st)%Z = false) ->
  evaluate_settings st rule_facts doc_text ops_facts
  = final_decision st (evidence st doc_text []).
Proof.
  intros F Silent Defer.
  destruct (aligned st rule_facts ops_facts) eqn:A.
  - destruct Silent as [?|(regs & area & W & X & Sup)]; [congruence|].
    rewrite (semantic_aligned st rule_facts ops_facts doc_text F regs area A W).
    rewrite X. unfold evidence at 1. cbn [matched_forbidden_snips].
    rewrite Sup. cbn [map app nonempty].
    unfold evidence at 1. cbn [pos_hits].
    rewrite (Defer eq_refl regs area W). reflexivity.
  - apply semantic_unaligned; assumption.
Qed.

(** C2, counterexample: an align_with_opspecs rule with one clean positive
    hit and threshold 1 is decided CONFLICT, because the text names the
    registration 4X-ZZZ that the facts do not list. *)
Lemma alignment_conflict_beats_threshold :
  ~ threshold_alone_decides fleet_rule fleet_text JNull.
Proof.
  intros H.
  destruct (read_settings fleet_rule) as [st|e] eqn:R;
    [|vm_compute in R; discriminate].
  destruct (H eq_refl st R) as (o & E & D).
  - settle_settings R. vm_compute. discriminate.
  - settle_settings R. vm_compute. reflexivity.
  - settle_settings R. vm_compute. discriminate.
  - vm_compute in E. injection E as <-. discriminate D.
Qed.

(** C2, amended: for a semantic rule with threshold N >= 1 whose forbidden
    claims do not match,
    - if the alignment branch is silent (the rule is not an
      align_with_opspecs rule with facts, or the check finds no extra
      registration and no positive match was suppressed), then at least N
      clean positive hits decide FOUND with confidence
      min(1, 0.6 + 0.2 * (hits - N));
    - with exactly N - 1 clean positive hits the decision is not FOUND. *)
Theorem threshold_boundary (rule : dict) (doc_text : string) (ops_facts : json)
        (st : Settings) :
  semantic_path rule ->
  read_settings rule = Ok st ->
  (1 <= threshold st)%Z ->
  find_all (forbid_re st) doc_text = [] ->
  let hits := clean_hits st doc_text in
  let rule_facts := get rule "ops_facts" JNull in
  ((threshold st <= hits)%Z ->
   alignment_silent st rule_facts ops_facts doc_text ->
   exists o, evaluate_rule_semantic rule doc_text ops_facts = Ok o
             /\ decision o = FOUND
             /\ confidence o = Qmin 1 (0.6 + 0.2 * inject_Z (hits - threshold st)))
  /\ (hits = (threshold st - 1)%Z ->
      alignment_returns st rule_facts ops_facts ->
      exists o, evaluate_rule_semantic rule doc_text ops_facts = Ok o
                /\ decision o <> FOUND).
Proof.
  intros S R N F hits rule_facts.
  rewrite (evaluate_on_semantic_path _ _ _ _ S R). fold rule_facts.
  split.
  - intros H Silent.
    rewrite (silent_alignment_defers _ _ _ _ F Silent).
    + rewrite final_decision_in_range by (apply threshold_in_range; lia).
      rewrite decided_found by exact H.
      eexists; split; [reflexivity|]. split; reflexivity.
    + intros _ regs area _. fold hits.
      apply Z.ltb_ge in H. rewrite H. apply andb_false_r.
  - intros H Returns.
    assert (Below : (pos_hits (evidence st doc_text []) < threshold st)%Z)
      by (cbn [evidence pos_hits]; fold hits; lia).
    destruct (aligned st rule_facts ops_facts) eqn:A.
    + destruct Returns as [?|(regs & area & W)]; [congruence|].
      rewrite (semantic_aligned st rule_facts ops_facts doc_text F regs area A W).
      cbv zeta.
      destruct (nonempty _);
        [eexists; split; [reflexivity|discriminate]|].
      destruct (_ && _);
        [eexists; split; [reflexivity|discriminate]|].
      rewrite final_decision_in_range
        by (apply below_threshold_in_range; exact Below).
      eexists; split; [reflexivity|].
      destruct (decided_below st
                  (evidence st doc_text (alignment_extras regs doc_text)) Below)
        as [D|D]; rewrite D; cbn [decision]; discriminate.
    + rewrite (semantic_unaligned _ _ _ _ F A).
      rewrite final_decision_in_range
        by (apply below_threshold_in_range; exact Below).
      eexists; split; [reflexivity|].
      destruct (decided_below st (evidence st doc_text []) Below)
        as [D|D]; rewrite D; cbn [decision]; discriminate.
Qed.

(** The scenario of the specification: one clean hit at threshold 1. *)
Example fuel_reserve_scenario :
  exists o,
    evaluate_rule_semantic fuel_rule fuel_text JNull = Ok o
    /\ decision o = FOUND
    /\ matched_pattern o = "fuel reserve"
    /\ matched_positive o = ["The fuel reserve requirement is 30 minutes."]
    /\ confidence o == 0.6.
Proof.
  eexists. split; [vm_compute; reflexivity|]. repeat split.
Qed.

Lemma threshold_boundary_witness :
  (exists o, evaluate_rule_semantic fuel_rule fuel_text JNull = Ok o
             /\ decision o = FOUND /\ confidence o == 0.6)
  /\ (exists o, evaluate_rule_semantic fuel_rule "No reserve is stated." JNull = Ok o
                /\ decision o <> FOUND).
Proof.
  destruct (read_settings fuel_rule) as [st|e] eqn:R;
    [|vm_compute in R; discriminate].
  split.
  - destruct (threshold_boundary fuel_rule fuel_text JNull st) as [Found _].
    + reflexivity.
    + exact R.
    + settle_settings R. vm_compute. discriminate.
    + settle_settings R. vm_compute. reflexivity.
    + destruct Found as (o & E & D & C).
      * settle_settings R. vm_compute. discriminate.
      * left. settle_settings R. vm_compute. reflexivity.
      * exists o. split; [exact E|]. split; [exact D|].
        rewrite C. settle_settings R. vm_compute. reflexivity.
  - destruct (threshold_boundary fuel_rule "No reserve is stated." JNull st)
      as [_ Below].
    + reflexivity.
    + exact R.
    + settle_settings R. vm_compute. discriminate.
    + settle_settings R. vm_compute. reflexivity.
    + apply Below.
      * settle_settings R. vm_compute. reflexivity.
      * left. settle_settings R. vm_compute. reflexivity.
Defined.

Lemma find_all_empty_text (re : option Re.Pattern) : find_all re "" = [].
Proof. destruct re; reflexivity. Qed.

Lemma clean_hits_empty_text (st : Settings) : clean_hits st "" = 0%Z.
Proof.
  unfold clean_hits, clean_matches, positive_matches.
  rewrite find_all_empty_text. reflexivity.
Qed.

Lemma suppressed_matches_empty_text (st : Settings) : suppressed_matches st "" = [].
Proof.
  unfold suppressed_matches, positive_matches.
  rewrite find_all_empty_text. reflexivity.
Qed.

Lemma no_registration_in_empty_text : Re.findall registration_shape "" = [].
Proof. vm_compute. reflexivity. Qed.

Lemma alignment_extras_empty_text (regs : list string) :
  alignment_extras regs "" = [].
Proof.
  unfold alignment_extras, extra_registrations.
  rewrite no_registration_in_empty_text.
  destruct (nonempty regs); reflexivity.
Qed.

(** On the empty text the alignment branch finds no contradiction. *)
Lemma alignment_silent_empty_text (st : Settings) (rule_facts ops_facts : json) :
  alignment_returns st rule_facts ops_facts ->
  alignment_silent st rule_facts ops_facts "".
Proof.
  intros [A|(regs & area & W)]; [left; exact A|].
  right. exists regs, area. split; [exact W|]. split.
  - apply alignment_extras_empty_text.
  - apply suppressed_matches_empty_text.
Qed.

(** C10, counterexample: with threshold 0, an align_with_opspecs rule whose
    text names the unlisted registration 4X-ZZZ is decided CONFLICT, not
    FOUND. *)
Lemma alignment_conflict_beats_nonpositive_threshold :
  ~ nonpositive_threshold_always_found lenient_fleet_rule fleet_text JNull.
Proof.
  intros H.
  destruct (read_settings lenient_fleet_rule) as [st|e] eqn:R;
    [|vm_compute in R; discriminate].
  destruct (H eq_refl st R) as (o & E & D).
  - settle_settings R. vm_compute. discriminate.
  - settle_settings R. vm_compute. reflexivity.
  - vm_compute in E. injection E as <-. discriminate D.
Qed.

(** A threshold of 0 or less with the alignment branch silent: the final
    step decides FOUND, or cannot compute the confidence. *)
Lemma nonpositive_threshold_final (rule : dict) (doc_text : string)
      (ops_facts : json) (st : Settings) :
  semantic_path rule ->
  read_settings rule = Ok st ->
  (threshold st <= 0)%Z ->
  find_all (forbid_re st) doc_text = [] ->
  alignment_silent st (get rule "ops_facts" JNull) ops_facts doc_text ->
  ((clean_hits st doc_text - threshold st < float_limit)%Z ->
   evaluate_rule_semantic rule doc_text ops_facts
   = Ok (found st (evidence st doc_text [])))
  /\ ((threshold st <= - float_limit)%Z ->
      evaluate_rule_semantic rule doc_text ops_facts = Raise OverflowError).
Proof.
  intros S R N F Silent.
  assert (Hits : (0 <= clean_hits st doc_text)%Z) by (unfold clean_hits; lia).
  assert (E : evaluate_rule_semantic rule doc_text ops_facts
              = final_decision st (evidence st doc_text [])).
  { rewrite (evaluate_on_semantic_path _ _ _ _ S R).
    apply (silent_alignment_defers _ _ _ _ F Silent).
    intros _ regs area _.
    assert (H : (clean_hits st doc_text <? threshold st)%Z = false)
      by (apply Z.ltb_ge; lia).
    rewrite H. apply andb_false_r. }
  rewrite E, final_decision_spec. unfold overflows.
  cbn [evidence pos_hits].
  assert (T : (threshold st <=? clean_hits st doc_text)%Z = true)
    by (apply Z.leb_le; lia).
  rewrite T. cbn [andb].
  assert (P : (0 < ssize_max)%Z) by (vm_compute; reflexivity).
  split.
  - intros In_range.
    assert (G : (float_limit <=? counted (clean_hits st doc_text) - threshold st)%Z
                = false) by (apply Z.leb_gt; unfold counted; lia).
    rewrite G. rewrite decided_found by (cbn [evidence pos_hits]; lia).
    reflexivity.
  - intros Beyond.
    assert (G : (float_limit <=? counted (clean_hits st doc_text) - threshold st)%Z
                = true) by (apply Z.leb_le; unfold counted; lia).
    rewrite G. reflexivity.
Qed.

(** C10, amended: the threshold is read with [int()] and never checked
    against 1.  For a semantic rule whose threshold is 0 or negative and
    whose forbidden claims do not match, if the alignment branch is silent,
    - the decision is FOUND with confidence
      min(1, 0.6 + 0.2 * (hits - threshold)), which is
      min(1, 0.6 + 0.2 * (0 - threshold)) when nothing matches, provided
      that hits - threshold is below 2^1024 - 2^970, the first int that
      [float] does not convert;
    - the evaluation raises [OverflowError] when the threshold is
      -(2^1024 - 2^970) or less.
    On the empty text the same holds, with 0 hits, for every such rule that
    is not an align_with_opspecs rule with facts available, or whose facts
    are well formed. *)
Theorem nonpositive_threshold_found (rule : dict) (doc_text : string)
        (ops_facts : json) (st : Settings) :
  semantic_path rule ->
  read_settings rule = Ok st ->
  (threshold st <= 0)%Z ->
  find_all (forbid_re st) doc_text = [] ->
  let rule_facts := get rule "ops_facts" JNull in
  let hits := clean_hits st doc_text in
  (alignment_silent st rule_facts ops_facts doc_text ->
   ((hits - threshold st < float_limit)%Z ->
    exists o, evaluate_rule_semantic rule doc_text ops_facts = Ok o
              /\ decision o = FOUND
              /\ confidence o
                 = Qmin 1 (0.6 + 0.2 * inject_Z (hits - threshold st))
              /\ (positive_matches st doc_text = [] ->
                  confidence o = Qmin 1 (0.6 + 0.2 * inject_Z (0 - threshold st))))
   /\ ((threshold st <= - float_limit)%Z ->
       evaluate_rule_semantic rule doc_text ops_facts = Raise OverflowError))
  /\ (alignment_returns st rule_facts ops_facts ->
      ((0 - threshold st < float_limit)%Z ->
       exists o, evaluate_rule_semantic rule "" ops_facts = Ok o
                 /\ decision o = FOUND
                 /\ confidence o = Qmin 1 (0.6 + 0.2 * inject_Z (0 - threshold st)))
      /\ ((threshold st <= - float_limit)%Z ->
          evaluate_rule_semantic rule "" ops_facts = Raise OverflowError)).
Proof.
  intros S R N F rule_facts hits.
  split.
  - intros Silent.
    destruct (nonpositive_threshold_final _ _ _ _ S R N F Silent) as (Found & Over).
    split; [|exact Over].
    intros In_range. rewrite (Found In_range).
    eexists; split; [reflexivity|]. split; [reflexivity|].
    split; [reflexivity|].
    intros P. cbn [found confidence evidence pos_hits].
    unfold clean_hits, clean_matches. rewrite P. reflexivity.
  - intros Returns.
    destruct (nonpositive_threshold_final rule "" ops_facts st S R N
                (find_all_empty_text _)
                (alignment_silent_empty_text _ _ _ Returns)) as (Found & Over).
    split; [|exact Over].
    intros In_range. rewrite Found by (rewrite clean_hits_empty_text; exact In_range).
    eexists; split; [reflexivity|]. split; [reflexivity|].
    cbn [found confidence evidence pos_hits].
    rewrite clean_hits_empty_text. reflexivity.
Qed.

Lemma nonpositive_threshold_found_witness :
  (exists o, evaluate_rule_semantic lenient_rule "" JNull = Ok o
             /\ decision o = FOUND /\ confidence o == 1)
  /\ evaluate_rule_semantic overflowing_rule "" JNull = Raise OverflowError.
Proof.
  split.
  - destruct (read_settings lenient_rule) as [st|e] eqn:R;
      [|vm_compute in R; discriminate].
    destruct (nonpositive_threshold_found lenient_rule "" JNull st) as [_ Empty].
    + reflexivity.
    + exact R.
    + settle_settings R. vm_compute. discriminate.
    + apply find_all_empty_text.
    + destruct Empty as (Found & _).
      * left. settle_settings R. vm_compute. reflexivity.
      * destruct Found as (o & E & D & C).
        -- settle_settings R. vm_compute. reflexivity.
        -- exists o. split; [exact E|]. split; [exact D|].
           rewrite C. settle_settings R. vm_compute. reflexivity.
  - destruct (read_settings overflowing_rule) as [st|e] eqn:R;
      [|vm_compute in R; discriminate].
    destruct (nonpositive_threshold_found overflowing_rule "" JNull st)
      as [_ Empty].
    + reflexivity.
    + exact R.
    + settle_settings R. vm_compute. discriminate.
    + apply find_all_empty_text.
    + destruct Empty as (_ & Over).
      * left. settle_settings R. vm_compute. reflexivity.
      * apply Over. settle_settings R. vm_compute. discriminate.
Defined.

(** ** Negation suppression (C3) *)

Lemma decided_cases (st : Settings) (ev : Evidence) :
  (decision (decided st ev) = FOUND
   /\ matched_forbidden (decided st ev) = [])
  \/ (decision (decided st ev) = REVIEW
      /\ matched_forbidden (decided st ev) = matched_forbidden_snips ev)
  \/ (decision (decided st ev) = MISSING
      /\ matched_forbidden (decided st ev) = []).
Proof.
  unfold decided.
  destruct (threshold st <=? pos_hits ev)%Z; [auto|].
  destruct (nonempty (matched_positive_snips ev)
            && nonempty (matched_forbidden_snips ev)); auto.
Qed.

Lemma read_settings_char_window (rule : dict) (st : Settings) :
  read_settings rule = Ok st ->
  exists tokens,
    py_int (get rule "negation_window_tokens" (JInt 12)) = Ok tokens
    /\ char_window st = Z.to_nat (Z.max 0 (tokens * 6)).
Proof.
  unfold read_settings, bind. intros H.
  repeat match type of H with
         | match ?x with Ok _ => _ | Raise _ => _ end = _ =>
             destruct x; [|discriminate]
         end.
  injection H as <-. eexists. split; reflexivity.
Qed.

(** The negation check of the scan: on the semantic path, when no
    forbidden claim matches,
    - the window around a match is [6 * negation_window_tokens] characters
      on each side, clipped to the text, and a positive match is suppressed
      exactly when the negative pattern is found in that window;
    - the positive-hit counter counts the matches that are not suppressed;
    - a suppressed match is appended to the contradiction list of the scan;
    - that list is returned by REVIEW and CONFLICT outcomes only: the
      FOUND and the MISSING outcome are built with an empty list. *)
Lemma negation_suppression (rule : dict) (doc_text : string) (ops_facts : json)
        (st : Settings) :
  semantic_path rule ->
  read_settings rule = Ok st ->
  find_all (forbid_re st) doc_text = [] ->
  let ev := positive_scan st doc_text [] in
  (exists tokens,
     py_int (get rule "negation_window_tokens" (JInt 12)) = Ok tokens
     /\ ((0 <= tokens)%Z -> char_window st = 6 * Z.to_nat tokens)
     /\ forall s e,
          suppressed st doc_text (s, e) = true
          <-> exists p,
                neg_re st = Some p
                /\ Re.search p (slice doc_text
                                      (s - char_window st)
                                      (Nat.min (String.length doc_text)
                                               (e + char_window st)))
                   <> None)
  /\ pos_hits ev
     = Z.of_nat (List.length
                   (filter (fun m => negb (suppressed st doc_text m))
                           (positive_matches st doc_text)))
  /\ (forall m,
        In m (positive_matches st doc_text) ->
        suppressed st doc_text m = true ->
        In (snip doc_text m) (matched_forbidden_snips ev)
        /\ ~ In m (clean_matches st doc_text))
  /\ (forall o,
        evaluate_rule_semantic rule doc_text ops_facts = Ok o ->
        match decision o with
        | REVIEW | CONFLICT =>
            forall m,
              In m (positive_matches st doc_text) ->
              suppressed st doc_text m = true ->
              In (snip doc_text m) (matched_forbidden o)
        | FOUND | MISSING => matched_forbidden o = []
        end).
Proof.
  intros S R F ev.
  assert (Sup : forall m,
             In m (positive_matches st doc_text) ->
             suppressed st doc_text m = true ->
             In (snip doc_text m)
                (map (snip doc_text) (suppressed_matches st doc_text))).
  { intros m I Hs. apply in_map. apply filter_In. split; assumption. }
  subst ev. rewrite positive_scan_spec. cbn [pos_hits matched_forbidden_snips app].
  split; [|split; [|split]].
  - destruct (read_settings_char_window _ _ R) as (tokens & P & W).
    exists tokens. split; [exact P|]. split.
    + intros T. rewrite W. lia.
    + intros s e. unfold suppressed, window_has_negative.
      destruct (neg_re st) as [p|].
      * cbn [Nat.max].
        destruct (Re.search p _) eqn:Q; split.
        -- intros _. exists p. split; [reflexivity|]. rewrite Q. discriminate.
        -- reflexivity.
        -- discriminate.
        -- intros (p' & E & N). injection E as <-. rewrite Q in N.
           exfalso. apply N. reflexivity.
      * split; [discriminate|]. intros (p & E & _). discriminate.
  - reflexivity.
  - intros m I Hs. split; [apply Sup; assumption|].
    unfold clean_matches. rewrite filter_In, Hs. intros [_ C]. discriminate.
  - intros o. rewrite (evaluate_on_semantic_path _ _ _ _ S R).
    unfold evaluate_settings.
    rewrite (forbidden_snips_nil _ _ F). cbn [nonempty bind].
    rewrite positive_scan_spec.
    cbn [pos_hits matched_positive_snips matched_forbidden_snips first_pattern app].
    destruct (aligned st _ ops_facts).
    + destruct (check_alignment _ doc_text) as [[notes extras]|err];
        [|discriminate].
      cbn [bind].
      destruct (nonempty _).
      * intros E. injection E as <-. cbn [decision matched_forbidden].
        intros m I Hs. apply in_or_app. left. apply Sup; assumption.
      * destruct (_ && _).
        -- intros E. injection E as <-. reflexivity.
        -- intros E. apply final_decision_ok in E. destruct E as (_ & ->).
           match goal with
           | |- context [decided st ?e] =>
               destruct (decided_cases st e)
                 as [(D & M) | [(D & M) | (D & M)]]
           end; rewrite D; try exact M.
           intros m I Hs. rewrite M. cbn [matched_forbidden_snips].
           apply in_or_app. left. apply Sup; assumption.
    + intros E. apply final_decision_ok in E. destruct E as (_ & ->).
      match goal with
      | |- context [decided st ?e] =>
          destruct (decided_cases st e)
            as [(D & M) | [(D & M) | (D & M)]]
      end; rewrite D; try exact M.
      intros m I Hs. rewrite M. cbn [matched_forbidden_snips].
      apply Sup; assumption.
Qed.

(** The evaluator reads the key negative_patterns: the same patterns under
    the key negation_patterns are not read, and the match counts. *)
Example negation_patterns_key_is_not_read :
  exists o,
    evaluate_rule_semantic
      [("rule_type", JStr "affirm");
       ("positive_patterns", JList [JStr "fuel reserve"]);
       ("threshold", JInt 1);
       ("negation_patterns", JList [JStr "no\s+fuel"]);
       ("negation_window_tokens", JInt 3)]
      negated_fuel_text JNull = Ok o
    /\ decision o = FOUND.
Proof. eexists. split; [vm_compute; reflexivity|reflexivity]. Qed.

Lemma negation_suppression_witness :
  exists st,
    read_settings negated_fuel_rule = Ok st
    /\ char_window st = 18
    /\ positive_matches st negated_fuel_text = [(12, 24)]
    /\ suppressed st negated_fuel_text (12, 24) = true
    /\ pos_hits (positive_scan st negated_fuel_text []) = 0%Z
    /\ exists o,
         evaluate_rule_semantic negated_fuel_rule negated_fuel_text JNull = Ok o
         /\ decision o = MISSING
         /\ matched_forbidden o = [].
Proof.
  destruct (read_settings negated_fuel_rule) as [st|e] eqn:R;
    [|vm_compute in R; discriminate].
  exists st. split; [reflexivity|].
  destruct (negation_suppression negated_fuel_rule negated_fuel_text JNull st)
    as (_ & Count & _ & Out).
  - reflexivity.
  - exact R.
  - settle_settings R. vm_compute. reflexivity.
  - split; [settle_settings R; vm_compute; reflexivity|].
    split; [settle_settings R; vm_compute; reflexivity|].
    split; [settle_settings R; vm_compute; reflexivity|].
    split; [rewrite Count; settle_settings R; vm_compute; reflexivity|].
    destruct (evaluate_rule_semantic negated_fuel_rule negated_fuel_text JNull)
      as [o|err] eqn:E; [|vm_compute in E; discriminate].
    exists o. split; [reflexivity|].
    specialize (Out o eq_refl).
    vm_compute in E. injection E as <-.
    split; [reflexivity|exact Out].
Defined.

(** C3, the failing input: in the scenario the only positive match, at
    (12, 24), has "no fuel" in its window of 18 characters; it is not
    counted, and the scan appends its snippet to the contradiction list,
    under the comment that a local contradiction downgrades to REVIEW.  The
    claim asks for MISSING with that snippet in matched_forbidden.  The
    code decides MISSING and returns an empty matched_forbidden: the last
    return statement writes [[]] in place of the list. *)
Theorem suppressed_match_not_reported :
  exists st,
    read_settings negated_fuel_rule = Ok st
    /\ char_window st = 18
    /\ find_all (forbid_re st) negated_fuel_text = []
    /\ positive_matches st negated_fuel_text = [(12, 24)]
    /\ suppressed st negated_fuel_text (12, 24) = true
    /\ pos_hits (positive_scan st negated_fuel_text []) = 0%Z
    /\ matched_forbidden_snips (positive_scan st negated_fuel_text [])
       = ["There is no fuel reserve requirement."]
    /\ evaluate_rule_semantic negated_fuel_rule negated_fuel_text JNull
       = Ok {| decision := MISSING;
               matched_positive := [];
               matched_forbidden := [];
               matched_pattern := "";
               confidence := 0;
               notes := "" |}.
Proof.
  destruct (read_settings negated_fuel_rule) as [st|e] eqn:R;
    [|vm_compute in R; discriminate].
  exists st. split; [reflexivity|].
  settle_settings R. vm_compute. repeat split; reflexivity.
Qed.

(** ** Alignment with ops_facts (C4) *)

(** Facts of the rule take precedence over the facts of the run. *)
Lemma rule_facts_take_precedence (rule_facts ops_facts : json) :
  truthy rule_facts = true -> selected_facts rule_facts ops_facts = rule_facts.
Proof. unfold selected_facts, py_or. intros ->. reflexivity. Qed.

Lemma run_facts_by_default (rule_facts ops_facts : json) :
  truthy rule_facts = false -> truthy ops_facts = true ->
  selected_facts rule_facts ops_facts = ops_facts.
Proof. unfold selected_facts, py_or. intros -> ->. reflexivity. Qed.

Section AlignmentBranch.
Variable rule : dict.
Variable doc_text : string.
Variable ops_facts : json.
Variable st : Settings.
Variables regs area : list string.
Hypothesis on_semantic_path : semantic_path rule.
Hypothesis settings : read_settings rule = Ok st.
Hypothesis no_forbidden : find_all (forbid_re st) doc_text = [].
Hypothesis is_aligned : aligned st (get rule "ops_facts" JNull) ops_facts = true.
Hypothesis facts :
  well_formed_facts (selected_facts (get rule "ops_facts" JNull) ops_facts) regs area.

(** An extra registration decides CONFLICT with confidence 0.9, whatever
    the positive hits. *)
Lemma extra_registration_conflict :
  alignment_extras regs doc_text <> [] ->
  evaluate_rule_semantic rule doc_text ops_facts
  = Ok (alignment_conflict
          (evidence st doc_text (alignment_extras regs doc_text))
          (alignment_notes regs area doc_text)).
Proof.
  intros X.
  rewrite (evaluate_on_semantic_path _ _ _ _ on_semantic_path settings).
  rewrite (semantic_aligned _ _ _ _ no_forbidden regs area is_aligned facts).
  cbn [evidence matched_forbidden_snips].
  rewrite nonempty_app. apply nonempty_true in X. rewrite X, orb_true_r.
  reflexivity.
Qed.

(** So does a positive match suppressed by a negation, although the
    alignment check itself found no conflict. *)
Lemma suppressed_match_conflict :
  suppressed_matches st doc_text <> [] ->
  evaluate_rule_semantic rule doc_text ops_facts
  = Ok (alignment_conflict
          (evidence st doc_text (alignment_extras regs doc_text))
          (alignment_notes regs area doc_text)).
Proof.
  intros X.
  rewrite (evaluate_on_semantic_path _ _ _ _ on_semantic_path settings).
  rewrite (semantic_aligned _ _ _ _ no_forbidden regs area is_aligned facts).
  cbn [evidence matched_forbidden_snips].
  rewrite nonempty_app, nonempty_map. apply nonempty_true in X. rewrite X.
  reflexivity.
Qed.

(** Without an extra registration and without a suppressed match, missing
    notes decide MISSING with confidence 0.2 when the clean positive hits
    are below the threshold. *)
Lemma missing_notes_below_threshold :
  alignment_extras regs doc_text = [] ->
  suppressed_matches st doc_text = [] ->
  alignment_notes regs area doc_text <> [] ->
  (clean_hits st doc_text < threshold st)%Z ->
  evaluate_rule_semantic rule doc_text ops_facts
  = Ok (alignment_missing (evidence st doc_text [])
                          (alignment_notes regs area doc_text)).
Proof.
  intros X Sup N H.
  rewrite (evaluate_on_semantic_path _ _ _ _ on_semantic_path settings).
  rewrite (semantic_aligned _ _ _ _ no_forbidden regs area is_aligned facts).
  rewrite X. cbn [evidence matched_forbidden_snips pos_hits].
  rewrite Sup. cbn [map app nonempty].
  apply nonempty_true in N. apply Z.ltb_lt in H. rewrite N, H.
  reflexivity.
Qed.
End AlignmentBranch.

Lemma in_insert_sorted (x y : string) (l : list string) :
  In x (insert_sorted y l) <-> x = y \/ In x l.
Proof.
  induction l as [|z l IH]; simpl.
  - intuition.
  - destruct (String.eqb_spec y z) as [->|Ne].
    + simpl. intuition.
    + destruct (String.ltb y z); simpl; [intuition|].
      rewrite IH. intuition.
Qed.

Lemma in_sorted_set (x : string) (l : list string) :
  In x (sorted_set l) <-> In x l.
Proof.
  induction l as [|y l IH]; simpl; [reflexivity|].
  rewrite in_insert_sorted, IH. intuition.
Qed.

(** With the registrations ["4X-BHS"], every text in which 4X-ZZZ stands
    as a registration-shaped code yields an extra. *)
Lemma unlisted_registration_is_extra (doc_text : string) :
  In "4X-ZZZ" (Re.findall registration_shape doc_text) ->
  In "Extra reg in manuals: 4X-ZZZ" (alignment_extras ["4X-BHS"] doc_text).
Proof.
  intros I. unfold alignment_extras. cbn [nonempty].
  apply (in_map (fun x => ("Extra reg in manuals: " ++ x)%string)
                (extra_registrations ["4X-BHS"] doc_text) "4X-ZZZ").
  unfold extra_registrations. apply filter_In. split.
  - apply in_sorted_set. exact I.
  - vm_compute. reflexivity.
Qed.

(** C4, the failing input: the text names no registration-shaped code, so
    the alignment check yields one missing note and no conflict snippet,
    and no clean positive hit reaches the threshold 1; the claim asks for
    MISSING with confidence 0.2.  The code decides CONFLICT with confidence
    0.9, because the positive match suppressed by "no fuel" sits in the list
    that the alignment block tests. *)
Theorem alignment_conflict_without_extra :
  alignment_extras ["4X-BHS"] negated_fuel_text = []
  /\ alignment_notes ["4X-BHS"] [] negated_fuel_text
     = ["Missing registrations in manuals: 4X-BHS"]
  /\ (exists st,
        read_settings contradicted_fleet_rule = Ok st
        /\ find_all (forbid_re st) negated_fuel_text = []
        /\ clean_hits st negated_fuel_text = 0%Z
        /\ threshold st = 1%Z)
  /\ evaluate_rule_semantic contradicted_fleet_rule negated_fuel_text JNull
     = Ok {| decision := CONFLICT;
             matched_positive := [];
             matched_forbidden := ["There is no fuel reserve requirement."];
             matched_pattern := "";
             confidence := 0.9;
             notes := "Missing registrations in manuals: 4X-BHS" |}.
Proof.
  split; [vm_compute; reflexivity|].
  split; [vm_compute; reflexivity|].
  split; [|vm_compute; reflexivity].
  destruct (read_settings contradicted_fleet_rule) as [st|e] eqn:R;
    [|vm_compute in R; discriminate].
  exists st. split; [reflexivity|].
  settle_settings R. vm_compute. auto.
Qed.

(** The scenario of the specification: an extra 4X-ZZZ resolves to
    CONFLICT. *)
Example extra_registration_scenario :
  evaluate_rule_semantic registration_rule "Fleet: 4X-BHS, 4X-ZZZ." JNull
  = Ok {| decision := CONFLICT;
          matched_positive := [];
          matched_forbidden := ["Extra reg in manuals: 4X-ZZZ"];
          matched_pattern := "";
          confidence := 0.9;
          notes := "Conflict with ops_facts" |}.
Proof. vm_compute. reflexivity. Qed.

(** ** The legacy path (C5, C9) *)

Lemma first_hit_strings (pats : list string) (doc_text : string) :
  first_hit (map JStr pats) doc_text = Ok (find (hit doc_text) pats).
Proof.
  induction pats as [|p pats IH]; [reflexivity|].
  cbn [map first_hit truthy find]. unfold hit at 1.
  destruct (negb (String.eqb p "")); cbn [andb]; [|exact IH].
  destruct (contains (lower p) (lower doc_text)); [reflexivity|exact IH].
Qed.

Lemma find_append {A : Type} (f : A -> bool) (l1 l2 : list A) :
  find f (l1 ++ l2)
  = match find f l1 with
    | Some x => Some x
    | None => find f l2
    end.
Proof.
  induction l1 as [|x l1 IH]; [reflexivity|].
  simpl. destruct (f x); [reflexivity|exact IH].
Qed.

Lemma find_none_iff {A : Type} (f : A -> bool) (l : list A) :
  find f l = None <-> Forall (fun x => f x = false) l.
Proof.
  induction l as [|x l IH]; simpl.
  - split; [constructor|reflexivity].
  - destruct (f x) eqn:E; split; intros H.
    + discriminate.
    + inversion H; congruence.
    + constructor; [exact E|apply IH; exact H].
    + apply IH. inversion H; assumption.
Qed.

Lemma legacy_scan_contains_any (chks : list json) (pss : list (list string))
      (doc_text : string) :
  Forall2 contains_any_check chks pss ->
  legacy_scan chks doc_text = Ok (find (hit doc_text) (List.concat pss)).
Proof.
  induction 1 as [|chk ps chks pss (d & -> & T & P) _ IH]; [reflexivity|].
  cbn [legacy_scan method_get bind List.concat]. rewrite T.
  cbn [equals_str]. rewrite String.eqb_refl.
  unfold string_list in P. rewrite P. cbn [iterate bind].
  rewrite first_hit_strings, find_append.
  destruct (find (hit doc_text) ps); [reflexivity|exact IH].
Qed.

Lemma legacy_scan_idle (chks : list json) (doc_text : string) :
  Forall (idle_check doc_text) chks ->
  legacy_scan chks doc_text = Ok None.
Proof.
  induction 1 as [|chk chks (d & -> & Idle) _ IH]; [reflexivity|].
  cbn [legacy_scan method_get bind].
  destruct Idle as [T | (pats & P & N)].
  - rewrite T. exact IH.
  - destruct (equals_str (get d "type" JNull) "contains_any"); [|exact IH].
    unfold string_list in P. rewrite P. cbn [iterate bind].
    rewrite first_hit_strings.
    apply find_none_iff in N. rewrite N. exact IH.
Qed.

(** A rule with truthy checks is evaluated by the legacy path alone. *)
Lemma legacy_path_taken (rule : dict) (doc_text : string) (ops_facts : json) :
  truthy (get rule "checks" (JList [])) = true ->
  evaluate_rule_semantic rule doc_text ops_facts
  = legacy_path (get rule "checks" (JList [])) doc_text.
Proof. unfold evaluate_rule_semantic. intros ->. reflexivity. Qed.

(** C5: for a rule whose checks are a non-empty list of contains_any
    checks, the decision is FOUND exactly when some non-empty pattern occurs
    in the text, both taken in lowercase; the outcome is then the legacy
    FOUND outcome, with confidence 0.6 and the first such pattern (in the
    order of the checks and of their patterns) as matched_pattern; otherwise
    it is the legacy MISSING outcome with confidence 0.  Nothing else of the
    rule, nor the facts, has any influence. *)
Theorem legacy_contains_any (rule : dict) (doc_text : string) (ops_facts : json)
        (chks : list json) (pss : list (list string)) :
  get rule "checks" (JList []) = JList chks ->
  chks <> [] ->
  Forall2 contains_any_check chks pss ->
  exists o,
    evaluate_rule_semantic rule doc_text ops_facts = Ok o
    /\ (decision o = FOUND
        <-> exists p, In p (List.concat pss) /\ p <> ""
                      /\ contains (lower p) (lower doc_text) = true)
    /\ (decision o = FOUND ->
        confidence o = 0.6%Q
        /\ find (hit doc_text) (List.concat pss) = Some (matched_pattern o)
        /\ o = legacy_found (matched_pattern o))
    /\ (decision o <> FOUND -> o = legacy_missing /\ confidence o = 0%Q)
    /\ (forall rule' ops_facts',
          get rule' "checks" (JList []) = JList chks ->
          evaluate_rule_semantic rule' doc_text ops_facts' = Ok o).
Proof.
  intros C N W.
  assert (E : forall rule' ops_facts',
             get rule' "checks" (JList []) = JList chks ->
             evaluate_rule_semantic rule' doc_text ops_facts'
             = Ok (match find (hit doc_text) (List.concat pss) with
                   | Some p => legacy_found p
                   | None => legacy_missing
                   end)).
  { intros rule' ops_facts' C'.
    rewrite legacy_path_taken
      by (rewrite C'; destruct chks; [congruence|reflexivity]).
    rewrite C'. unfold legacy_path. cbn [iterate bind].
    rewrite (legacy_scan_contains_any _ _ _ W).
    destruct (find (hit doc_text) (List.concat pss)); reflexivity. }
  eexists. split; [apply (E rule ops_facts C)|].
  destruct (find (hit doc_text) (List.concat pss)) as [p|] eqn:F.
  - split; [|split; [|split; [|exact E]]].
    + split; [intros _|reflexivity].
      apply find_some in F. destruct F as [I H].
      unfold hit in H. apply andb_prop in H. destruct H as [H1 H2].
      exists p. split; [exact I|]. split; [|exact H2].
      intros ->. discriminate.
    + intros _. cbn. auto.
    + intros D. exfalso. apply D. reflexivity.
  - split; [|split; [|split; [|exact E]]].
    + split; [discriminate|].
      intros (p & I & Ne & H). exfalso.
      rewrite find_none_iff, Forall_forall in F. specialize (F p I).
      unfold hit in F. rewrite H in F.
      destruct (String.eqb_spec p ""); [contradiction|discriminate].
    + discriminate.
    + intros _. split; reflexivity.
Qed.

Lemma legacy_contains_any_witness :
  Forall2 contains_any_check legacy_checks [[""; "Night VFR"; "fuel"]]
  /\ exists o,
       evaluate_rule_semantic legacy_rule legacy_text JNull = Ok o
       /\ o = legacy_found "Night VFR"
       /\ (decision o = FOUND
           <-> exists p, In p [""; "Night VFR"; "fuel"] /\ p <> ""
                         /\ contains (lower p) (lower legacy_text) = true).
Proof.
  assert (W : Forall2 contains_any_check legacy_checks [[""; "Night VFR"; "fuel"]]).
  { constructor; [|constructor].
    eexists. split; [reflexivity|]. split; reflexivity. }
  split; [exact W|].
  destruct (legacy_contains_any legacy_rule legacy_text JNull
              legacy_checks [[""; "Night VFR"; "fuel"]]
              eq_refl ltac:(discriminate) W)
    as (o & E & Iff & _).
  exists o. split; [exact E|]. split; [|exact Iff].
  vm_compute in E. injection E as <-. reflexivity.
Defined.

Lemma legacy_idle_missing (rule : dict) (doc_text : string) (ops_facts : json)
      (chks : list json) :
  get rule "checks" (JList []) = JList chks ->
  chks <> [] ->
  Forall (idle_check doc_text) chks ->
  evaluate_rule_semantic rule doc_text ops_facts = Ok legacy_missing.
Proof.
  intros C N Idle.
  rewrite legacy_path_taken
    by (rewrite C; destruct chks; [congruence|reflexivity]).
  rewrite C. unfold legacy_path. cbn [iterate bind].
  rewrite (legacy_scan_idle _ _ Idle). reflexivity.
Qed.

(** C9: a rule whose checks list is not empty is evaluated by the legacy
    path alone: the outcome is that of the checks on the text, the same for
    every rule and facts with these checks, whatever its positive_patterns,
    negative_patterns, forbidden_claims, threshold and ops_facts; and when
    every check has a type other than contains_any or patterns of which
    none occurs in the text, the outcome is the legacy MISSING outcome with
    confidence 0. *)
Theorem legacy_path_unconditional (rule : dict) (doc_text : string)
        (ops_facts : json) (chks : list json) :
  get rule "checks" (JList []) = JList chks ->
  chks <> [] ->
  evaluate_rule_semantic rule doc_text ops_facts = legacy_path (JList chks) doc_text
  /\ (forall rule' ops_facts',
        get rule' "checks" (JList []) = JList chks ->
        evaluate_rule_semantic rule' doc_text ops_facts'
        = evaluate_rule_semantic rule doc_text ops_facts)
  /\ (Forall (idle_check doc_text) chks ->
      exists o, evaluate_rule_semantic rule doc_text ops_facts = Ok o
                /\ o = legacy_missing
                /\ decision o = MISSING
                /\ confidence o = 0%Q).
Proof.
  intros C N.
  assert (E : forall rule' ops_facts',
             get rule' "checks" (JList []) = JList chks ->
             evaluate_rule_semantic rule' doc_text ops_facts'
             = legacy_path (JList chks) doc_text).
  { intros rule' ops_facts' C'.
    rewrite legacy_path_taken
      by (rewrite C'; destruct chks; [congruence|reflexivity]).
    rewrite C'. reflexivity. }
  split; [apply E; exact C|]. split.
  - intros rule' ops_facts' C'. rewrite (E _ _ C'), (E _ _ C). reflexivity.
  - intros Idle. rewrite (legacy_idle_missing _ _ _ _ C N Idle).
    eexists. split; [reflexivity|]. repeat split.
Qed.

Lemma legacy_path_unconditional_witness :
  exists chks,
    get overridden_rule "checks" (JList []) = JList chks
    /\ Forall (idle_check fleet_text) chks
    /\ evaluate_rule_semantic overridden_rule fleet_text JNull = Ok legacy_missing.
Proof.
  eexists. split; [reflexivity|].
  assert (Idle : Forall (idle_check fleet_text)
                   [JDict [("type", JStr "regex"); ("patterns", JList [JStr "fuel"])];
                    JDict [("type", JStr "contains_any");
                           ("patterns", JList [JStr "night VFR"])]]).
  { constructor; [|constructor; [|constructor]].
    - eexists. split; [reflexivity|]. left. reflexivity.
    - eexists. split; [reflexivity|]. right.
      exists ["night VFR"]. split; [reflexivity|].
      constructor; [vm_compute; reflexivity|constructor]. }
  split; [exact Idle|].
  destruct (legacy_path_unconditional overridden_rule fleet_text JNull _
              eq_refl ltac:(discriminate))
    as (_ & _ & Missing).
  destruct (Missing Idle) as (o & E & -> & _). exact E.
Defined.

(** ** The empty text (C6) *)

(** C6, counterexample: on the empty text an align_with_opspecs rule whose
    facts list a registration is decided MISSING with confidence 0.2, not
    0; and a rule with threshold 0 is decided FOUND. *)
Lemma empty_text_alignment_confidence :
  ~ empty_text_missing_zero registration_rule JNull
  /\ ~ empty_text_missing_zero lenient_fleet_rule JNull.
Proof.
  split; intros (o & E & D & C); vm_compute in E; injection E as <-;
    discriminate.
Qed.

Lemma lower_nil (s : string) : lower s = "" -> s = "".
Proof. destruct s; [reflexivity|discriminate]. Qed.

Lemma chars_nil (s : string) : chars s = [] -> s = "".
Proof. destruct s; [reflexivity|discriminate]. Qed.

Lemma hit_empty_text (pat : string) : hit "" pat = false.
Proof.
  unfold hit. destruct (String.eqb_spec pat "") as [->|Ne]; [reflexivity|].
  cbn [negb andb]. unfold contains. change (chars (lower "")) with (@nil ascii).
  destruct (chars (lower pat)) eqn:E; [|reflexivity].
  exfalso. apply Ne. apply lower_nil. apply chars_nil. exact E.
Qed.

Lemma well_formed_check_idle (chk : json) :
  well_formed_check chk -> idle_check "" chk.
Proof.
  intros (d & -> & [T|(pats & P)]); exists d; split; auto.
  right. exists pats. split; [exact P|].
  apply Forall_forall. intros p _. apply hit_empty_text.
Qed.

Lemma clean_matches_empty_text (st : Settings) : clean_matches st "" = [].
Proof.
  unfold clean_matches, positive_matches.
  rewrite find_all_empty_text. reflexivity.
Qed.

Lemma evidence_empty_text (st : Settings) :
  evidence st "" []
  = {| pos_hits := 0; matched_positive_snips := [];
       matched_forbidden_snips := []; first_pattern := "" |}.
Proof.
  unfold evidence.
  rewrite clean_hits_empty_text, clean_matches_empty_text,
          suppressed_matches_empty_text.
  reflexivity.
Qed.

(** C6, amended: evaluating a well-formed rule against the empty text
    raises no exception and decides MISSING, with no evidence:
    - a rule with legacy checks gets the legacy MISSING outcome, confidence
      0;
    - a semantic rule whose patterns compile and whose threshold is at
      least 1 gets confidence 0, except that an align_with_opspecs rule with
      well-formed facts for which the alignment check has notes (a listed
      registration or area cannot occur in the empty text) gets confidence
      0.2 and these notes. *)
Theorem empty_text_is_missing (rule : dict) (ops_facts : json) :
  (forall chks,
     get rule "checks" (JList []) = JList chks ->
     chks <> [] ->
     Forall well_formed_check chks ->
     evaluate_rule_semantic rule "" ops_facts = Ok legacy_missing)
  /\ (forall st,
        semantic_path rule ->
        read_settings rule = Ok st ->
        (1 <= threshold st)%Z ->
        let rule_facts := get rule "ops_facts" JNull in
        (aligned st rule_facts ops_facts = false ->
         evaluate_rule_semantic rule "" ops_facts = Ok missing_outcome)
        /\ (forall regs area,
              aligned st rule_facts ops_facts = true ->
              well_formed_facts (selected_facts rule_facts ops_facts) regs area ->
              evaluate_rule_semantic rule "" ops_facts
              = Ok (if nonempty (alignment_notes regs area "")
                    then {| decision := MISSING;
                            matched_positive := [];
                            matched_forbidden := [];
                            matched_pattern := "";
                            confidence := 0.2;
                            notes := join "; " (alignment_notes regs area "") |}
                    else missing_outcome))).
Proof.
  split.
  - intros chks C N W.
    apply (legacy_idle_missing _ _ _ _ C N).
    apply Forall_forall. intros chk I. apply well_formed_check_idle.
    rewrite Forall_forall in W. apply W. exact I.
  - intros st S R N rule_facts.
    rewrite (evaluate_on_semantic_path _ _ _ _ S R). fold rule_facts.
    assert (Final : final_decision st (evidence st "" []) = Ok missing_outcome).
    { rewrite final_decision_in_range by (apply threshold_in_range; lia).
      rewrite evidence_empty_text. unfold decided. cbn [pos_hits].
      replace (threshold st <=? 0)%Z with false
        by (symmetry; apply Z.leb_gt; lia).
      reflexivity. }
    split.
    + intros A.
      rewrite (semantic_unaligned _ _ _ _ (find_all_empty_text _) A).
      exact Final.
    + intros regs area A W.
      rewrite (semantic_aligned _ _ _ _ (find_all_empty_text _) regs area A W).
      rewrite alignment_extras_empty_text, evidence_empty_text.
      cbn [matched_forbidden_snips nonempty pos_hits].
      replace (0 <? threshold st)%Z with true
        by (symmetry; apply Z.ltb_lt; lia).
      rewrite andb_true_r.
      destruct (nonempty (alignment_notes regs area "")); [reflexivity|].
      rewrite <- (evidence_empty_text st). exact Final.
Qed.

Lemma empty_text_is_missing_witness :
  evaluate_rule_semantic legacy_rule "" JNull = Ok legacy_missing
  /\ evaluate_rule_semantic fuel_rule "" JNull = Ok missing_outcome
  /\ evaluate_rule_semantic registration_rule "" JNull
     = Ok {| decision := MISSING;
             matched_positive := [];
             matched_forbidden := [];
             matched_pattern := "";
             confidence := 0.2;
             notes := "Missing registrations in manuals: 4X-BHS" |}.
Proof.
  split; [|split].
  - apply (proj1 (empty_text_is_missing legacy_rule JNull) legacy_checks).
    + reflexivity.
    + discriminate.
    + constructor; [|constructor].
      eexists. split; [reflexivity|]. right.
      exists [""; "Night VFR"; "fuel"]. reflexivity.
  - destruct (read_settings fuel_rule) as [st|e] eqn:R;
      [|vm_compute in R; discriminate].
    apply (proj2 (empty_text_is_missing fuel_rule JNull) st eq_refl R).
    + settle_settings R. vm_compute. discriminate.
    + settle_settings R. vm_compute. reflexivity.
  - destruct (read_settings registration_rule) as [st|e] eqn:R;
      [|vm_compute in R; discriminate].
    rewrite (proj2 (proj2 (empty_text_is_missing registration_rule JNull)
                          st eq_refl R
                          ltac:(settle_settings R; vm_compute; discriminate))
                   ["4X-BHS"] []).
    + vm_compute. reflexivity.
    + settle_settings R. vm_compute. reflexivity.
    + exists [("registrations", JList [JStr "4X-BHS"])].
      split; [reflexivity|]. split; reflexivity.
Defined.

(** ** Malformed rules (C7) *)

(** C7, counterexample: a pattern with an unclosed parenthesis stops the
    evaluation with [re.error], which carries the joined alternation and
    says nothing of the rule; a rule whose positive_patterns is the string
    "fuel" and whose threshold is the string "2" raises nothing at all: the
    string is read as the patterns f, u, e, l and the threshold as 2, and
    the text "full" is decided FOUND. *)
Lemma malformed_rule_not_rejected :
  (Re.compile "(reserve" any_regex_flags
   = Raise (re_error "missing ), unterminated subpattern" "(reserve")
   /\ evaluate_rule_semantic unbalanced_rule fuel_text JNull
      = Raise (re_error "missing ), unterminated subpattern" "(fuel|(reserve)")
   /\ ~ rejected_with_typed_error unbalanced_rule fuel_text JNull)
  /\ ((exists o, evaluate_rule_semantic misshapen_rule "full" JNull = Ok o
                 /\ decision o = FOUND)
      /\ ~ rejected_with_typed_error misshapen_rule "full" JNull).
Proof.
  split; [split; [|split]|split].
  - vm_compute. reflexivity.
  - vm_compute. reflexivity.
  - intros (e & E & C). vm_compute in E. injection E as <-.
    destruct C as [C|C]; discriminate C.
  - eexists. split; [vm_compute; reflexivity|reflexivity].
  - intros (e & E & _). vm_compute in E. discriminate E.
Qed.

Lemma modelled_raise {A : Type} (e : exn) :
  modelled (@Raise A e) -> is_exception e.
Proof. destruct e; intros H; exact H. Qed.

(** A comprehension raises the exception of its first item that raises. *)
Lemma mapM_raises {A B : Type} (f : A -> result B) (l : list A) (x : A) :
  Forall (fun y => modelled (f y)) l ->
  In x l -> raises (f x) ->
  exists e, is_exception e /\ mapM f l = Raise e.
Proof.
  induction l as [|y l IH]; intros M I H; [contradiction|].
  inversion M as [|? ? My Ml]; subst.
  cbn [mapM]. unfold bind.
  destruct (f y) as [b|e] eqn:E.
  - destruct I as [->|I]; [rewrite E in H; contradiction|].
    destruct (IH Ml I H) as (e & X & ->). exists e. split; [exact X|reflexivity].
  - exists e. split; [apply (modelled_raise e My)|reflexivity].
Qed.

Lemma mapM_nth {A B : Type} (f : A -> result B) (l : list A) (ys : list B)
      (i : nat) (x : A) :
  mapM f l = Ok ys ->
  nth_error l i = Some x ->
  exists y, nth_error ys i = Some y /\ f x = Ok y.
Proof.
  revert ys i. induction l as [|a l IH]; intros ys i M N.
  - destruct i; discriminate.
  - cbn [mapM] in M. unfold bind in M.
    destruct (f a) as [b|] eqn:E; [|discriminate].
    destruct (mapM f l) as [bs|]; [|discriminate].
    injection M as <-.
    destruct i as [|i]; cbn [nth_error] in *.
    + injection N as <-. exists b. split; [reflexivity|exact E].
    + apply (IH bs i eq_refl N).
Qed.

Lemma mapM_length {A B : Type} (f : A -> result B) (l : list A) (ys : list B) :
  mapM f l = Ok ys -> List.length ys = List.length l.
Proof.
  revert ys. induction l as [|a l IH]; intros ys M.
  - injection M as <-. reflexivity.
  - cbn [mapM] in M. unfold bind in M.
    destruct (f a); [|discriminate].
    destruct (mapM f l) as [bs|]; [|discriminate].
    injection M as <-. cbn [List.length]. rewrite (IH bs eq_refl). reflexivity.
Qed.

(** The [re.error] of [any_regex] is the one of the alternation of the
    truthy items of the pattern field. *)
Lemma any_regex_error (patterns : json) (msg p : string) :
  any_regex patterns = Raise (re_error msg p) ->
  exists items strs,
    iterate (py_or patterns (JList [])) = Ok items
    /\ mapM expect_str (filter truthy items) = Ok strs
    /\ p = ("(" ++ join "|" strs ++ ")")%string
    /\ Re.compile p any_regex_flags = Raise (re_error msg p).
Proof.
  unfold any_regex, bind.
  destruct (iterate _) as [ps|e] eqn:I.
  2:{ intros H. exfalso. injection H as ->.
      destruct (py_or patterns (JList [])); discriminate I. }
  destruct (filter truthy ps) eqn:T; [discriminate|].
  destruct (mapM expect_str _) as [strs|e] eqn:M.
  - intros H. exists ps, strs.
    destruct (Re.compile _ any_regex_flags) as [c|e] eqn:C; [discriminate|].
    injection H as ->.
    assert (E : p = ("(" ++ join "|" strs ++ ")")%string).
    { unfold Re.compile in C.
      destruct (Re.parse _) as [| |[|]|]; try discriminate.
      injection C as _ <-. reflexivity. }
    split; [reflexivity|]. split; [rewrite T; exact M|].
    split; [exact E|]. rewrite E at 1. exact C.
  - intros H. exfalso. injection H as ->. clear - M.
    revert M. generalize (j :: l). intros l0. revert msg p.
    assert (G : forall e, mapM expect_str l0 = Raise e -> e = TypeError).
    { induction l0 as [|x l0 IH]; intros e; [discriminate|].
      cbn [mapM]. unfold bind.
      destruct x; cbn [expect_str]; try (intros H; injection H as <-; reflexivity).
      destruct (mapM expect_str l0); [discriminate|].
      intros H. injection H as <-. apply IH. reflexivity. }
    intros msg p M. apply G in M. discriminate M.
Qed.

(** The exceptions of [int()], and the values on which it raises them. *)
Lemma py_int_error (v : json) (e : exn) :
  py_int v = Raise e ->
  (e = ValueError
   /\ ((exists s, v = JStr s /\ int_of_str s = None) \/ v = JNaN))
  \/ (e = TypeError
      /\ (v = JNull \/ (exists l, v = JList l) \/ exists d, v = JDict d))
  \/ (e = OverflowError /\ exists negative, v = JInfinity negative).
Proof.
  destruct v as [| b | z | q | n | | s | l | d]; cbn [py_int]; try discriminate.
  - intros H. injection H as <-. right. left. auto.
  - intros H. injection H as <-. right. right. eauto.
  - intros H. injection H as <-. left. auto.
  - destruct (int_of_str s) eqn:E; [discriminate|].
    intros H. injection H as <-. left. split; [reflexivity|]. eauto.
  - intros H. injection H as <-. right. left. eauto.
  - intros H. injection H as <-. right. left. eauto.
Qed.

(** [int()] converts every integer, boolean and finite float. *)
Lemma py_int_number (v : json) :
  (exists z, v = JInt z) \/ (exists b, v = JBool b) \/ (exists q, v = JFloat q) ->
  exists z, py_int v = Ok z.
Proof.
  intros [(z & ->) | [(b & ->) | (q & ->)]]; eexists; reflexivity.
Qed.

(** The evaluator reads eight keys of the rule; ["id"] is none of them. *)
Lemma rule_id_not_read (rule rule' : dict) (doc_text : string) (ops_facts : json) :
  (forall k, k <> "id" -> lookup rule' k = lookup rule k) ->
  evaluate_rule_semantic rule' doc_text ops_facts
  = evaluate_rule_semantic rule doc_text ops_facts.
Proof.
  intros H. unfold evaluate_rule_semantic, read_settings, get.
  rewrite (H "checks"), (H "rule_type"), (H "positive_patterns"),
          (H "negative_patterns"), (H "forbidden_claims"), (H "threshold"),
          (H "negation_window_tokens"), (H "ops_facts")
    by discriminate.
  reflexivity.
Qed.

(** C7, amended: malformed rule input is not validated; it surfaces, if at
    all, as the built-in exception of the operation that fails, which names
    no rule.
    - On the semantic path an exception raised while the rule is read
      (compiling the three pattern lists, converting threshold and
      negation_window_tokens with [int()]) leaves the evaluator unchanged.
    - When [any_regex] raises [re.error], the error is the one of
      [re.compile] on the alternation of all the truthy items of the
      pattern field, and it carries that whole alternation.
    - [int()] raises ValueError for a string that is not a decimal integer
      and for a NaN, TypeError for null, a list or a dict, OverflowError
      for an infinite float; integers, booleans and finite floats are
      converted.
    - The outcome and the exception do not depend on the id of the rule.
    - In [main], when the row of some rule raises an exception, [main]
      raises the exception of the first such row and [to_excel] is not
      called, whatever it would do; when no row raises, [to_excel] is
      called with one row per rule.
    - A pattern field that is a string is read as the list of its
      characters.
    - A rule with legacy checks is evaluated without reading any of this. *)
Theorem malformed_rule_errors (rule : dict) (doc_text : string) (ops_facts : json) :
  (semantic_path rule ->
   forall e, is_exception e ->
             read_settings rule = Raise e ->
             evaluate_rule_semantic rule doc_text ops_facts = Raise e)
  /\ (forall patterns msg p,
        any_regex patterns = Raise (re_error msg p) ->
        exists items strs,
          iterate (py_or patterns (JList [])) = Ok items
          /\ mapM expect_str (filter truthy items) = Ok strs
          /\ p = ("(" ++ join "|" strs ++ ")")%string
          /\ Re.compile p any_regex_flags = Raise (re_error msg p))
  /\ (forall v,
        (forall e,
           py_int v = Raise e ->
           (e = ValueError
            /\ ((exists s, v = JStr s /\ int_of_str s = None) \/ v = JNaN))
           \/ (e = TypeError
               /\ (v = JNull \/ (exists l, v = JList l) \/ exists d, v = JDict d))
           \/ (e = OverflowError /\ exists negative, v = JInfinity negative))
        /\ ((exists z, v = JInt z) \/ (exists b, v = JBool b)
            \/ (exists q, v = JFloat q) ->
            exists z, py_int v = Ok z))
  /\ (forall rule',
        (forall k, k <> "id" -> lookup rule' k = lookup rule k) ->
        evaluate_rule_semantic rule' doc_text ops_facts
        = evaluate_rule_semantic rule doc_text ops_facts)
  /\ (forall cache rs r,
        Forall (fun r' => modelled (report_row cache ops_facts r')) rs ->
        In r rs ->
        raises (report_row cache ops_facts r) ->
        exists e,
          is_exception e
          /\ main (JList rs) ops_facts cache = Raise e
          /\ forall (file : Type) (to_excel : list ReportRow -> result file),
               main_to_excel to_excel (JList rs) ops_facts cache = Raise e)
  /\ (forall cache rs rows,
        main (JList rs) ops_facts cache = Ok rows ->
        List.length rows = List.length rs
        /\ forall (file : Type) (to_excel : list ReportRow -> result file),
             main_to_excel to_excel (JList rs) ops_facts cache = to_excel rows)
  /\ (forall s,
        any_regex (JStr s)
        = any_regex (JList (map (fun c => JStr (String c "")) (chars s))))
  /\ (truthy (get rule "checks" (JList [])) = true ->
      evaluate_rule_semantic rule doc_text ops_facts
      = legacy_path (get rule "checks" (JList [])) doc_text).
Proof.
  split; [|split; [|split; [|split; [|split; [|split; [|split]]]]]].
  - unfold semantic_path, evaluate_rule_semantic. intros -> e _ ->. reflexivity.
  - apply any_regex_error.
  - intros v. split; [apply py_int_error|apply py_int_number].
  - intros rule' H. apply rule_id_not_read. exact H.
  - intros cache rs r M I H.
    destruct (mapM_raises _ _ r M I H) as (e & X & E).
    exists e. split; [exact X|].
    unfold main_to_excel, main. cbn [rules_of iterate bind]. rewrite E.
    split; [reflexivity|]. intros file to_excel. reflexivity.
  - intros cache rs rows E. split.
    + revert E. unfold main. cbn [rules_of iterate bind]. apply mapM_length.
    + intros file to_excel. unfold main_to_excel. rewrite E. reflexivity.
  - intros s. destruct s as [|c s]; reflexivity.
  - apply legacy_path_taken.
Qed.

Lemma malformed_rule_errors_witness :
  evaluate_rule_semantic unbalanced_rule fuel_text JNull
  = Raise (re_error "missing ), unterminated subpattern" "(fuel|(reserve)")
  /\ evaluate_rule_semantic renamed_unbalanced_rule fuel_text JNull
     = evaluate_rule_semantic unbalanced_rule fuel_text JNull
  /\ (forall (file : Type) (to_excel : list ReportRow -> result file),
        main_to_excel to_excel (JList [JDict fuel_rule; JDict unbalanced_rule])
                      JNull [("OpsSpecs", fuel_text)]
        = Raise (re_error "missing ), unterminated subpattern" "(fuel|(reserve)")).
Proof.
  destruct (malformed_rule_errors unbalanced_rule fuel_text JNull)
    as (Read & _ & _ & Id & Abort & _).
  split; [|split].
  - apply Read; [reflexivity|exact I|]. vm_compute. reflexivity.
  - apply Id. intros k N. cbn [lookup renamed_unbalanced_rule unbalanced_rule].
    destruct (String.eqb_spec "id" k) as [<-|_]; [contradiction|reflexivity].
  - destruct (Abort [("OpsSpecs", fuel_text)]
                    [JDict fuel_rule; JDict unbalanced_rule]
                    (JDict unbalanced_rule)) as (e & _ & E & W).
    + repeat constructor; vm_compute; exact I.
    + right. left. reflexivity.
    + vm_compute. exact I.
    + intros file to_excel. rewrite W. f_equal.
      vm_compute in E. injection E as <-. reflexivity.
Defined.

(** ** Determinism (C8) *)

(** *** The order of strings *)

Lemma ascii_compare_refl (a : ascii) : Ascii.compare a a = Eq.
Proof. unfold Ascii.compare. apply N.compare_refl. Qed.

Lemma ascii_compare_lt_trans (a b c : ascii) :
  Ascii.compare a b = Lt -> Ascii.compare b c = Lt -> Ascii.compare a c = Lt.
Proof.
  unfold Ascii.compare. rewrite !N.compare_lt_iff. lia.
Qed.

Lemma string_compare_refl (s : string) : String.compare s s = Eq.
Proof.
  induction s as [|c s IH]; [reflexivity|].
  cbn [String.compare]. rewrite ascii_compare_refl. exact IH.
Qed.

Lemma string_lt_trans (a b c : string) :
  String.compare a b = Lt -> String.compare b c = Lt -> String.compare a c = Lt.
Proof.
  revert b c. induction a as [|x a IH]; intros [|y b] [|z c]; cbn [String.compare];
    try discriminate; try reflexivity.
  destruct (Ascii.compare x y) eqn:XY; try discriminate.
  - apply Ascii.compare_eq_iff in XY. subst y.
    destruct (Ascii.compare x z); try discriminate; [apply IH|reflexivity].
  - intros _. destruct (Ascii.compare y z) eqn:YZ; try discriminate.
    + apply Ascii.compare_eq_iff in YZ. subst z. rewrite XY. reflexivity.
    + rewrite (ascii_compare_lt_trans _ _ _ XY YZ). reflexivity.
Qed.

Lemma ascending_unique (l1 l2 : list string) :
  ascending l1 -> ascending l2 ->
  (forall x, In x l1 <-> In x l2) ->
  l1 = l2.
Proof.
  revert l2. induction l1 as [|x l1 IH]; intros l2 A1 A2 S.
  - destruct l2 as [|y l2]; [reflexivity|].
    exfalso. apply (S y). left. reflexivity.
  - destruct l2 as [|y l2]; [exfalso; apply (S x); left; reflexivity|].
    destruct A1 as (X & A1). destruct A2 as (Y & A2).
    assert (E : x = y).
    { destruct (proj1 (S x) (or_introl eq_refl)) as [E|I]; [auto|].
      destruct (proj2 (S y) (or_introl eq_refl)) as [E|J]; [auto|].
      pose proof (Y _ I) as P1. pose proof (X _ J) as P2.
      unfold precedes in *.
      pose proof (string_lt_trans _ _ _ P1 P2) as P3.
      rewrite string_compare_refl in P3. discriminate. }
    subst y. f_equal. apply IH; [exact A1|exact A2|].
    intros z. split; intros I.
    + destruct (proj1 (S z) (or_intror I)) as [E|J]; [|exact J].
      subst z. pose proof (X _ I) as P. unfold precedes in P.
      rewrite string_compare_refl in P. discriminate.
    + destruct (proj2 (S z) (or_intror I)) as [E|J]; [|exact J].
      subst z. pose proof (Y _ I) as P. unfold precedes in P.
      rewrite string_compare_refl in P. discriminate.
Qed.

Lemma ascending_insert_sorted (x : string) (l : list string) :
  ascending l -> ascending (insert_sorted x l).
Proof.
  induction l as [|y l IH]; intros A; [split; [intros ? []|exact I]|].
  cbn [insert_sorted].
  destruct (String.eqb_spec x y) as [E|N]; [exact A|].
  unfold String.ltb. destruct (String.compare x y) eqn:C.
  - apply String.compare_eq_iff in C. contradiction.
  - cbn [ascending]. split; [|exact A].
    intros z [<-|I]; [exact C|].
    destruct A as (Y & _). apply (string_lt_trans _ _ _ C (Y _ I)).
  - destruct A as (Y & A). cbn [ascending]. split; [|apply IH; exact A].
    intros z I. apply in_insert_sorted in I. destruct I as [->|I]; [|apply Y; exact I].
    unfold precedes. rewrite String.compare_antisym, C. reflexivity.
Qed.

Lemma ascending_sorted_set (l : list string) : ascending (sorted_set l).
Proof.
  induction l as [|x l IH]; [exact I|].
  cbn [sorted_set fold_right]. apply ascending_insert_sorted. exact IH.
Qed.

Lemma in_insert_ordered (x y : string) (l : list string) :
  In x (Stored.insert_ordered y l) <-> x = y \/ In x l.
Proof.
  induction l as [|z l IH]; cbn [Stored.insert_ordered In]; [intuition|].
  destruct (String.leb y z); cbn [In]; [intuition|].
  rewrite IH. intuition.
Qed.

Lemma in_sorted (x : string) (l : list string) :
  In x (Stored.sorted l) <-> In x l.
Proof.
  induction l as [|y l IH]; [reflexivity|].
  cbn [Stored.sorted fold_right In]. fold (Stored.sorted l).
  rewrite in_insert_ordered, IH. intuition.
Qed.

Lemma ascending_insert_ordered (x : string) (l : list string) :
  ~ In x l -> ascending l -> ascending (Stored.insert_ordered x l).
Proof.
  induction l as [|y l IH]; intros N A; [split; [intros ? []|exact I]|].
  cbn [Stored.insert_ordered].
  assert (D : x <> y) by (intros ->; apply N; left; reflexivity).
  unfold String.leb. destruct (String.compare x y) eqn:C.
  - apply String.compare_eq_iff in C. contradiction.
  - cbn [ascending]. split; [|exact A].
    intros z [<-|I]; [exact C|].
    destruct A as (Y & _). apply (string_lt_trans _ _ _ C (Y _ I)).
  - destruct A as (Y & A). cbn [ascending]. split.
    + intros z I. apply in_insert_ordered in I.
      destruct I as [->|I]; [|apply Y; exact I].
      unfold precedes. rewrite String.compare_antisym, C. reflexivity.
    + apply IH; [|exact A]. intros I. apply N. right. exact I.
Qed.

Lemma ascending_sorted (l : list string) : NoDup l -> ascending (Stored.sorted l).
Proof.
  induction 1 as [|x l N D IH]; [exact I|].
  cbn [Stored.sorted fold_right]. fold (Stored.sorted l).
  apply ascending_insert_ordered; [|exact IH].
  rewrite in_sorted. exact N.
Qed.

(** Sorting a set gives the same list whatever the order of its iteration. *)
Lemma sorted_order (order : list string -> list string) (l : list string) :
  enumerates order -> Stored.sorted (order l) = sorted_set l.
Proof.
  intros E. destruct (E l) as (D & S).
  apply ascending_unique.
  - apply ascending_sorted. exact D.
  - apply ascending_sorted_set.
  - intros x. rewrite in_sorted, in_sorted_set. apply S.
Qed.

Lemma existsb_same_items {A : Type} (f : A -> bool) (l1 l2 : list A) :
  (forall x, In x l1 <-> In x l2) -> existsb f l1 = existsb f l2.
Proof.
  intros S. apply eq_true_iff_eq. rewrite !existsb_exists.
  split; intros (x & I & F); exists x; (split; [apply S; exact I|exact F]).
Qed.

Lemma existsb_order {order : list string -> list string} (f : string -> bool)
      (l : list string) :
  enumerates order -> existsb f (order l) = existsb f l.
Proof. intros E. apply existsb_same_items. apply (E l). Qed.

(** *** The list objects *)

Lemma nth_fresh (h : Stored.heap) (a : list string) (t : Stored.heap) :
  nth (List.length h) (h ++ a :: t) [] = a.
Proof. rewrite app_nth2, Nat.sub_diag by lia. reflexivity. Qed.

Lemma store_fresh (h : Stored.heap) (v a : list string) (t : Stored.heap) :
  Stored.store (List.length h) v (h ++ a :: t) = h ++ v :: t.
Proof.
  induction h as [|x h IH]; [reflexivity|].
  cbn [List.length app Stored.store]. rewrite IH. reflexivity.
Qed.

Lemma nth_fresh1 (h : Stored.heap) (a b : list string) (t : Stored.heap) :
  nth (S (List.length h)) (h ++ a :: b :: t) [] = b.
Proof.
  change (h ++ a :: b :: t) with (h ++ [a] ++ b :: t).
  rewrite app_assoc.
  replace (S (List.length h)) with (List.length (h ++ [a]))
    by (rewrite length_app; cbn; lia).
  apply nth_fresh.
Qed.

Lemma store_fresh1 (h : Stored.heap) (v a b : list string) (t : Stored.heap) :
  Stored.store (S (List.length h)) v (h ++ a :: b :: t) = h ++ a :: v :: t.
Proof.
  change (h ++ a :: b :: t) with (h ++ [a] ++ b :: t).
  rewrite app_assoc.
  replace (S (List.length h)) with (List.length (h ++ [a]))
    by (rewrite length_app; cbn; lia).
  rewrite store_fresh, <- app_assoc. reflexivity.
Qed.

Lemma nth_fresh2 (h : Stored.heap) (a b c : list string) (t : Stored.heap) :
  nth (S (S (List.length h))) (h ++ a :: b :: c :: t) [] = c.
Proof.
  change (h ++ a :: b :: c :: t) with (h ++ [a] ++ b :: c :: t).
  rewrite app_assoc.
  replace (S (S (List.length h))) with (S (List.length (h ++ [a])))
    by (rewrite length_app; cbn; lia).
  apply nth_fresh1.
Qed.

Lemma store_fresh2 (h : Stored.heap) (v a b c : list string) (t : Stored.heap) :
  Stored.store (S (S (List.length h))) v (h ++ a :: b :: c :: t)
  = h ++ a :: b :: v :: t.
Proof.
  change (h ++ a :: b :: c :: t) with (h ++ [a] ++ b :: c :: t).
  rewrite app_assoc.
  replace (S (S (List.length h))) with (S (List.length (h ++ [a])))
    by (rewrite length_app; cbn; lia).
  rewrite store_fresh1, <- app_assoc. reflexivity.
Qed.

Lemma length_two (h : Stored.heap) (a b : list string) :
  List.length (h ++ [a; b]) = S (S (List.length h)).
Proof. rewrite length_app. cbn. lia. Qed.

Lemma length_three (h : Stored.heap) (a b c : list string) :
  List.length (h ++ [a; b; c]) = S (S (S (List.length h))).
Proof. rewrite length_app. cbn. lia. Qed.

(** The loop over the forbidden matches (lines 189-191). *)
Lemma forbidden_loop_stored (doc_text : string) (ms : list Re.Match) (h : Stored.heap)
      (P F : list string) (t : Stored.heap) :
  Stored.for_each ms
    (fun (_ : unit) m =>
       Stored.append (S (List.length h))
                     (snippet doc_text (Re.m_start m) (Re.m_end m)))
    tt (h ++ P :: F :: t)
  = (Ok tt,
     h ++ P :: (F ++ map (fun m => snippet doc_text (Re.m_start m) (Re.m_end m)) ms)
       :: t).
Proof.
  revert F. induction ms as [|m ms IH]; intros F.
  - cbn. rewrite app_nil_r. reflexivity.
  - cbn [Stored.for_each map]. unfold Stored.then_ at 1.
    unfold Stored.append, Stored.extend.
    rewrite nth_fresh1, store_fresh1, IH, <- app_assoc. reflexivity.
Qed.

(** The loop over the positive matches (lines 204-213). *)
Lemma positive_loop_stored (st : Settings) (doc_text : string) (ms : list Re.Match)
      (h : Stored.heap) (ev : Evidence) (t : Stored.heap) :
  Stored.for_each ms
    (fun '(pos_hits, first_pattern) m =>
       let snip := snippet doc_text (Re.m_start m) (Re.m_end m) in
       if negb (window_has_negative doc_text m (neg_re st) (char_window st))
       then Stored.then_ (Stored.append (List.length h) snip)
              (fun _ =>
                 Stored.ret ((pos_hits + 1)%Z,
                             if String.eqb first_pattern "" then Re.group0 doc_text m
                             else first_pattern))
       else Stored.then_ (Stored.append (S (List.length h)) snip)
              (fun _ => Stored.ret (pos_hits, first_pattern)))
    (pos_hits ev, first_pattern ev)
    (h ++ matched_positive_snips ev :: matched_forbidden_snips ev :: t)
  = let ev' := fold_left (positive_step doc_text (neg_re st) (char_window st)) ms ev in
    (Ok (pos_hits ev', first_pattern ev'),
     h ++ matched_positive_snips ev' :: matched_forbidden_snips ev' :: t).
Proof.
  revert ev. induction ms as [|m ms IH]; intros ev; [reflexivity|].
  cbn [Stored.for_each fold_left]. rewrite <- IH.
  unfold Stored.then_ at 1. unfold positive_step.
  destruct (negb (window_has_negative doc_text m (neg_re st) (char_window st)));
    unfold Stored.then_ at 1; unfold Stored.append, Stored.extend, Stored.ret;
    cbn [pos_hits first_pattern matched_positive_snips matched_forbidden_snips].
  - rewrite nth_fresh, store_fresh. reflexivity.
  - rewrite nth_fresh1, store_fresh1. reflexivity.
Qed.

Lemma extras_order (order : list string -> list string)
      (names found : list string) :
  enumerates order ->
  filter (fun r => negb (member (upper r) (order (map upper names))))
         (Stored.sorted (order found))
  = filter (fun r => negb (member (upper r) (map upper names))) (sorted_set found).
Proof.
  intros E. rewrite (sorted_order order found E).
  apply filter_ext. intros r. unfold member.
  rewrite (existsb_order _ _ E). reflexivity.
Qed.

Lemma check_alignment_blocks (of_ : json) (doc_text : string) :
  check_alignment of_ doc_text
  = (rv <- method_get of_ "registrations" ;;
     '(notes1, extras) <- registrations_check (py_or rv (JList [])) doc_text ;;
     av <- method_get of_ "area" ;;
     notes2 <- area_check av doc_text ;;
     Ok (notes1 ++ notes2, extras)).
Proof. reflexivity. Qed.

(** *** Runs on the heap *)

(** The steps of a run. *)
Lemma then_lift {A B : Type} (r : result A) (k : A -> Stored.run B)
      (h : Stored.heap) :
  Stored.then_ (Stored.lift r) k h
  = match r with
    | Ok a => k a h
    | Raise e => (Raise e, h)
    end.
Proof. destruct r; reflexivity. Qed.

Lemma then_new_list {B : Type} (k : Stored.ref -> Stored.run B) (h : Stored.heap) :
  Stored.then_ Stored.new_list k h = k (List.length h) (h ++ [[]]).
Proof. reflexivity. Qed.

Lemma then_contents {B : Type} (r : Stored.ref) (k : list string -> Stored.run B)
      (h : Stored.heap) :
  Stored.then_ (Stored.contents r) k h = k (nth r h []) h.
Proof. reflexivity. Qed.

Lemma then_extend {B : Type} (r : Stored.ref) (xs : list string)
      (k : unit -> Stored.run B) (h : Stored.heap) :
  Stored.then_ (Stored.extend r xs) k h
  = k tt (Stored.store r (nth r h [] ++ xs) h).
Proof. reflexivity. Qed.

Lemma then_returns {A B : Type} (m : Stored.run A) (k : A -> Stored.run B)
      (h h' : Stored.heap) (a : A) :
  m h = (Ok a, h') -> Stored.then_ m k h = k a h'.
Proof. unfold Stored.then_. intros ->. reflexivity. Qed.

Lemma then_raises {A B : Type} (m : Stored.run A) (k : A -> Stored.run B)
      (h h' : Stored.heap) (e : exn) :
  m h = (Raise e, h') -> Stored.then_ m k h = (Raise e, h').
Proof. unfold Stored.then_. intros ->. reflexivity. Qed.

Ltac heap_step :=
  repeat first
    [ rewrite nth_fresh2 | rewrite store_fresh2
    | rewrite nth_fresh1 | rewrite store_fresh1
    | rewrite nth_fresh | rewrite store_fresh ].

(** Lines 219-230 on the three lists of a run. *)
Lemma registrations_stored (order : list string -> list string) (regs : json)
      (doc_text : string) (h : Stored.heap) (P F : list string) :
  enumerates order ->
  Stored.registrations_block order regs doc_text
    (S (S (List.length h))) (S (List.length h)) (h ++ [P; F; []])
  = match registrations_check regs doc_text with
    | Ok (notes1, extras) => (Ok tt, h ++ [P; F ++ extras; notes1])
    | Raise e => (Raise e, h ++ [P; F; []])
    end.
Proof.
  intros E. unfold Stored.registrations_block, registrations_check.
  destruct (truthy regs); [|cbn; rewrite app_nil_r; reflexivity].
  rewrite then_lift. unfold bind at 1.
  destruct (iterate regs) as [rs|e]; [|reflexivity].
  rewrite then_lift. unfold bind at 1.
  destruct (mapM expect_str rs) as [names|e]; [|reflexivity].
  cbv zeta. rewrite (extras_order order names _ E).
  destruct (nonempty (filter (fun r => negb (mentions doc_text r)) names)).
  - unfold Stored.append. rewrite then_extend. heap_step.
    destruct (filter (fun r => negb (member (upper r) (map upper names)))
                     (sorted_set (Re.findall registration_shape doc_text)));
      cbn [nonempty map].
    + unfold Stored.ret. rewrite app_nil_r. reflexivity.
    + unfold Stored.extend. heap_step. reflexivity.
  - unfold Stored.then_ at 1. unfold Stored.ret at 1.
    destruct (filter (fun r => negb (member (upper r) (map upper names)))
                     (sorted_set (Re.findall registration_shape doc_text)));
      cbn [nonempty map].
    + unfold Stored.ret. rewrite app_nil_r. reflexivity.
    + unfold Stored.extend. heap_step. reflexivity.
Qed.

(** Lines 231-235. *)
Lemma area_stored (order : list string -> list string) (av : json)
      (doc_text : string) (h : Stored.heap) (P F N : list string) :
  enumerates order ->
  Stored.area_block order av doc_text (S (S (List.length h))) (h ++ [P; F; N])
  = match area_check av doc_text with
    | Ok notes2 => (Ok tt, h ++ [P; F; N ++ notes2])
    | Raise e => (Raise e, h ++ [P; F; N])
    end.
Proof.
  intros E. unfold Stored.area_block, area_check.
  destruct (truthy av); [|cbn; rewrite app_nil_r; reflexivity].
  rewrite then_lift. unfold bind at 1.
  destruct (iterate av) as [xs|e]; [|reflexivity].
  rewrite then_lift. unfold bind at 1.
  destruct (mapM method_upper xs) as [uppers|e]; [|reflexivity].
  cbv zeta. rewrite (existsb_order _ _ E).
  destruct (negb (existsb (mentions doc_text) uppers)).
  - unfold Stored.append, Stored.extend. heap_step. reflexivity.
  - cbn. rewrite app_nil_r. reflexivity.
Qed.

(** The alignment block on the three lists of a run (lines 217-235). *)
Lemma check_alignment_stored (order : list string -> list string) (of_ : json)
      (doc_text : string) (h : Stored.heap) (P F : list string) :
  enumerates order ->
  exists F' N,
    Stored.check_alignment order of_ doc_text
      (S (S (List.length h))) (S (List.length h)) (h ++ [P; F; []])
    = (match check_alignment of_ doc_text with
       | Ok _ => Ok tt
       | Raise e => Raise e
       end,
       h ++ [P; F'; N])
    /\ forall notes extras,
         check_alignment of_ doc_text = Ok (notes, extras) ->
         F' = F ++ extras /\ N = notes.
Proof.
  intros E. rewrite check_alignment_blocks. unfold Stored.check_alignment.
  rewrite then_lift.
  destruct (method_get of_ "registrations") as [rv|e]; cbn [bind];
    [|exists F, []; split; [reflexivity|discriminate]].
  unfold Stored.then_ at 1. rewrite (registrations_stored _ _ _ _ _ _ E).
  destruct (registrations_check (py_or rv (JList [])) doc_text)
    as [[notes1 extras]|e]; cbn [bind];
    [|exists F, []; split; [reflexivity|discriminate]].
  rewrite then_lift.
  destruct (method_get of_ "area") as [av|e]; cbn [bind];
    [|exists (F ++ extras), notes1; split; [reflexivity|discriminate]].
  rewrite (area_stored _ _ _ _ _ _ _ E).
  destruct (area_check av doc_text) as [notes2|e]; cbn [bind].
  - exists (F ++ extras), (notes1 ++ notes2). split; [reflexivity|].
    intros notes extras' H. injection H as <- <-. split; reflexivity.
  - exists (F ++ extras), notes1. split; [reflexivity|discriminate].
Qed.

Lemma length_snoc (h : Stored.heap) (a : list string) :
  List.length (h ++ [a]) = S (List.length h).
Proof. rewrite length_app. cbn. lia. Qed.

Ltac read_dict :=
  unfold Stored.returned, Stored.value;
  cbn [Stored.d_decision Stored.d_matched_positive Stored.d_matched_forbidden
       Stored.d_matched_pattern Stored.d_confidence Stored.d_notes].

Ltac dict_in_heap :=
  unfold in_heap;
  cbn [Stored.d_matched_positive Stored.d_matched_forbidden];
  rewrite ?length_app; cbn [List.length]; try exact I; lia.

(** Lines 256-282 on the lists of a run. *)
Lemma final_decision_stored (st : Settings) (ev : Evidence) (h : Stored.heap)
      (t : Stored.heap) :
  exists r objects,
    Stored.final_decision st (pos_hits ev) (first_pattern ev)
      (List.length h) (S (List.length h))
      (h ++ matched_positive_snips ev :: matched_forbidden_snips ev :: t)
    = (r, (h ++ matched_positive_snips ev :: matched_forbidden_snips ev :: t)
          ++ objects)
    /\ Stored.returned
         (r, (h ++ matched_positive_snips ev :: matched_forbidden_snips ev :: t)
             ++ objects)
       = final_decision st ev
    /\ in_heap ((h ++ matched_positive_snips ev :: matched_forbidden_snips ev :: t)
                ++ objects) r.
Proof.
  unfold Stored.final_decision, final_decision.
  set (h0 := h ++ matched_positive_snips ev :: matched_forbidden_snips ev :: t).
  assert (L0 : S (List.length h) < List.length h0).
  { unfold h0. rewrite length_app. cbn [List.length]. lia. }
  assert (NP : forall objects,
             nth (List.length h) (h0 ++ objects) [] = matched_positive_snips ev).
  { intros objects. unfold h0. rewrite <- app_assoc. cbn [app]. apply nth_fresh. }
  assert (NF : forall objects,
             nth (S (List.length h)) (h0 ++ objects) [] = matched_forbidden_snips ev).
  { intros objects. unfold h0. rewrite <- app_assoc. cbn [app]. apply nth_fresh1. }
  destruct (threshold st <=? pos_hits ev)%Z.
  - rewrite then_new_list, then_lift. unfold bind.
    destruct (surplus (pos_hits ev) (threshold st)) as [x|e].
    + eexists _, [[]]. unfold Stored.ret. split; [reflexivity|]. split.
      * read_dict. rewrite NP, nth_fresh. reflexivity.
      * dict_in_heap.
    + eexists _, [[]]. split; [reflexivity|]. split; [reflexivity|exact I].
  - rewrite !then_contents.
    pose proof (NP []) as NP0. pose proof (NF []) as NF0.
    rewrite app_nil_r in NP0, NF0. rewrite NP0, NF0.
    destruct (nonempty (matched_positive_snips ev)
              && nonempty (matched_forbidden_snips ev)).
    + eexists _, []. unfold Stored.ret. rewrite app_nil_r.
      split; [reflexivity|]. split.
      * read_dict. rewrite NP0, NF0. reflexivity.
      * dict_in_heap.
    + rewrite !then_new_list. eexists _, [[]; []]. unfold Stored.ret.
      rewrite length_snoc.
      replace ((h0 ++ [[]]) ++ [[]]) with (h0 ++ [[]; []])
        by (rewrite <- app_assoc; reflexivity).
      split; [reflexivity|]. split.
      * read_dict. rewrite nth_fresh, nth_fresh1. reflexivity.
      * dict_in_heap.
Qed.

(** Lines 184-282: the run leaves the objects that it found untouched, and
    what it returns is the value of the function. *)
Lemma evaluate_settings_stored (order : list string -> list string)
      (st : Settings) (rule_facts : json) (doc_text : string) (ops_facts : json)
      (h : Stored.heap) :
  enumerates order ->
  exists r objects,
    Stored.evaluate_settings order st rule_facts doc_text ops_facts h
    = (r, h ++ objects)
    /\ Stored.returned (r, h ++ objects)
       = evaluate_settings st rule_facts doc_text ops_facts
    /\ in_heap (h ++ objects) r.
Proof.
  intros E. unfold Stored.evaluate_settings, evaluate_settings.
  rewrite !then_new_list, length_snoc, <- app_assoc. cbn [app].
  rewrite (then_returns _ _ _ _ _ (forbidden_loop_stored doc_text _ h [] [] [])).
  rewrite then_contents, nth_fresh1. cbn [app].
  fold (forbidden_snips (forbid_re st) doc_text).
  set (F := forbidden_snips (forbid_re st) doc_text).
  rewrite then_lift.
  destruct (if nonempty F then known_rule_type (rule_type st) else Ok false)
    as [[|]|e]; cbn [bind].
  - rewrite then_new_list. unfold Stored.ret.
    exists (Ok {| Stored.d_decision := CONFLICT;
                  Stored.d_matched_positive := List.length (h ++ [[]; F]);
                  Stored.d_matched_forbidden := S (List.length h);
                  Stored.d_matched_pattern := "";
                  Stored.d_confidence := 0.95;
                  Stored.d_notes := "Forbidden claim(s) present" |}),
           [[]; F; []].
    rewrite <- app_assoc. split; [reflexivity|]. split.
    + read_dict. rewrite length_two, nth_fresh2, nth_fresh1. reflexivity.
    + dict_in_heap.
  - set (ev := positive_scan st doc_text F).
    pose proof (positive_loop_stored st doc_text (find_all (pos_re st) doc_text) h
                  {| pos_hits := 0; matched_positive_snips := [];
                     matched_forbidden_snips := F; first_pattern := "" |} [])
      as Loop.
    cbn [pos_hits first_pattern matched_positive_snips matched_forbidden_snips]
      in Loop.
    fold (positive_scan st doc_text F) in Loop. fold ev in Loop. cbv zeta in Loop.
    rewrite (then_returns _ _ _ _ _ Loop).
    rewrite then_new_list, length_two.
    replace ((h ++ [matched_positive_snips ev; matched_forbidden_snips ev]) ++ [[]])
      with (h ++ [matched_positive_snips ev; matched_forbidden_snips ev; []])
      by (rewrite <- app_assoc; reflexivity).
    destruct (aligned st rule_facts ops_facts).
    + destruct (check_alignment_stored order
                  (selected_facts rule_facts ops_facts) doc_text h
                  (matched_positive_snips ev) (matched_forbidden_snips ev) E)
        as (F' & N & Run & Spec).
      destruct (check_alignment (selected_facts rule_facts ops_facts) doc_text)
        as [[notes extras]|e]; cbn [bind].
      * destruct (Spec notes extras eq_refl) as (-> & ->).
        rewrite (then_returns _ _ _ _ _ Run).
        rewrite !then_contents, nth_fresh1, nth_fresh2.
        cbn [pos_hits matched_positive_snips matched_forbidden_snips first_pattern].
        destruct (nonempty (matched_forbidden_snips ev ++ extras)).
        -- unfold Stored.ret. eexists _, _. split; [reflexivity|]. split.
           ++ read_dict. rewrite nth_fresh, nth_fresh1. reflexivity.
           ++ dict_in_heap.
        -- destruct (nonempty notes && (pos_hits ev <? threshold st)%Z).
           ++ rewrite then_new_list, length_three. unfold Stored.ret.
              eexists _, _. rewrite <- app_assoc. split; [reflexivity|].
              split; [|dict_in_heap].
              read_dict. cbn [app].
              rewrite nth_fresh.
              replace (h ++ matched_positive_snips ev
                         :: (matched_forbidden_snips ev ++ extras) :: [notes; []])
                with ((h ++ [matched_positive_snips ev;
                             matched_forbidden_snips ev ++ extras; notes]) ++ [[]])
                by (rewrite <- app_assoc; reflexivity).
              rewrite <- (length_three h (matched_positive_snips ev)
                            (matched_forbidden_snips ev ++ extras) notes).
              rewrite nth_fresh. reflexivity.
           ++ destruct (final_decision_stored st
                          {| pos_hits := pos_hits ev;
                             matched_positive_snips := matched_positive_snips ev;
                             matched_forbidden_snips :=
                               matched_forbidden_snips ev ++ extras;
                             first_pattern := first_pattern ev |}
                          h [notes]) as (r & objects & Run' & Ret & In).
              cbn [pos_hits matched_positive_snips matched_forbidden_snips
                   first_pattern] in Run', Ret, In.
              rewrite Run'. exists r. eexists. rewrite <- app_assoc.
              split; [reflexivity|]. rewrite app_assoc.
              split; [rewrite <- Ret; reflexivity|exact In].
      * rewrite (then_raises _ _ _ _ _ Run). eexists _, _.
        split; [reflexivity|]. split; [reflexivity|exact I].
    + destruct (final_decision_stored st ev h [[]])
        as (r & objects & Run' & Ret & In).
      rewrite Run'. exists r. eexists. rewrite <- app_assoc.
      split; [reflexivity|]. rewrite app_assoc.
      split; [rewrite <- Ret; reflexivity|exact In].
  - eexists _, _. split; [reflexivity|]. split; [reflexivity|exact I].
Qed.

(** The whole evaluator on a heap. *)
Lemma evaluate_rule_semantic_stored (order : list string -> list string)
      (rule : dict) (doc_text : string) (ops_facts : json) (h : Stored.heap) :
  enumerates order ->
  exists r objects,
    Stored.evaluate_rule_semantic order rule doc_text ops_facts h
    = (r, h ++ objects)
    /\ Stored.returned (r, h ++ objects)
       = evaluate_rule_semantic rule doc_text ops_facts
    /\ in_heap (h ++ objects) r.
Proof.
  intros E. unfold Stored.evaluate_rule_semantic, evaluate_rule_semantic.
  destruct (truthy (get rule "checks" (JList []))).
  - unfold Stored.legacy_path, legacy_path.
    rewrite then_lift.
    destruct (iterate (get rule "checks" (JList []))) as [chks|e]; cbn [bind].
    2:{ exists (Raise e), []. rewrite app_nil_r.
        split; [reflexivity|]. split; [reflexivity|exact I]. }
    rewrite then_lift.
    destruct (legacy_scan chks doc_text) as [hit|e]; cbn [bind].
    2:{ exists (Raise e), []. rewrite app_nil_r.
        split; [reflexivity|]. split; [reflexivity|exact I]. }
    rewrite !then_new_list, length_snoc, <- app_assoc. cbn [app].
    destruct hit as [pat|]; unfold Stored.ret; eexists _, _;
      (split; [reflexivity|]); (split; [|dict_in_heap]);
      read_dict; rewrite nth_fresh, nth_fresh1; reflexivity.
  - rewrite then_lift.
    destruct (read_settings rule) as [st|e]; cbn [bind].
    + apply evaluate_settings_stored. exact E.
    + exists (Raise e), []. rewrite app_nil_r.
      split; [reflexivity|]. split; [reflexivity|exact I].
Qed.

Lemma value_kept (h objects : Stored.heap) (d : Stored.Dict) :
  in_heap h (Ok d) -> Stored.value (h ++ objects) d = Stored.value h d.
Proof.
  intros (P & F). unfold Stored.value.
  rewrite !app_nth1 by assumption. reflexivity.
Qed.

(** C8: two evaluations of the same inputs yield identical outcomes (or
    raise the same exception), whatever list objects exist when each of
    them starts, the heaps [h1] and [h2], and in whatever order each of
    them iterates its sets.  What the evaluator returns is the value of the
    function [evaluate_rule_semantic] of the rule, the text and the facts.
    The evaluator keeps no state: it creates its lists anew and leaves the
    objects that it finds untouched, so that the outcome of an evaluation
    reads the same after any later evaluation. *)
Theorem evaluation_is_deterministic (order1 order2 : list string -> list string)
        (h1 h2 : Stored.heap) (rule : dict) (doc_text : string) (ops_facts : json) :
  enumerates order1 ->
  enumerates order2 ->
  let run1 := Stored.evaluate_rule_semantic order1 rule doc_text ops_facts h1 in
  let run2 := Stored.evaluate_rule_semantic order2 rule doc_text ops_facts h2 in
  Stored.returned run1 = Stored.returned run2
  /\ Stored.returned run1 = evaluate_rule_semantic rule doc_text ops_facts
  /\ (exists objects, snd run1 = h1 ++ objects)
  /\ (forall d rule' doc_text' ops_facts',
        fst run1 = Ok d ->
        let later :=
          Stored.evaluate_rule_semantic order2 rule' doc_text' ops_facts' (snd run1) in
        Stored.value (snd later) d = Stored.value (snd run1) d).
Proof.
  intros E1 E2 run1 run2.
  destruct (evaluate_rule_semantic_stored order1 rule doc_text ops_facts h1 E1)
    as (r1 & objects1 & Run1 & Ret1 & In1).
  destruct (evaluate_rule_semantic_stored order2 rule doc_text ops_facts h2 E2)
    as (r2 & objects2 & Run2 & Ret2 & _).
  subst run1 run2. rewrite Run1, Run2, Ret1, Ret2. cbn [fst snd].
  split; [reflexivity|]. split; [reflexivity|].
  split; [exists objects1; reflexivity|].
  intros d rule' doc_text' ops_facts' ->. cbv zeta.
  destruct (evaluate_rule_semantic_stored order2 rule' doc_text' ops_facts'
              (h1 ++ objects1) E2) as (r & objects & Run & _).
  rewrite Run. cbn [snd]. apply value_kept. exact In1.
Qed.

Lemma enumerates_nodup : enumerates (nodup string_dec).
Proof.
  intros l. split; [apply NoDup_nodup|]. intros x. apply nodup_In.
Qed.

Lemma enumerates_reversed : enumerates (fun l => rev (nodup string_dec l)).
Proof.
  intros l. split; [apply NoDup_rev, NoDup_nodup|].
  intros x. rewrite <- in_rev. apply nodup_In.
Qed.

Lemma evaluation_is_deterministic_witness :
  Stored.returned
    (Stored.evaluate_rule_semantic (nodup string_dec)
       registration_rule "Fleet: 4X-ZZZ, 4X-BHS, 4X-AAA." JNull [])
  = Stored.returned
      (Stored.evaluate_rule_semantic (fun l => rev (nodup string_dec l))
         registration_rule "Fleet: 4X-ZZZ, 4X-BHS, 4X-AAA." JNull
         [["a list of an earlier run"]])
  /\ Stored.returned
       (Stored.evaluate_rule_semantic (nodup string_dec)
          registration_rule "Fleet: 4X-ZZZ, 4X-BHS, 4X-AAA." JNull [])
     = Ok {| decision := CONFLICT;
             matched_positive := [];
             matched_forbidden := ["Extra reg in manuals: 4X-AAA";
                                   "Extra reg in manuals: 4X-ZZZ"];
             matched_pattern := "";
             confidence := 0.9;
             notes := "Conflict with ops_facts" |}.
Proof.
  destruct (evaluation_is_deterministic
              (nodup string_dec) (fun l => rev (nodup string_dec l))
              [] [["a list of an earlier run"]]
              registration_rule "Fleet: 4X-ZZZ, 4X-BHS, 4X-AAA." JNull
              enumerates_nodup enumerates_reversed) as (Same & Value & _).
  split; [exact Same|].
  rewrite Value. vm_compute. reflexivity.
Defined.

(** * Further properties of the code *)

(** ** [find_all]: the matches of a text (lines 113-119) *)

Lemma scan_member (fl : Re.flags) (text : list ascii) (r : Re.regex)
      (fuel pos : nat) (must_advance : bool) (m : Re.Match) :
  pos <= List.length text ->
  In m (Re.scan fl text r fuel pos must_advance) ->
  pos <= Re.m_start m /\ Re.m_start m <= Re.m_end m
  /\ Re.m_end m <= List.length text
  /\ (must_advance = true -> pos < Re.m_end m).
Proof.
  revert pos must_advance. induction fuel as [|fuel IH]; intros pos ma L I;
    [contradiction|].
  cbn [Re.scan] in I.
  destruct (Re.search_at fl text r _ _ pos) as [[s e]|] eqn:S; [|contradiction].
  apply search_at_found in S. destruct S as (S1 & S2 & S3 & S4 & S5).
  assert (E : e <= List.length text) by (apply S5; lia).
  destruct I as [<-|I]; unfold Re.m_start, Re.m_end; cbn [fst snd].
  - repeat split; try lia. intros ->. cbn [andb] in S4.
    apply Nat.eqb_neq in S4. lia.
  - apply (IH e (e =? s) E) in I. unfold Re.m_start, Re.m_end in I.
    destruct I as (I1 & I2 & I3 & I4).
    repeat split; try lia. intros ->. cbn [andb] in S4.
    apply Nat.eqb_neq in S4. lia.
Qed.

Lemma scan_in_order (fl : Re.flags) (text : list ascii) (r : Re.regex)
      (fuel pos : nat) (must_advance : bool) :
  pos <= List.length text ->
  in_order pos (Re.scan fl text r fuel pos must_advance).
Proof.
  revert pos must_advance. induction fuel as [|fuel IH]; intros pos ma L;
    [exact I|].
  cbn [Re.scan].
  destruct (Re.search_at fl text r _ _ pos) as [[s e]|] eqn:S; [|exact I].
  apply search_at_found in S. destruct S as (S1 & S2 & S3 & S4 & S5).
  cbn [in_order]. unfold Re.m_start, Re.m_end. cbn [fst snd].
  repeat split; try lia. apply IH. apply S5. lia.
Qed.

Lemma scan_nodup (fl : Re.flags) (text : list ascii) (r : Re.regex)
      (fuel pos : nat) (must_advance : bool) :
  pos <= List.length text ->
  NoDup (Re.scan fl text r fuel pos must_advance).
Proof.
  revert pos must_advance. induction fuel as [|fuel IH]; intros pos ma L;
    [constructor|].
  cbn [Re.scan].
  destruct (Re.search_at fl text r _ _ pos) as [[s e]|] eqn:S; [|constructor].
  apply search_at_found in S. destruct S as (S1 & S2 & S3 & S4 & S5).
  assert (E : e <= List.length text) by (apply S5; lia).
  constructor; [|apply IH; exact E].
  intros I. apply (scan_member _ _ _ _ _ _ _ E) in I.
  unfold Re.m_start, Re.m_end in I. cbn [fst snd] in I.
  destruct I as (I1 & I2 & I3 & I4).
  assert (e = s) by lia. subst e.
  rewrite Nat.eqb_refl in I4. specialize (I4 eq_refl). lia.
Qed.

(** X1: the matches that [find_all] returns lie in the text, follow one
    another from left to right without overlap, and are all different. *)
Theorem find_all_in_order (pattern : option Re.Pattern) (text : string) :
  in_order 0 (find_all pattern text)
  /\ Forall (fun m => Re.m_end m <= String.length text) (find_all pattern text)
  /\ NoDup (find_all pattern text).
Proof.
  unfold find_all. destruct pattern as [p|]; [|repeat constructor].
  destruct (String.eqb text ""); [repeat constructor|].
  unfold Re.finditer. split; [|split].
  - apply scan_in_order. lia.
  - apply Forall_forall. intros m I.
    apply scan_member in I; [|lia].
    rewrite length_chars in I. apply I.
  - apply scan_nodup. lia.
Qed.

(** ** [snippet]: the evidence strings (lines 95-101) *)

Lemma length_str (l : list ascii) : String.length (str l) = List.length l.
Proof.
  unfold str. induction l as [|c l IH]; [reflexivity|].
  cbn. rewrite IH. reflexivity.
Qed.

Lemma length_substring (n m : nat) (s : string) :
  String.length (substring n m s) <= m.
Proof.
  revert n m. induction s as [|c s IH]; intros n m.
  - destruct n, m; cbn; lia.
  - destruct n as [|n].
    + destruct m as [|m]; cbn; [lia|]. specialize (IH 0 m). lia.
    + cbn. apply IH.
Qed.

Lemma prefix_of_length (p s : list ascii) :
  prefix_of p s = true -> List.length p <= List.length s.
Proof.
  revert s. induction p as [|x p IH]; intros s H; [cbn; lia|].
  destruct s as [|y s]; [discriminate|].
  cbn in H. apply andb_prop in H. destruct H as [_ H].
  apply IH in H. cbn. lia.
Qed.

Lemma length_replace_chars (fuel : nat) (old new s : list ascii) :
  List.length new <= List.length old ->
  List.length (replace_chars fuel old new s) <= List.length s.
Proof.
  intros N. revert s. induction fuel as [|fuel IH]; intros s; [cbn; lia|].
  destruct s as [|c s]; [cbn; lia|].
  cbn [replace_chars].
  destruct (prefix_of old (c :: s)) eqn:P.
  - apply prefix_of_length in P.
    rewrite length_app.
    specialize (IH (skipn (List.length old) (c :: s))).
    rewrite length_skipn in IH. lia.
  - cbn [List.length]. specialize (IH s). lia.
Qed.

Lemma length_lstrip_chars (l : list ascii) :
  List.length (lstrip_chars l) <= List.length l.
Proof.
  induction l as [|c l IH]; [cbn; lia|].
  cbn [lstrip_chars]. destruct (is_space c); cbn [List.length]; lia.
Qed.

Lemma length_strip (s : string) : String.length (strip s) <= String.length s.
Proof.
  unfold strip. rewrite length_str, length_rev.
  etransitivity; [apply length_lstrip_chars|].
  rewrite length_rev.
  etransitivity; [apply length_lstrip_chars|].
  rewrite length_chars. lia.
Qed.

Lemma lstrip_starts_clean (l : list ascii) : starts_clean (lstrip_chars l).
Proof.
  induction l as [|c l IH]; [exact I|].
  cbn [lstrip_chars]. destruct (is_space c) eqn:E; [exact IH|exact E].
Qed.

(** [lstrip_chars] removes a prefix. *)
Lemma lstrip_suffix (l : list ascii) :
  exists pre, l = pre ++ lstrip_chars l.
Proof.
  induction l as [|c l (pre & IH)]; [exists []; reflexivity|].
  cbn [lstrip_chars]. destruct (is_space c).
  - exists (c :: pre). cbn. rewrite <- IH. reflexivity.
  - exists []. reflexivity.
Qed.

Lemma strip_trimmed (s : string) : trimmed (strip s).
Proof.
  unfold trimmed, strip. rewrite chars_str, rev_involutive.
  split; [|apply lstrip_starts_clean].
  pose proof (lstrip_starts_clean (chars s)) as C.
  destruct (lstrip_suffix (rev (lstrip_chars (chars s)))) as (pre & E).
  apply (f_equal (@rev ascii)) in E.
  rewrite rev_involutive, rev_app_distr in E.
  destruct (rev (lstrip_chars (rev (lstrip_chars (chars s))))) as [|c t];
    [exact I|].
  rewrite E in C. exact C.
Qed.

(** X2: a snippet has no whitespace at either end, and for a span with
    [start <= finish] it is at most [finish - start + 2 * margin] characters
    long (240 more than the match with the margin of the evaluator). *)
Theorem snippet_bounded (margin : nat) (text : string) (start finish : nat) :
  start <= finish ->
  trimmed (snippet_with margin text start finish)
  /\ String.length (snippet_with margin text start finish)
     <= finish - start + 2 * margin.
Proof.
  intros L. unfold snippet_with. split; [apply strip_trimmed|].
  etransitivity; [apply length_strip|].
  unfold replace. rewrite length_str.
  etransitivity; [apply length_replace_chars; cbn; lia|].
  rewrite length_chars. unfold slice.
  etransitivity; [apply length_substring|]. lia.
Qed.

Lemma snippet_bounded_witness :
  trimmed (snippet fuel_text 4 16)
  /\ String.length (snippet fuel_text 4 16) <= 252.
Proof. apply (snippet_bounded 120 fuel_text 4 16). lia. Defined.

Lemma replace_chars_absent (fuel : nat) (c d : ascii) (new s : list ascii) :
  ~ In c s -> replace_chars fuel [c; d] new s = s.
Proof.
  revert s. induction fuel as [|fuel IH]; intros s N; [reflexivity|].
  destruct s as [|x s]; [reflexivity|].
  cbn [replace_chars prefix_of].
  destruct (Ascii.eqb_spec c x) as [->|_].
  - exfalso. apply N. left. reflexivity.
  - cbn [andb]. rewrite IH; [reflexivity|].
    intros I. apply N. right. exact I.
Qed.

Lemma in_chars_substring (c : ascii) (n m : nat) (s : string) :
  In c (chars (substring n m s)) -> In c (chars s).
Proof.
  revert n m. induction s as [|x s IH]; intros n m.
  - destruct n, m; cbn; auto.
  - destruct n as [|n].
    + destruct m as [|m]; [contradiction|].
      cbn. intros [H|H]; [auto|]. right. apply (IH 0 m). exact H.
    + cbn. intros H. right. apply (IH n m). exact H.
Qed.

(** X3: the replacement in [snippet] looks for a backslash followed by the
    letter n, not for a line break: in a text without backslash the
    snippet is the margin-wide slice around the match with the whitespace
    at its ends removed, line breaks inside it included. *)
Theorem snippet_keeps_line_breaks (margin : nat) (text : string)
        (start finish : nat) :
  ~ In "\"%char (chars text) ->
  snippet_with margin text start finish
  = strip (slice text (start - margin)
                 (Nat.min (String.length text) (finish + margin))).
Proof.
  intros N. unfold snippet_with, replace. cbn [Nat.max].
  change (chars "\n") with ["\"%char; "n"%char].
  rewrite replace_chars_absent.
  - unfold chars, str. rewrite string_of_list_ascii_of_string. reflexivity.
  - intros I. apply N. unfold slice in I.
    apply in_chars_substring in I. exact I.
Qed.

Lemma snippet_keeps_line_breaks_witness :
  snippet "Fuel:
30 minutes" 0 4
  = "Fuel:
30 minutes".
Proof.
  rewrite (snippet_keeps_line_breaks 120).
  - vm_compute. reflexivity.
  - vm_compute. intuition discriminate.
Defined.

(** ** The outcomes of [evaluate_rule_semantic] (lines 133-282) *)

(** Every outcome is built by one of the seven return statements. *)
Lemma evaluate_cases (rule : dict) (doc_text : string) (ops_facts : json)
      (o : Outcome) :
  evaluate_rule_semantic rule doc_text ops_facts = Ok o ->
  (exists pat, o = legacy_found pat)
  \/ o = legacy_missing
  \/ exists st,
       semantic_path rule /\ read_settings rule = Ok st
       /\ ((o = forbidden_conflict (forbidden_snips (forbid_re st) doc_text)
            /\ forbidden_snips (forbid_re st) doc_text <> [])
           \/ exists extras notes,
                let ev := collected st doc_text
                            (forbidden_snips (forbid_re st) doc_text) extras in
                (o = alignment_conflict ev notes
                 /\ matched_forbidden_snips ev <> [])
                \/ (o = alignment_missing ev notes
                    /\ matched_forbidden_snips ev = []
                    /\ (pos_hits ev < threshold st)%Z)
                \/ o = decided st ev).
Proof.
  unfold evaluate_rule_semantic.
  destruct (truthy (get rule "checks" (JList []))) eqn:C.
  - unfold legacy_path, bind.
    destruct (iterate _); [|discriminate].
    destruct (legacy_scan _ _) as [[pat|]|]; try discriminate;
      intros H; injection H as <-; eauto.
  - unfold bind at 1. destruct (read_settings rule) as [st|] eqn:R; [|discriminate].
    intros H. right. right. exists st. split; [exact C|]. split; [reflexivity|].
    revert H. unfold evaluate_settings.
    set (F := forbidden_snips (forbid_re st) doc_text).
    destruct (nonempty F) eqn:NF.
    + unfold bind at 1.
      destruct (known_rule_type (rule_type st)) as [[|]|]; [| |discriminate].
      * intros H. injection H as <-. left. split; [reflexivity|].
        apply nonempty_true. exact NF.
      * revert NF. generalize F. clear F. intros F NF.
        rewrite positive_scan_spec.
        destruct (aligned st _ ops_facts).
        -- unfold bind.
           destruct (check_alignment _ _) as [[notes extras]|]; [|discriminate].
           cbn [pos_hits matched_positive_snips matched_forbidden_snips first_pattern].
           intros H. right. exists extras, notes. cbv zeta.
           cbn [collected matched_forbidden_snips pos_hits].
           destruct (nonempty ((F ++ _) ++ extras)) eqn:M.
           ++ injection H as <-. left. split; [reflexivity|].
              apply nonempty_true. exact M.
           ++ destruct (_ && _) eqn:B.
              ** injection H as <-. right. left. split; [reflexivity|].
                 split; [apply nonempty_false; exact M|].
                 apply andb_prop in B. apply Z.ltb_lt. apply B.
              ** apply final_decision_ok in H. destruct H as [_ ->].
                 right. right. reflexivity.
        -- intros H. apply final_decision_ok in H. destruct H as [_ ->].
           right. exists [], []. cbv zeta.
           right. right. unfold collected. rewrite app_nil_r. reflexivity.
    + cbn [bind]. revert NF. generalize F. clear F. intros F NF.
      rewrite positive_scan_spec.
      destruct (aligned st _ ops_facts).
      * unfold bind.
        destruct (check_alignment _ _) as [[notes extras]|]; [|discriminate].
        cbn [pos_hits matched_positive_snips matched_forbidden_snips first_pattern].
        intros H. right. exists extras, notes. cbv zeta.
        cbn [collected matched_forbidden_snips pos_hits].
        destruct (nonempty ((F ++ _) ++ extras)) eqn:M.
        -- injection H as <-. left. split; [reflexivity|].
           apply nonempty_true. exact M.
        -- destruct (_ && _) eqn:B.
           ++ injection H as <-. right. left. split; [reflexivity|].
              split; [apply nonempty_false; exact M|].
              apply andb_prop in B. apply Z.ltb_lt. apply B.
           ++ apply final_decision_ok in H. destruct H as [_ ->].
                 right. right. reflexivity.
      * intros H. apply final_decision_ok in H. destruct H as [_ ->].
           right. exists [], []. cbv zeta.
        right. right. unfold collected. rewrite app_nil_r. reflexivity.
Qed.

Lemma filter_partition_length {A : Type} (f : A -> bool) (l : list A) :
  List.length (filter (fun x => negb (f x)) l) + List.length (filter f l)
  = List.length l.
Proof.
  induction l as [|x l IH]; [reflexivity|].
  cbn [filter]. destruct (f x); cbn [negb List.length]; lia.
Qed.

(** X4: the loop over the positive matches files every match exactly once:
    the hit counter is the number of positive snippets, and the positive
    snippets and the contradiction snippets that the loop adds are as many
    as the matches. *)
Theorem positive_scan_partition (st : Settings) (doc_text : string)
        (forbidden : list string) :
  let ev := positive_scan st doc_text forbidden in
  pos_hits ev = Z.of_nat (List.length (matched_positive_snips ev))
  /\ List.length (matched_positive_snips ev)
     + List.length (matched_forbidden_snips ev)
     = List.length forbidden + List.length (find_all (pos_re st) doc_text).
Proof.
  cbv zeta. rewrite positive_scan_spec.
  cbn [pos_hits matched_positive_snips matched_forbidden_snips].
  rewrite length_app, !length_map.
  split; [reflexivity|].
  pose proof (filter_partition_length (suppressed st doc_text)
                                      (positive_matches st doc_text)) as P.
  unfold clean_matches, suppressed_matches, positive_matches in *. lia.
Qed.

Lemma decided_review (st : Settings) (ev : Evidence) :
  decision (decided st ev) = REVIEW ->
  (pos_hits ev < threshold st)%Z
  /\ matched_positive_snips ev <> []
  /\ decided st ev
     = {| decision := REVIEW;
          matched_positive := matched_positive_snips ev;
          matched_forbidden := matched_forbidden_snips ev;
          matched_pattern := first_pattern ev;
          confidence := 0.5;
          notes := "Positive evidence appears near negations/contradictions" |}.
Proof.
  unfold decided.
  destruct (threshold st <=? pos_hits ev)%Z eqn:T; [discriminate|].
  destruct (nonempty (matched_positive_snips ev)) eqn:P; [|discriminate].
  destruct (nonempty (matched_forbidden_snips ev)); [|discriminate].
  intros _. apply Z.leb_gt in T. apply nonempty_true in P. auto.
Qed.

(** X5: REVIEW needs a threshold of at least 2.  An outcome is REVIEW only
    on the semantic path, with at least one clean positive hit but fewer
    than the threshold, and its confidence is 0.5: a rule with threshold 1
    (the default) or with legacy checks is never decided REVIEW. *)
Theorem review_needs_threshold_two (rule : dict) (doc_text : string)
        (ops_facts : json) (o : Outcome) :
  evaluate_rule_semantic rule doc_text ops_facts = Ok o ->
  decision o = REVIEW ->
  exists st,
    semantic_path rule /\ read_settings rule = Ok st
    /\ (2 <= threshold st)%Z
    /\ (1 <= clean_hits st doc_text < threshold st)%Z
    /\ matched_positive o <> []
    /\ matched_forbidden o <> []
    /\ confidence o = 0.5%Q.
Proof.
  intros E D.
  destruct (evaluate_cases _ _ _ _ E)
    as [(pat & ->) | [-> | (st & S & R & [(-> & _) | (extras & notes & H)])]];
    try discriminate D.
  exists st. split; [exact S|]. split; [exact R|].
  cbv zeta in H.
  destruct H as [(-> & _) | [(-> & _) | ->]]; try discriminate D.
  destruct (decided_review _ _ D) as (B & P & F).
  cbn [collected pos_hits matched_positive_snips] in B, P.
  assert (1 <= clean_hits st doc_text)%Z.
  { unfold clean_hits. destruct (clean_matches st doc_text);
      [contradiction|cbn [List.length]; lia]. }
  rewrite F. cbn [matched_positive matched_forbidden confidence].
  repeat split; try lia; try exact P.
  revert D. unfold decided.
  destruct (_ <=? _)%Z; [discriminate|].
  destruct (nonempty (matched_positive_snips _)); [|discriminate].
  cbn [andb].
  destruct (nonempty (matched_forbidden_snips _)) eqn:M; [|discriminate].
  intros _. apply nonempty_true. exact M.
Qed.

Lemma review_needs_threshold_two_witness :
  exists o st,
    evaluate_rule_semantic strict_fuel_rule mixed_fuel_text JNull = Ok o
    /\ decision o = REVIEW
    /\ read_settings strict_fuel_rule = Ok st
    /\ (2 <= threshold st)%Z
    /\ List.length (matched_positive o) = 1
    /\ List.length (matched_forbidden o) = 1.
Proof.
  destruct (evaluate_rule_semantic strict_fuel_rule mixed_fuel_text JNull)
    as [o|e] eqn:E; [|vm_compute in E; discriminate].
  assert (D : decision o = REVIEW)
    by (vm_compute in E; injection E as <-; reflexivity).
  destruct (review_needs_threshold_two _ _ _ _ E D)
    as (st & _ & R & T & _).
  exists o, st. split; [reflexivity|]. split; [exact D|].
  split; [exact R|]. split; [exact T|].
  vm_compute in E. injection E as <-. split; reflexivity.
Defined.

Lemma found_confidence (k : Z) :
  (0 <= k)%Z ->
  let q := Qmin 1 (0.6 + 0.2 * inject_Z k) in
  (0 <= q /\ q <= 1 /\ 0.6 <= q /\ round2 q == q)%Q.
Proof.
  intros K.
  assert (C : k = 0%Z \/ k = 1%Z \/ (2 <= k)%Z) by lia.
  destruct C as [-> | [-> | C]].
  - vm_compute. repeat split; discriminate.
  - vm_compute. repeat split; discriminate.
  - assert (E : Qmin 1 (0.6 + 0.2 * inject_Z k) = 1%Q).
    { unfold Qmin, GenericMinMax.gmin.
      assert (L : (1 <= 0.6 + 0.2 * inject_Z k)%Q).
      { unfold Qle, Qplus, Qmult, inject_Z. cbn [Qnum Qden]. lia. }
      pose proof (proj1 (Qle_alt _ _) L) as L'.
      destruct (Qcompare 1 (0.6 + 0.2 * inject_Z k)); try reflexivity.
      exfalso. apply L'. reflexivity. }
    cbv zeta. rewrite E. vm_compute. repeat split; discriminate.
Qed.

(** X6: the confidence of every outcome lies between 0 and 1, as the
    docstring says, and rounding it to two decimals for the report does not
    change it. *)
Theorem confidence_in_range (rule : dict) (doc_text : string) (ops_facts : json)
        (o : Outcome) :
  evaluate_rule_semantic rule doc_text ops_facts = Ok o ->
  (0 <= confidence o /\ confidence o <= 1
   /\ round2 (confidence o) == confidence o)%Q.
Proof.
  intros E.
  assert (Const : forall q : Q,
             In q [0; 0.2; 0.5; 0.6; 0.9; 0.95]%Q ->
             (0 <= q /\ q <= 1 /\ round2 q == q)%Q).
  { intros q I. cbn [In] in I.
    repeat (destruct I as [<-|I]; [vm_compute; repeat split; discriminate|]).
    contradiction. }
  destruct (evaluate_cases _ _ _ _ E)
    as [(pat & ->) | [-> | (st & S & R & [(-> & _) | (extras & notes & H)])]].
  - apply Const. cbn. auto 10.
  - apply Const. cbn. auto 10.
  - apply Const. cbn. auto 10.
  - cbv zeta in H. destruct H as [(-> & _) | [(-> & _) | ->]].
    + apply Const. cbn. auto 10.
    + apply Const. cbn. auto 10.
    + unfold decided, found.
      destruct (threshold st <=? _)%Z eqn:T.
      * apply Z.leb_le in T. cbn [confidence].
        match goal with
        | |- context [inject_Z ?k] =>
            destruct (found_confidence k) as (A & B & _ & C); [lia|]
        end.
        auto.
      * destruct (_ && _); apply Const; cbn; auto 10.
Qed.

Lemma confidence_in_range_witness :
  exists o,
    evaluate_rule_semantic lenient_rule "" JNull = Ok o
    /\ (0 <= confidence o /\ confidence o <= 1
        /\ round2 (confidence o) == confidence o)%Q.
Proof.
  destruct (evaluate_rule_semantic lenient_rule "" JNull) as [o|e] eqn:E;
    [|vm_compute in E; discriminate].
  exists o. split; [reflexivity|].
  apply (confidence_in_range lenient_rule "" JNull o E).
Defined.

(** X7: an outcome carries contradiction snippets exactly when it is
    CONFLICT or REVIEW; a REVIEW outcome also carries positive snippets, and
    a FOUND outcome of the semantic path carries one positive snippet per
    counted hit, at least as many as the threshold. *)
Theorem evidence_matches_decision (rule : dict) (doc_text : string)
        (ops_facts : json) (o : Outcome) :
  evaluate_rule_semantic rule doc_text ops_facts = Ok o ->
  (matched_forbidden o <> [] <-> decision o = CONFLICT \/ decision o = REVIEW)
  /\ (decision o = REVIEW -> matched_positive o <> [])
  /\ (decision o = FOUND ->
      semantic_path rule ->
      forall st, read_settings rule = Ok st ->
      (threshold st <= Z.of_nat (List.length (matched_positive o)))%Z
      /\ confidence o
         = Qmin 1 (0.6 + 0.2 * inject_Z (Z.of_nat (List.length (matched_positive o))
                                        - threshold st))).
Proof.
  intros E.
  destruct (evaluate_cases _ _ _ _ E)
    as [(pat & ->) | [-> | (st & S & R & [(-> & F) | (extras & notes & H)])]].
  - split; [|split].
    + cbn. split; [congruence|intros [D|D]; discriminate D].
    + discriminate.
    + intros _ S. exfalso.
      unfold evaluate_rule_semantic in E. rewrite S in E.
      unfold bind in E. destruct (read_settings rule) as [st|]; [|discriminate].
      clear - E. revert E. unfold evaluate_settings, bind.
      destruct (nonempty _).
      * destruct (known_rule_type _) as [[|]|]; try discriminate.
        destruct (aligned _ _ _); [|unfold final_decision, bind;
          destruct (_ <=? _)%Z;
          [destruct (surplus _ _); discriminate|destruct (_ && _); discriminate]].
        destruct (check_alignment _ _) as [[n x]|]; [|discriminate].
        destruct (nonempty _); [discriminate|].
        destruct (_ && _); [discriminate|].
        unfold final_decision, bind.
        destruct (_ <=? _)%Z;
          [destruct (surplus _ _); discriminate|destruct (_ && _); discriminate].
      * destruct (aligned _ _ _); [|unfold final_decision, bind;
          destruct (_ <=? _)%Z;
          [destruct (surplus _ _); discriminate|destruct (_ && _); discriminate]].
        destruct (check_alignment _ _) as [[n x]|]; [|discriminate].
        destruct (nonempty _); [discriminate|].
        destruct (_ && _); [discriminate|].
        unfold final_decision, bind.
        destruct (_ <=? _)%Z;
          [destruct (surplus _ _); discriminate|destruct (_ && _); discriminate].
  - split; [|split]; try discriminate.
    cbn. split; [congruence|intros [D|D]; discriminate D].
  - split; [|split]; try discriminate.
    cbn [forbidden_conflict matched_forbidden decision].
    split; [auto|intros _; exact F].
  - cbv zeta in H. destruct H as [(-> & M) | [(-> & M & _) | ->]].
    + split; [|split]; try discriminate.
      cbn [alignment_conflict matched_forbidden decision].
      split; [auto|intros _; exact M].
    + split; [|split]; try discriminate.
      cbn. split; [congruence|intros [D|D]; discriminate D].
    + unfold decided, found.
      destruct (threshold st <=? _)%Z eqn:T.
      * cbn [decision matched_forbidden matched_positive confidence].
        split; [|split]; try discriminate.
        -- split; [congruence|intros [D|D]; discriminate D].
        -- intros _ _ st' R'. rewrite R in R'. injection R' as <-.
           cbn [collected matched_positive_snips pos_hits] in *.
           rewrite length_map. fold (clean_hits st doc_text).
           apply Z.leb_le in T. split; [exact T|reflexivity].
      * destruct (nonempty (matched_positive_snips _)) eqn:P;
          destruct (nonempty (matched_forbidden_snips _)) eqn:M;
          cbn [andb decision matched_forbidden matched_positive].
        -- split; [|split]; try discriminate.
           ++ split; [auto|intros _; apply nonempty_true; exact M].
           ++ intros _. apply nonempty_true. exact P.
        -- split; [|split]; try discriminate.
           split; [congruence|intros [D|D]; discriminate D].
        -- split; [|split]; try discriminate.
           split; [congruence|intros [D|D]; discriminate D].
        -- split; [|split]; try discriminate.
           split; [congruence|intros [D|D]; discriminate D].
Qed.

Lemma evidence_matches_decision_witness :
  exists o,
    evaluate_rule_semantic fuel_rule fuel_text JNull = Ok o
    /\ matched_forbidden o = []
    /\ List.length (matched_positive o) = 1
    /\ confidence o == 0.6.
Proof.
  destruct (evaluate_rule_semantic fuel_rule fuel_text JNull) as [o|e] eqn:E;
    [|vm_compute in E; discriminate].
  destruct (evidence_matches_decision _ _ _ _ E) as (Forb & _ & Found).
  exists o. split; [reflexivity|].
  assert (D : decision o = FOUND)
    by (vm_compute in E; injection E as <-; reflexivity).
  split.
  - destruct (matched_forbidden o) as [|x l] eqn:M; [reflexivity|].
    exfalso. assert (X : x :: l <> []) by discriminate.
    apply Forb in X. destruct X as [X|X]; congruence.
  - destruct (read_settings fuel_rule) as [st|] eqn:R;
      [|vm_compute in R; discriminate].
    destruct (Found D eq_refl st eq_refl) as (_ & C).
    rewrite C. vm_compute in E. injection E as <-.
    settle_settings R. split; [reflexivity|]. vm_compute. reflexivity.
Defined.

(** ** [any_regex] and the reading of the rule (lines 103-111, 176-182) *)

Lemma filter_truthy_strings (l : list string) :
  filter truthy (map JStr l) = map JStr (filter not_empty l).
Proof.
  induction l as [|p l IH]; [reflexivity|].
  cbn [map filter truthy]. fold (not_empty p).
  destruct (not_empty p); cbn [map]; rewrite IH; reflexivity.
Qed.

Lemma any_regex_strings (l : list string) :
  any_regex (JList (map JStr l))
  = match filter not_empty l with
    | [] => Ok None
    | pats =>
        p <- Re.compile ("(" ++ join "|" pats ++ ")")%string any_regex_flags ;;
        Ok (Some p)
    end.
Proof.
  unfold any_regex.
  replace (py_or (JList (map JStr l)) (JList [])) with (JList (map JStr l))
    by (destruct l; reflexivity).
  cbn [iterate bind]. rewrite filter_truthy_strings.
  destruct (filter not_empty l) as [|p ps]; [reflexivity|].
  pose proof (mapM_expect_str (p :: ps)) as M.
  destruct (map JStr (p :: ps)) as [|j js] eqn:E; [discriminate|].
  rewrite M. reflexivity.
Qed.

Lemma filter_idempotent {A : Type} (f : A -> bool) (l : list A) :
  filter f (filter f l) = filter f l.
Proof.
  induction l as [|x l IH]; [reflexivity|].
  cbn [filter]. destruct (f x) eqn:E; [cbn [filter]; rewrite E, IH|]; auto.
Qed.

(** X8: empty patterns are no patterns.  The pattern compiled from a list
    of strings is the one compiled from its non-empty strings, and a list
    without a non-empty string (like an absent or null field) gives no
    pattern at all, so that nothing matches: no error is raised. *)
Theorem any_regex_skips_empty (l : list string) :
  any_regex (JList (map JStr l)) = any_regex (JList (map JStr (filter not_empty l)))
  /\ (filter not_empty l = [] ->
      any_regex (JList (map JStr l)) = Ok None
      /\ any_regex JNull = Ok None
      /\ forall text, find_all None text = []).
Proof.
  split.
  - rewrite !any_regex_strings, filter_idempotent. reflexivity.
  - intros E. rewrite any_regex_strings, E. repeat split.
Qed.

Lemma any_regex_skips_empty_witness :
  any_regex (JList [JStr ""; JStr ""]) = Ok None
  /\ exists o, evaluate_rule_semantic blank_rule fuel_text JNull = Ok o
               /\ decision o = MISSING.
Proof.
  split.
  - apply (any_regex_skips_empty [""; ""]). reflexivity.
  - eexists. split; [vm_compute; reflexivity|reflexivity].
Defined.

Lemma lookup_app (d d' : dict) (k : string) :
  lookup (d ++ d') k
  = match lookup d k with
    | Some v => Some v
    | None => lookup d' k
    end.
Proof.
  induction d as [|[k' v] d IH]; [reflexivity|].
  cbn [app lookup]. destruct (String.eqb k' k); [reflexivity|exact IH].
Qed.

(** X9: an absent key is its default.  Adding to a rule, for the keys it
    lacks, checks [], rule_type "affirm", empty pattern lists, threshold 1,
    negation_window_tokens 12 and no ops_facts changes neither the outcome
    nor the exception. *)
Theorem absent_keys_default (rule : dict) (doc_text : string) (ops_facts : json) :
  evaluate_rule_semantic (rule ++ defaults) doc_text ops_facts
  = evaluate_rule_semantic rule doc_text ops_facts.
Proof.
  assert (G : forall k v,
             lookup defaults k = Some v ->
             get (rule ++ defaults) k v = get rule k v).
  { intros k v L. unfold get. rewrite lookup_app, L.
    destruct (lookup rule k); reflexivity. }
  assert (P : forall k,
             lookup defaults k = Some (JList []) ->
             any_regex (get (rule ++ defaults) k JNull)
             = any_regex (get rule k JNull)).
  { intros k L. unfold get. rewrite lookup_app, L.
    destruct (lookup rule k); reflexivity. }
  unfold evaluate_rule_semantic, read_settings.
  rewrite (G "checks" (JList []) eq_refl), (G "rule_type" (JStr "affirm") eq_refl),
          (G "threshold" (JInt 1) eq_refl),
          (G "negation_window_tokens" (JInt 12) eq_refl),
          (G "ops_facts" JNull eq_refl),
          (P "positive_patterns" eq_refl), (P "negative_patterns" eq_refl),
          (P "forbidden_claims" eq_refl).
  reflexivity.
Qed.

Lemma find_all_bounded (pattern : option Re.Pattern) (text : string)
      (m : Re.Match) :
  In m (find_all pattern text) -> Re.m_end m <= String.length text.
Proof.
  unfold find_all. destruct pattern as [p|]; [|contradiction].
  destruct (String.eqb text ""); [contradiction|].
  unfold Re.finditer. intros I. apply scan_member in I; [|lia].
  rewrite length_chars in I. apply I.
Qed.

(** X10: a negation window of 0 tokens or fewer is the match itself: the
    character window is 0, and a positive match is suppressed exactly when
    the negative pattern is found inside the matched text. *)
Theorem nonpositive_window (rule : dict) (doc_text : string) (st : Settings)
        (tokens : Z) :
  read_settings rule = Ok st ->
  py_int (get rule "negation_window_tokens" (JInt 12)) = Ok tokens ->
  (tokens <= 0)%Z ->
  char_window st = 0
  /\ forall m,
       In m (positive_matches st doc_text) ->
       suppressed st doc_text m
       = match neg_re st with
         | Some p => match Re.search p (Re.group0 doc_text m) with
                     | Some _ => true
                     | None => false
                     end
         | None => false
         end.
Proof.
  intros R P T.
  destruct (read_settings_char_window _ _ R) as (t & P' & W).
  rewrite P in P'. injection P' as <-.
  assert (W0 : char_window st = 0) by (rewrite W; lia).
  split; [exact W0|].
  intros [s e] I. unfold suppressed, window_has_negative. rewrite W0.
  destruct (neg_re st) as [p|]; [|reflexivity].
  pose proof (find_all_bounded _ _ _ I) as B.
  unfold Re.m_end in B. cbn [snd] in B.
  unfold Re.group0, Re.m_start, Re.m_end. cbn [fst snd Nat.max].
  rewrite Nat.sub_0_r, Nat.add_0_r, Nat.min_r by exact B.
  reflexivity.
Qed.

Lemma nonpositive_window_witness :
  exists st,
    read_settings narrow_rule = Ok st
    /\ char_window st = 0
    /\ positive_matches st negated_fuel_text = [(9, 24)]
    /\ suppressed st negated_fuel_text (9, 24) = true.
Proof.
  destruct (read_settings narrow_rule) as [st|e] eqn:R;
    [|vm_compute in R; discriminate].
  exists st. split; [reflexivity|].
  destruct (nonpositive_window narrow_rule negated_fuel_text st (-3) R eq_refl)
    as (W & S); [lia|].
  split; [exact W|].
  assert (M : positive_matches st negated_fuel_text = [(9, 24)])
    by (settle_settings R; vm_compute; reflexivity).
  split; [exact M|].
  rewrite S by (rewrite M; left; reflexivity).
  settle_settings R. vm_compute. reflexivity.
Defined.

(** ** Mentions of a registration or an area (lines 222 and 234) *)






(** ** The matched pattern (lines 186, 209-210) *)

(** On the semantic path an outcome is built by one of the five return
    statements of that path. *)
Lemma semantic_cases (rule : dict) (doc_text : string) (ops_facts : json)
      (st : Settings) (o : Outcome) :
  semantic_path rule ->
  read_settings rule = Ok st ->
  evaluate_rule_semantic rule doc_text ops_facts = Ok o ->
  (o = forbidden_conflict (forbidden_snips (forbid_re st) doc_text)
   /\ forbidden_snips (forbid_re st) doc_text <> [])
  \/ exists extras notes,
       let ev := collected st doc_text
                   (forbidden_snips (forbid_re st) doc_text) extras in
       (o = alignment_conflict ev notes /\ matched_forbidden_snips ev <> [])
       \/ (o = alignment_missing ev notes
           /\ matched_forbidden_snips ev = []
           /\ (pos_hits ev < threshold st)%Z)
       \/ o = decided st ev.
Proof.
  intros S R E. rewrite (evaluate_on_semantic_path _ _ _ _ S R) in E.
  revert E. unfold evaluate_settings.
  set (F := forbidden_snips (forbid_re st) doc_text).
  assert (Scan : forall F',
             (if aligned st (get rule "ops_facts" JNull) ops_facts
              then
                '(notes, extras) <-
                  check_alignment
                    (selected_facts (get rule "ops_facts" JNull) ops_facts) doc_text ;;
                let ev := positive_scan st doc_text F' in
                let ev' := {| pos_hits := pos_hits ev;
                              matched_positive_snips := matched_positive_snips ev;
                              matched_forbidden_snips :=
                                matched_forbidden_snips ev ++ extras;
                              first_pattern := first_pattern ev |} in
                if nonempty (matched_forbidden_snips ev')
                then Ok (alignment_conflict ev' notes)
                else if nonempty notes && (pos_hits ev' <? threshold st)%Z
                     then Ok (alignment_missing ev' notes)
                     else final_decision st ev'
              else final_decision st (positive_scan st doc_text F')) = Ok o ->
             exists extras notes,
               let ev := collected st doc_text F' extras in
               (o = alignment_conflict ev notes /\ matched_forbidden_snips ev <> [])
               \/ (o = alignment_missing ev notes
                   /\ matched_forbidden_snips ev = []
                   /\ (pos_hits ev < threshold st)%Z)
               \/ o = decided st ev).
  { intros F'. rewrite positive_scan_spec.
    destruct (aligned st _ ops_facts).
    - unfold bind.
      destruct (check_alignment _ _) as [[notes extras]|]; [|discriminate].
      cbn [pos_hits matched_positive_snips matched_forbidden_snips first_pattern].
      intros H. exists extras, notes. cbv zeta.
      cbn [collected matched_forbidden_snips pos_hits].
      destruct (nonempty ((F' ++ _) ++ extras)) eqn:M.
      + injection H as <-. left. split; [reflexivity|].
        apply nonempty_true. exact M.
      + destruct (_ && _) eqn:B.
        * injection H as <-. right. left. split; [reflexivity|].
          split; [apply nonempty_false; exact M|].
          apply andb_prop in B. apply Z.ltb_lt. apply B.
        * apply final_decision_ok in H. destruct H as [_ ->].
          right. right. reflexivity.
    - intros H. apply final_decision_ok in H. destruct H as [_ ->].
      exists [], []. cbv zeta.
      right. right. unfold collected. rewrite app_nil_r. reflexivity. }
  destruct (nonempty F) eqn:NF.
  - unfold bind at 1.
    destruct (known_rule_type (rule_type st)) as [[|]|]; [| |discriminate].
    + intros H. injection H as <-. left. split; [reflexivity|].
      apply nonempty_true. exact NF.
    + intros H. right. apply Scan. exact H.
  - cbn [bind]. intros H. right. apply Scan. exact H.
Qed.

Lemma first_nonempty_find (acc : string) (l : list string) :
  first_nonempty acc l
  = if String.eqb acc ""
    then match find not_empty l with
         | Some g => g
         | None => ""
         end
    else acc.
Proof.
  unfold first_nonempty. revert acc. induction l as [|g l IH]; intros acc.
  - cbn. destruct (String.eqb acc "") eqn:E; [|reflexivity].
    apply String.eqb_eq in E. exact E.
  - cbn [fold_left find]. rewrite IH. unfold not_empty at 2.
    destruct (String.eqb acc "") eqn:E.
    + destruct (String.eqb g ""); reflexivity.
    + rewrite E. reflexivity.
Qed.

Lemma substring_nothing (n : nat) (s : string) : substring n 0 s = "".
Proof.
  revert n. induction s as [|c s IH]; intros [|n]; try reflexivity.
  cbn. apply IH.
Qed.

(** X12: what the report shows as matched pattern on the semantic path is
    not a pattern of the rule but the text of the first clean positive
    match that is not empty, whatever the decision; only the CONFLICT of a
    forbidden claim, returned before the positive scan, leaves it empty. *)
Theorem matched_pattern_origin (rule : dict) (doc_text : string)
        (ops_facts : json) (st : Settings) (o : Outcome) :
  semantic_path rule ->
  read_settings rule = Ok st ->
  evaluate_rule_semantic rule doc_text ops_facts = Ok o ->
  (matched_pattern o = first_clean_text st doc_text
   \/ o = forbidden_conflict (forbidden_snips (forbid_re st) doc_text))
  /\ (matched_pattern o <> "" ->
      exists m, In m (positive_matches st doc_text)
                /\ suppressed st doc_text m = false
                /\ Re.m_start m < Re.m_end m
                /\ matched_pattern o = slice doc_text (Re.m_start m) (Re.m_end m)).
Proof.
  intros S R E.
  assert (First : forall g,
             g = first_clean_text st doc_text -> g <> "" ->
             exists m, In m (positive_matches st doc_text)
                       /\ suppressed st doc_text m = false
                       /\ Re.m_start m < Re.m_end m
                       /\ g = slice doc_text (Re.m_start m) (Re.m_end m)).
  { intros g -> N. unfold first_clean_text in *.
    destruct (find not_empty _) as [g|] eqn:Fd; [|congruence].
    apply find_some in Fd. destruct Fd as (I & _).
    apply in_map_iff in I. destruct I as (m & <- & I).
    apply filter_In in I. destruct I as (I & C).
    exists m. split; [exact I|]. split; [destruct (suppressed st doc_text m);
      [discriminate|reflexivity]|].
    split; [|reflexivity].
    unfold Re.group0, slice in N.
    destruct (Re.m_end m - Re.m_start m) eqn:D; [|lia].
    rewrite substring_nothing in N. congruence. }
  assert (Collected : forall F extras,
             first_pattern (collected st doc_text F extras)
             = first_clean_text st doc_text).
  { intros F extras. cbn [collected first_pattern].
    rewrite first_nonempty_find. reflexivity. }
  destruct (semantic_cases _ _ _ _ _ S R E)
    as [(-> & _) | (extras & notes & H)].
  - split; [right; reflexivity|]. cbn. congruence.
  - cbv zeta in H.
    assert (M : matched_pattern o = first_clean_text st doc_text).
    { destruct H as [(-> & _) | [(-> & _) | ->]].
      - apply Collected.
      - apply Collected.
      - unfold decided, found.
        destruct (_ <=? _)%Z; [apply Collected|].
        destruct (_ && _); apply Collected. }
    split; [left; exact M|]. apply First. exact M.
Qed.

Lemma matched_pattern_origin_witness :
  exists st o,
    read_settings strict_fuel_rule = Ok st
    /\ evaluate_rule_semantic strict_fuel_rule "Fuel Reserve applies." JNull = Ok o
    /\ decision o = MISSING
    /\ matched_pattern o = "Fuel Reserve".
Proof.
  destruct (read_settings strict_fuel_rule) as [st|e] eqn:R;
    [|vm_compute in R; discriminate].
  destruct (evaluate_rule_semantic strict_fuel_rule "Fuel Reserve applies." JNull)
    as [o|e] eqn:E; [|vm_compute in E; discriminate].
  exists st, o. split; [reflexivity|]. split; [reflexivity|].
  destruct (matched_pattern_origin strict_fuel_rule "Fuel Reserve applies." JNull
              st o eq_refl R E) as ([M | C] & _).
  - vm_compute in E. injection E as <-. split; [reflexivity|].
    rewrite M. settle_settings R. vm_compute. reflexivity.
  - vm_compute in E. injection E as <-. discriminate C.
Defined.

(** ** The rows of the report (lines 316-343) *)

Lemma mapM_in {A B : Type} (f : A -> result B) (l : list A) (ys : list B) (y : B) :
  mapM f l = Ok ys ->
  In y ys ->
  exists x, In x l /\ f x = Ok y.
Proof.
  revert ys. induction l as [|x l IH]; intros ys.
  - cbn. intros H. injection H as <-. contradiction.
  - cbn [mapM bind].
    destruct (f x) as [y'|] eqn:F; [|discriminate].
    destruct (mapM f l) as [ys'|]; [|discriminate].
    intros H. injection H as <-. intros [<-|I].
    + exists x. split; [left; reflexivity|exact F].
    + destruct (IH ys' eq_refl I) as (x' & I' & F').
      exists x'. split; [right; exact I'|exact F'].
Qed.

(** What the report relies on in an outcome. *)
Lemma outcome_for_report (rule : dict) (doc_text : string) (ops_facts : json)
      (o : Outcome) :
  evaluate_rule_semantic rule doc_text ops_facts = Ok o ->
  (round2 (confidence o) == confidence o)%Q
  /\ (decision o = FOUND \/ decision o = MISSING -> matched_forbidden o = []).
Proof.
  intros E.
  destruct (evaluate_cases _ _ _ _ E)
    as [(pat & ->) | [-> | (st & S & R & [(-> & _) | (extras & notes & H)])]].
  - split; [vm_compute|]; reflexivity.
  - split; [vm_compute|]; reflexivity.
  - split; [vm_compute; reflexivity|]. intros [D|D]; discriminate D.
  - cbv zeta in H. destruct H as [(-> & _) | [(-> & _) | ->]].
    + split; [vm_compute; reflexivity|]. intros [D|D]; discriminate D.
    + split; [vm_compute|]; reflexivity.
    + unfold decided, found.
      destruct (threshold st <=? _)%Z eqn:T.
      * apply Z.leb_le in T. cbn [confidence decision matched_forbidden].
        split; [|reflexivity].
        match goal with
        | |- context [inject_Z ?k] =>
            destruct (found_confidence k) as (_ & _ & _ & C); [lia|exact C]
        end.
      * destruct (_ && _); cbn [confidence decision matched_forbidden].
        -- split; [vm_compute; reflexivity|]. intros [D|D]; discriminate D.
        -- split; [vm_compute|]; reflexivity.
Qed.

(** X13: every row of a written report shows the outcome of one rule of
    the input, evaluated on the texts of its source documents joined by
    newlines: the id, the decision, the matched pattern and the notes are
    copied, the confidence is not changed by its rounding, and the
    contradiction column of a FOUND or MISSING row is empty. *)
Theorem report_rows_show_outcomes (raw ops_facts : json) (cache : text_cache)
        (rows : list ReportRow) (row : ReportRow) :
  main raw ops_facts cache = Ok rows ->
  In row rows ->
  exists rules rs rule keys texts o,
    rules_of raw = Ok rules
    /\ iterate rules = Ok rs
    /\ In (JDict rule) rs
    /\ iterate (get rule "source_docs" (JList [JStr "OpsSpecs"])) = Ok keys
    /\ mapM (cache_get cache) keys = Ok texts
    /\ evaluate_rule_semantic rule (join (String (ascii_of_nat 10) "") texts)
                              ops_facts = Ok o
    /\ row_rule_id row = get rule "id" JNull
    /\ row_result row = decision o
    /\ row_matched_pattern row = matched_pattern o
    /\ row_notes row = notes o
    /\ (row_confidence row == confidence o)%Q
    /\ (row_result row = FOUND \/ row_result row = MISSING ->
        row_contradiction row = "").
Proof.
  unfold main, bind. intros M I.
  destruct (rules_of raw) as [rules|] eqn:RO; [|discriminate].
  destruct (iterate rules) as [rs|] eqn:IR; [|discriminate].
  destruct (mapM_in _ _ _ _ M I) as (r & Ir & Row).
  destruct r as [| | | | | | | |rule]; try discriminate Row.
  revert Row. unfold report_row, bind.
  destruct (join_json "; " _); [|discriminate].
  destruct (iterate (get rule "source_docs" _)) as [keys|] eqn:K; [|discriminate].
  destruct (mapM (cache_get cache) keys) as [texts|] eqn:T; [|discriminate].
  destruct (evaluate_rule_semantic rule _ ops_facts) as [o|] eqn:E; [|discriminate].
  destruct (join_json ", " _); [|discriminate].
  intros Row. injection Row as <-.
  destruct (outcome_for_report _ _ _ _ E) as (C & F).
  exists rules, rs, rule, keys, texts, o.
  cbn [row_rule_id row_result row_matched_pattern row_notes row_confidence
       row_contradiction].
  split; [reflexivity|]. split; [exact IR|]. split; [exact Ir|].
  split; [exact K|]. split; [exact T|]. split; [exact E|].
  do 4 (split; [reflexivity|]). split; [exact C|].
  intros D. rewrite (F D). reflexivity.
Qed.

Lemma report_rows_show_outcomes_witness :
  exists rows row,
    main sample_rules JNull sample_cache = Ok rows
    /\ nth_error rows 0 = Some row
    /\ row_result row = FOUND
    /\ row_contradiction row = "".
Proof.
  destruct (main sample_rules JNull sample_cache) as [rows|e] eqn:M;
    [|vm_compute in M; discriminate].
  destruct rows as [|row rows]; [vm_compute in M; discriminate|].
  exists (row :: rows), row. split; [reflexivity|]. split; [reflexivity|].
  assert (D : row_result row = FOUND)
    by (vm_compute in M; injection M as <- _; reflexivity).
  split; [exact D|].
  destruct (report_rows_show_outcomes _ _ _ _ row M (or_introl eq_refl))
    as (_ & _ & _ & _ & _ & _ & _ & _ & _ & _ & _ & _ & _ & _ & _ & _ & _ & C).
  apply C. left. exact D.
Defined.

(** ** The debug script and the legacy path
       (debug_text_extraction.py, lines 60-75 and 135-141) *)

Lemma pattern_loop_strings (doc_text : string) (pats : list string)
      (found : list json) :
  Debug.pattern_loop doc_text (map JStr pats) found
  = Ok (found ++ map JStr (filter (hit doc_text) pats)).
Proof.
  revert found. induction pats as [|p pats IH]; intros found.
  - cbn. rewrite app_nil_r. reflexivity.
  - cbn [map Debug.pattern_loop truthy filter]. unfold hit at 1.
    destruct (negb (String.eqb p "")); cbn [andb]; [|apply IH].
    destruct (contains (lower p) (lower doc_text)); [|apply IH].
    rewrite IH. cbn [map]. rewrite <- app_assoc. reflexivity.
Qed.

Lemma test_pattern_matching_strings (doc_text : string) (pats : list string) :
  Debug.test_pattern_matching doc_text (JList (map JStr pats))
  = Ok (match find (hit doc_text) pats with
        | Some _ => true
        | None => false
        end).
Proof.
  unfold Debug.test_pattern_matching. cbn [iterate bind].
  rewrite pattern_loop_strings. cbn [bind app]. f_equal.
  induction pats as [|p pats IH]; [reflexivity|].
  cbn [filter find]. destruct (hit doc_text p); [reflexivity|exact IH].
Qed.

Lemma listed_patterns (d : dict) (pats : list string) :
  get d "patterns" (JList []) = JList (map JStr pats) ->
  py_or (get d "patterns" JNull) (JList []) = JList (map JStr pats).
Proof.
  unfold get. destruct (lookup d "patterns") as [v|].
  - intros ->. destruct pats; reflexivity.
  - intros <-. reflexivity.
Qed.

Lemma scans_agree (chks : list json) (pss : list (list string))
      (doc_text : string) :
  Forall2 listed_check chks pss ->
  exists h results,
    legacy_scan chks doc_text = Ok h
    /\ mapM (Debug.check_result doc_text) chks = Ok results
    /\ List.length results = List.length chks
    /\ (h <> None <-> In (Some FOUND) results).
Proof.
  induction 1 as [|chk ps chks pss (d & -> & P) _ (h & results & L & D & N & A)].
  - exists None, []. repeat split; try reflexivity; [congruence|contradiction].
  - cbn [legacy_scan mapM method_get bind Debug.check_result].
    destruct (equals_str (get d "type" JNull) "contains_any").
    + rewrite (listed_patterns _ _ P), P. cbn [iterate bind].
      rewrite first_hit_strings, test_pattern_matching_strings. cbn [bind].
      rewrite D, L.
      destruct (find (hit doc_text) ps) as [p|].
      * exists (Some p), (Some FOUND :: results).
        repeat split; cbn; try congruence; auto.
      * exists h, (Some MISSING :: results).
        repeat split; cbn; try congruence.
        -- intros NH. right. apply A. exact NH.
        -- intros [F|I]; [discriminate|]. apply A. exact I.
    + rewrite D, L. exists h, (None :: results).
      repeat split; cbn; try congruence.
      * intros NH. right. apply A. exact NH.
      * intros [F|I]; [discriminate|]. apply A. exact I.
Qed.

(** X14: the debug script and the checker agree on legacy rules.  For a
    rule with checks whose patterns are lists of strings, the checker
    decides FOUND exactly when the debug script prints FOUND for one of the
    checks, on the same text; the script prints one result for each
    check of type "contains_any" and none for the others. *)
Theorem debug_agrees_with_legacy (rule : dict) (doc_text : string)
        (ops_facts : json) (chks : list json) (pss : list (list string)) :
  get rule "checks" (JList []) = JList chks ->
  chks <> [] ->
  Forall2 listed_check chks pss ->
  exists o results,
    evaluate_rule_semantic rule doc_text ops_facts = Ok o
    /\ Debug.check_results doc_text rule = Ok results
    /\ List.length results = List.length chks
    /\ (decision o = FOUND <-> In (Some FOUND) results)
    /\ (decision o = FOUND \/ decision o = MISSING).
Proof.
  intros C N W.
  destruct (scans_agree _ _ doc_text W) as (h & results & L & D & Len & A).
  rewrite legacy_path_taken by (rewrite C; destruct chks; [congruence|reflexivity]).
  unfold Debug.check_results, legacy_path. rewrite C. cbn [iterate bind].
  rewrite L, D.
  destruct h as [p|].
  - exists (legacy_found p), results.
    repeat split; auto.
    intros _. apply A. discriminate.
  - exists legacy_missing, results.
    repeat split; auto.
    + discriminate.
    + intros I. apply A in I. congruence.
Qed.

Lemma debug_agrees_with_legacy_witness :
  exists o,
    evaluate_rule_semantic legacy_rule fuel_text JNull = Ok o
    /\ Debug.check_results fuel_text legacy_rule = Ok [Some FOUND]
    /\ decision o = FOUND.
Proof.
  destruct (debug_agrees_with_legacy legacy_rule fuel_text JNull legacy_checks
              [[""; "Night VFR"; "fuel"]] eq_refl)
    as (o & results & E & D & _ & A & _).
  - discriminate.
  - repeat constructor. eexists. split; reflexivity.
  - exists o. split; [exact E|].
    assert (R : results = [Some FOUND])
      by (vm_compute in D; injection D as <-; reflexivity).
    split; [rewrite D, R; reflexivity|].
    apply A. rewrite R. left. reflexivity.
Defined.

(** ** The summary of a report (analyze_report.py, lines 14-16, 25-30) *)

(** X15: the summary counts FOUND and MISSING rows only: the total is their
    sum plus the CONFLICT and REVIEW rows, which no line of the summary
    mentions, so that the two counts add up to the total exactly when the
    report has no such row; the list of missing rules has one entry per
    MISSING row. *)
Theorem summary_sets_conflicts_aside (df : list ReportRow) :
  Analyze.total df
  = Analyze.found df + Analyze.missing df + List.length (filter set_aside df)
  /\ (Analyze.found df + Analyze.missing df = Analyze.total df
      <-> Forall (fun row => row_result row = FOUND \/ row_result row = MISSING) df)
  /\ List.length (Analyze.missing_rules df) = Analyze.missing df.
Proof.
  unfold Analyze.total, Analyze.found, Analyze.missing, Analyze.missing_rules.
  assert (Row : forall row,
             (Analyze.has_result FOUND row = true
              /\ Analyze.has_result MISSING row = false /\ set_aside row = false
              /\ row_result row = FOUND)
             \/ (Analyze.has_result FOUND row = false
                 /\ Analyze.has_result MISSING row = true /\ set_aside row = false
                 /\ row_result row = MISSING)
             \/ (Analyze.has_result FOUND row = false
                 /\ Analyze.has_result MISSING row = false /\ set_aside row = true
                 /\ row_result row <> FOUND /\ row_result row <> MISSING)).
  { intros row. unfold set_aside, Analyze.has_result.
    destruct (row_result row); cbn; intuition congruence. }
  assert (T : List.length df
              = List.length (filter (Analyze.has_result FOUND) df)
                + List.length (filter (Analyze.has_result MISSING) df)
                + List.length (filter set_aside df)).
  { induction df as [|row df IH]; [reflexivity|].
    cbn [filter List.length].
    destruct (Row row) as [(-> & -> & -> & _) | [(-> & -> & -> & _) | (-> & -> & -> & _)]];
      cbn [List.length]; lia. }
  split; [exact T|]. split; [|apply length_map].
  split.
  - intros E.
    assert (Z : List.length (filter set_aside df) = 0) by lia.
    clear - Z Row. induction df as [|row df IH]; [constructor|].
    cbn [filter] in Z.
    destruct (Row row) as [(_ & _ & A & R) | [(_ & _ & A & R) | (_ & _ & A & _)]];
      rewrite A in Z; [| |discriminate Z]; constructor; auto.
  - intros F. enough (List.length (filter set_aside df) = 0) by lia.
    clear - F Row. induction F as [|row df R _ IH]; [reflexivity|].
    cbn [filter].
    destruct (Row row) as [(_ & _ & A & _) | [(_ & _ & A & _) | (_ & _ & _ & N1 & N2)]];
      [rewrite A; exact IH|rewrite A; exact IH|].
    destruct R; contradiction.
Qed.

(** ** [split_sentences] (lines 84-93) *)

(** A greedy repeat of a single-character test consumes characters that
    pass the test, at least one when a body is still mandatory. *)
Lemma until_run (text : list ascii) (p : ascii -> bool) (lo : nat)
      (hi : option nat) (fuel count i j : nat) :
  In j (Re.until (Re.one text p) lo hi fuel count i) ->
  i <= j
  /\ (count < lo -> i < j)
  /\ forall k, i <= k < j -> exists c, nth_error text k = Some c /\ p c = true.
Proof.
  revert count i. induction fuel as [|fuel IH]; intros count i; [contradiction|].
  assert (Step : forall j',
             In j' (Re.one text p i) ->
             In j (Re.until (Re.one text p) lo hi fuel (S count) j') ->
             i < j
             /\ forall k, i <= k < j ->
                          exists c, nth_error text k = Some c /\ p c = true).
  { intros j' B U. unfold Re.one in B.
    destruct (nth_error text i) as [x|] eqn:N; [|contradiction].
    destruct (p x) eqn:P; [|contradiction].
    destruct B as [<-|[]].
    destruct (IH _ _ U) as (L & _ & A).
    split; [lia|]. intros k K.
    destruct (Nat.eq_dec k i) as [->|D]; [exists x; auto|].
    apply A. lia. }
  cbn [Re.until]. destruct (count <? lo) eqn:C.
  - rewrite in_flat_map. intros (j' & B & U).
    destruct (Step j' B U) as (L & A).
    split; [lia|]. split; [intros _; exact L|exact A].
  - apply Nat.ltb_ge in C. rewrite in_app_iff. intros [U | [<-|[]]].
    + destruct (match hi with Some h => count <? h | None => true end);
        [|contradiction].
      apply in_flat_map in U. destruct U as (j' & B & U).
      destruct (j' =? i) eqn:J.
      * destruct U as [<-|[]]. split; [lia|]. split; lia.
      * destruct (Step j' B U) as (L & A).
        split; [lia|]. split; [lia|exact A].
    + split; [lia|]. split; lia.
Qed.

(** A match of [SENT_SPLIT] is a non-empty run of whitespace in the text. *)
Lemma SENT_SPLIT_search_found (text : list ascii) (k i s e : nat) :
  SENT_SPLIT_search text k i = Some (s, e) ->
  i <= s /\ s < i + k /\ s < e
  /\ (s <= List.length text -> e <= List.length text)
  /\ forall n, s <= n < e ->
               exists c, nth_error text n = Some c /\ is_space c = true.
Proof.
  revert i. induction k as [|k IH]; intros i; [discriminate|].
  cbn [SENT_SPLIT_search].
  destruct (SENT_SPLIT_ends text i) as [|e' l] eqn:E.
  - intros H. apply IH in H. destruct H as (H1 & H2 & H). split; [lia|].
    split; [lia|exact H].
  - intros H. injection H as <- <-.
    assert (I : In e' (SENT_SPLIT_ends text i)) by (rewrite E; left; reflexivity).
    unfold SENT_SPLIT_ends in I.
    destruct (look_behind text sentence_end i); [|contradiction].
    apply filter_In in I. destruct I as (I & _).
    pose proof (ends_forward no_flags text blanks _ _ I) as (_ & B).
    cbn [blanks Re.ends] in I. apply until_run in I.
    destruct I as (_ & L & A).
    split; [lia|]. split; [lia|]. split; [apply L; lia|]. split; [exact B|].
    intros n N. destruct (A n N) as (c & C & P).
    exists c. split; [exact C|].
    cbn in P. rewrite orb_false_r in P. exact P.
Qed.

(** Fuel above the rest of the text is never used up. *)
Lemma split_spans_fuel (text : list ascii) (fuel fuel' pos : nat) :
  List.length text - pos < fuel ->
  List.length text - pos < fuel' ->
  split_spans text fuel pos = split_spans text fuel' pos.
Proof.
  revert fuel' pos. induction fuel as [|fuel IH]; intros fuel' pos F F'; [lia|].
  destruct fuel' as [|fuel']; [lia|].
  cbn [split_spans].
  destruct (SENT_SPLIT_search text _ pos) as [[s e]|] eqn:S; [|reflexivity].
  apply SENT_SPLIT_search_found in S. destruct S as (S1 & S2 & S3 & _ & S5).
  destruct (S5 s) as (c & C & _); [lia|].
  assert (s < List.length text) by (apply nth_error_Some; congruence).
  f_equal. apply IH; lia.
Qed.

Lemma chars_substring (n m : nat) (s : string) :
  chars (substring n m s) = firstn m (skipn n (chars s)).
Proof.
  unfold chars. revert n m. induction s as [|c s IH]; intros n m.
  - destruct n, m; reflexivity.
  - destruct n as [|n].
    + destruct m as [|m]; [reflexivity|].
      cbn. rewrite (IH 0 m). reflexivity.
    + cbn. apply IH.
Qed.

Lemma skipn_between {A : Type} (l : list A) (a b : nat) :
  a <= b ->
  skipn a l = firstn (b - a) (skipn a l) ++ skipn b l.
Proof.
  intros L. rewrite <- (firstn_skipn (b - a) (skipn a l)) at 1.
  rewrite skipn_skipn. replace (b - a + a) with b by lia. reflexivity.
Qed.

Lemma visible_blank (text : list ascii) (s e : nat) :
  (forall n, s <= n < e ->
             exists c, nth_error text n = Some c /\ is_space c = true) ->
  visible (firstn (e - s) (skipn s text)) = [].
Proof.
  intros A. unfold visible.
  destruct (filter _ _) as [|x l] eqn:F; [reflexivity|].
  assert (I : In x (filter (fun c => negb (is_space c))
                           (firstn (e - s) (skipn s text))))
    by (rewrite F; left; reflexivity).
  apply filter_In in I. destruct I as (I & V).
  apply In_nth_error in I. destruct I as (n & N).
  rewrite nth_error_firstn in N.
  destruct (n <? e - s) eqn:B; [|discriminate].
  apply Nat.ltb_lt in B. rewrite nth_error_skipn in N.
  destruct (A (s + n)) as (c & C & P); [lia|].
  rewrite C in N. injection N as <-. rewrite P in V. discriminate.
Qed.

(** The parts of a split and the whitespace between them make up the
    text. *)
Lemma split_spans_visible (text : list ascii) (fuel pos : nat) :
  pos <= List.length text ->
  flat_map (fun span => visible (piece text span)) (split_spans text fuel pos)
  = visible (skipn pos text).
Proof.
  assert (Rest : forall pos,
             flat_map (fun span => visible (piece text span))
                      [(pos, List.length text)]
             = visible (skipn pos text)).
  { intros p. cbn [flat_map]. unfold piece. cbn [fst snd]. rewrite app_nil_r.
    rewrite firstn_all2; [reflexivity|]. rewrite length_skipn. lia. }
  revert pos. induction fuel as [|fuel IH]; intros pos L; [apply Rest|].
  cbn [split_spans].
  destruct (SENT_SPLIT_search text _ pos) as [[s e]|] eqn:S; [|apply Rest].
  apply SENT_SPLIT_search_found in S.
  destruct S as (S1 & S2 & S3 & S4 & S5).
  cbn [flat_map]. rewrite IH by (apply S4; lia).
  unfold piece at 1. cbn [fst snd].
  pose proof (visible_blank text s e S5) as Blank.
  rewrite (skipn_between text pos s) at 2 by lia.
  rewrite (skipn_between text s e) by lia.
  unfold visible in *. rewrite !filter_app, Blank. reflexivity.
Qed.

Lemma visible_lstrip (l : list ascii) : visible (lstrip_chars l) = visible l.
Proof.
  induction l as [|c l IH]; [reflexivity|].
  cbn [lstrip_chars]. destruct (is_space c) eqn:E; [|reflexivity].
  cbn [visible filter]. rewrite E. exact IH.
Qed.

Lemma visible_strip (s : string) : visible (chars (strip s)) = visible (chars s).
Proof.
  unfold strip. rewrite chars_str. unfold visible.
  rewrite filter_rev. fold (visible (lstrip_chars (rev (lstrip_chars (chars s))))).
  rewrite visible_lstrip. unfold visible. rewrite filter_rev, rev_involutive.
  apply visible_lstrip.
Qed.

(** X16: [split_sentences] loses nothing but whitespace.  Its parts are not
    empty and have no whitespace at either end, and the characters of the
    parts that are not whitespace are those of the text, in the same order:
    no character is dropped, repeated or moved, whatever the text. *)
Theorem split_sentences_keeps_text (text : string) :
  Forall (fun p => p <> "" /\ trimmed p) (split_sentences text)
  /\ flat_map (fun p => visible (chars p)) (split_sentences text)
     = visible (chars text).
Proof.
  unfold split_sentences.
  destruct (String.eqb text "") eqn:E.
  - apply String.eqb_eq in E. subst text. split; [constructor|reflexivity].
  - clear E. split.
    + apply Forall_forall. intros p I.
      apply in_map_iff in I. destruct I as (q & <- & I).
      apply filter_In in I. destruct I as (_ & N).
      split; [|apply strip_trimmed].
      intros Q. rewrite Q in N. discriminate.
    + assert (Kept : forall parts,
                 flat_map (fun p => visible (chars p))
                          (map strip
                               (filter (fun p => negb (String.eqb (strip p) ""))
                                       parts))
                 = flat_map (fun p => visible (chars p)) parts).
      { induction parts as [|p parts IH]; [reflexivity|].
        cbn [filter flat_map].
        destruct (String.eqb (strip p) "") eqn:Q; cbn [negb map flat_map].
        - apply String.eqb_eq in Q. rewrite <- (visible_strip p), Q, IH.
          reflexivity.
        - rewrite visible_strip, IH. reflexivity. }
      rewrite Kept. unfold SENT_SPLIT_split. rewrite flat_map_concat_map, map_map.
      rewrite <- flat_map_concat_map.
      change (visible (chars text)) with (visible (skipn 0 (chars text))).
      rewrite <- (split_spans_visible (chars text) (String.length text + 1) 0)
        by lia.
      apply flat_map_ext. intros [a b]. cbn [fst snd]. unfold slice, piece.
      rewrite chars_substring. reflexivity.
Qed.

Lemma substring_all (s : string) : substring 0 (String.length s) s = s.
Proof.
  induction s as [|c s IH]; [reflexivity|].
  cbn. rewrite IH. reflexivity.
Qed.

Lemma SENT_SPLIT_search_none (text : list ascii) (k i : nat) :
  (forall c, In c text -> sentence_end c = false) ->
  SENT_SPLIT_search text k i = None.
Proof.
  intros N. revert i. induction k as [|k IH]; intros i; [reflexivity|].
  cbn [SENT_SPLIT_search]. unfold SENT_SPLIT_ends.
  assert (B : look_behind text sentence_end i = false).
  { unfold look_behind. destruct i as [|j]; [reflexivity|].
    destruct (nth_error text j) as [c|] eqn:E; [|reflexivity].
    apply N. apply (nth_error_In _ _ E). }
  rewrite B. apply IH.
Qed.

(** X17: a text is cut after [.], [!] or [?] only: a text without any of
    them is one sentence, the text without the whitespace around it, or no
    sentence at all when it is blank. *)
Theorem split_needs_terminator (text : string) :
  (forall c, In c (chars text) -> sentence_end c = false) ->
  split_sentences text
  = if String.eqb (strip text) "" then [] else [strip text].
Proof.
  intros N. unfold split_sentences.
  destruct (String.eqb text "") eqn:E.
  - apply String.eqb_eq in E. subst text. reflexivity.
  - unfold SENT_SPLIT_split.
    replace (String.length text + 1) with (S (String.length text)) by lia.
    cbn [split_spans]. rewrite (SENT_SPLIT_search_none _ _ _ N).
    cbn [map fst snd]. unfold slice.
    rewrite length_chars, Nat.sub_0_r, substring_all.
    cbn [filter]. destruct (String.eqb (strip text) ""); reflexivity.
Qed.

Lemma split_needs_terminator_witness :
  split_sentences "  no stop here " = ["no stop here"]
  /\ split_sentences "One. Two! (three) ok? four" = ["One."; "Two!"; "(three) ok? four"].
Proof.
  split; [|vm_compute; reflexivity].
  rewrite (split_needs_terminator "  no stop here ").
  - vm_compute. reflexivity.
  - intros c I. vm_compute in I.
    repeat (destruct I as [<-|I]; [reflexivity|]). contradiction.
Defined.

(** ** The two loaders (lines 34-81 and 308-312; debug_text_extraction.py,
       lines 11-58 and 103-131) *)

Lemma chars_append (a b : string) : chars (a ++ b) = chars a ++ chars b.
Proof.
  unfold chars. induction a as [|c a IH]; [reflexivity|].
  cbn. rewrite IH. reflexivity.
Qed.

Lemma visible_join (parts : list string) :
  visible (chars (join line_break parts))
  = flat_map (fun p => visible (chars p)) parts.
Proof.
  induction parts as [|p parts IH]; [reflexivity|].
  destruct parts as [|q parts].
  - cbn [join flat_map]. rewrite app_nil_r. reflexivity.
  - change (join line_break (p :: q :: parts))
      with (p ++ line_break ++ join line_break (q :: parts))%string.
    rewrite !chars_append. unfold visible at 1. rewrite !filter_app.
    fold (visible (chars (join line_break (q :: parts)))).
    rewrite IH. reflexivity.
Qed.

Lemma visible_blank_string (s : string) : strip s = "" -> visible (chars s) = [].
Proof. intros E. rewrite <- visible_strip, E. reflexivity. Qed.

Lemma visible_stripped_parts (parts : list string) :
  flat_map (fun p => visible (chars p))
           (map strip (filter (fun p => negb (String.eqb (strip p) "")) parts))
  = flat_map (fun p => visible (chars p)) parts.
Proof.
  induction parts as [|p parts IH]; [reflexivity|].
  cbn [filter flat_map].
  destruct (String.eqb (strip p) "") eqn:Q; cbn [negb map flat_map].
  - apply String.eqb_eq in Q. rewrite (visible_blank_string p Q), IH. reflexivity.
  - rewrite visible_strip, IH. reflexivity.
Qed.

Lemma visible_page_entries (pgs : list (result (option string))) :
  flat_map (fun p => visible (chars p)) (flat_map DebugLoader.page_entry pgs)
  = flat_map (fun p => visible (chars p)) (map page_text pgs).
Proof.
  induction pgs as [|pg pgs IH]; [reflexivity|].
  cbn [flat_map map]. rewrite flat_map_app, IH. f_equal.
  destruct pg as [[s|]|e]; cbn [DebugLoader.page_entry page_text]; try reflexivity.
  destruct (String.eqb (strip s) "") eqn:Q; cbn [negb flat_map].
  - apply String.eqb_eq in Q. rewrite (visible_blank_string s Q). reflexivity.
  - rewrite visible_strip, app_nil_r. reflexivity.
Qed.

Lemma cached_loaded (g : string -> string) (files : list (string * string))
      (k : string) :
  cached (map (fun entry => (fst entry, g (snd entry))) files) k
  = match file_of files k with
    | Some file => g file
    | None => ""
    end.
Proof.
  induction files as [|[k' file] files IH]; [reflexivity|].
  cbn [map cached file_of fst snd].
  destruct (String.eqb k' k); [reflexivity|exact IH].
Qed.

Lemma doc_file_mapping (k : string) :
  DebugLoader.doc_file (JStr k) = file_of DOC_FILES k.
Proof.
  unfold DebugLoader.doc_file, DOC_FILES. cbn [equals_str file_of].
  rewrite !(String.eqb_sym k). reflexivity.
Qed.

Lemma DOC_FILES_types (k file : string) :
  file_of DOC_FILES k = Some file ->
  lower (suffix file) = ".docx" \/ lower (suffix file) = ".pdf".
Proof.
  unfold DOC_FILES. cbn [file_of].
  repeat (destruct (String.eqb _ k);
          [intros H; injection H as <-; vm_compute; auto|]).
  discriminate.
Qed.

(** X18: the debug script sees the documents of the checker.  Both map the
    same document keys to the same files, and for a DOCX or PDF file, as all
    mapped files are, the text that the loader of the debug script returns
    has the same characters other than whitespace, in the same order, as
    the text that the checker evaluates; a file that is missing or cannot
    be read is the empty text for both.  Only a .txt or .md file is read by
    the checker and not by the debug script. *)
Theorem loaders_agree (fs : file_system) :
  (forall path,
     lower (suffix path) <> ".txt" ->
     lower (suffix path) <> ".md" ->
     visible (chars (DebugLoader.load_text_from_doc fs path))
     = visible (chars (load_text_from_doc fs path)))
  /\ (forall k,
        DebugLoader.doc_file (JStr k) = file_of DOC_FILES k
        /\ exists text,
             DebugLoader.doc_text fs (JStr k) = Ok text
             /\ visible (chars text)
                = visible (chars (cached (load_documents fs) k))).
Proof.
  assert (Same : forall path,
             lower (suffix path) <> ".txt" ->
             lower (suffix path) <> ".md" ->
             visible (chars (DebugLoader.load_text_from_doc fs path))
             = visible (chars (load_text_from_doc fs path))).
  { intros path T M.
    unfold DebugLoader.load_text_from_doc, load_text_from_doc.
    destruct (fs path) as [f|]; [|reflexivity]. cbv zeta.
    destruct (String.eqb (lower (suffix path)) ".docx").
    - destruct (paragraphs f) as [ps|]; [|reflexivity].
      cbn [bind recover]. rewrite !visible_join. apply visible_stripped_parts.
    - destruct (String.eqb (lower (suffix path)) ".pdf").
      + destruct (pages f) as [pgs|]; [|reflexivity].
        cbn [bind recover]. rewrite !visible_join. apply visible_page_entries.
      + cbn [member existsb].
        destruct (String.eqb (lower (suffix path)) ".txt") eqn:E1;
          [apply String.eqb_eq in E1; congruence|].
        destruct (String.eqb (lower (suffix path)) ".md") eqn:E2;
          [apply String.eqb_eq in E2; congruence|].
        reflexivity. }
  split; [exact Same|].
  intros k. split; [apply doc_file_mapping|].
  unfold DebugLoader.doc_text, load_documents. eexists. split; [reflexivity|].
  rewrite doc_file_mapping, cached_loaded.
  destruct (file_of DOC_FILES k) as [file|] eqn:F; [|reflexivity].
  assert (S : visible (chars (DebugLoader.load_text_from_doc fs file))
              = visible (chars (load_text_from_doc fs file))).
  { destruct (DOC_FILES_types _ _ F) as [E|E]; apply Same; rewrite E; discriminate. }
  destruct (fs file) eqn:X; [exact S|].
  unfold load_text_from_doc. rewrite X. reflexivity.
Qed.

Lemma loaders_agree_witness :
  load_text_from_doc sample_files "OMA - REV 05.docx"
  <> DebugLoader.load_text_from_doc sample_files "OMA - REV 05.docx"
  /\ visible (chars (DebugLoader.load_text_from_doc sample_files "OMA - REV 05.docx"))
     = visible (chars (load_text_from_doc sample_files "OMA - REV 05.docx")).
Proof.
  split; [vm_compute; discriminate|].
  apply (proj1 (loaders_agree sample_files) "OMA - REV 05.docx");
    vm_compute; discriminate.
Defined.

(** ** The threshold (lines 180, 246, 257) *)

Lemma decided_lower (st : Settings) (ev : Evidence) (t' : Z) :
  decision (decided st ev) = FOUND ->
  (t' <= threshold st)%Z ->
  decision (decided (with_threshold st t') ev) = FOUND
  /\ matched_positive (decided (with_threshold st t') ev)
     = matched_positive (decided st ev)
  /\ (confidence (decided st ev)
      <= confidence (decided (with_threshold st t') ev))%Q.
Proof.
  unfold decided, found. cbn [threshold with_threshold].
  destruct (threshold st <=? pos_hits ev)%Z eqn:T;
    [|destruct (_ && _); discriminate].
  intros _ L. apply Z.leb_le in T.
  assert (T' : (t' <=? pos_hits ev)%Z = true) by (apply Z.leb_le; lia).
  rewrite T'. cbn [decision matched_positive confidence].
  split; [reflexivity|]. split; [reflexivity|].
  apply Q.min_le_compat_l.
  unfold Qle, Qplus, Qmult, inject_Z. cbn [Qnum Qden]. lia.
Qed.

Lemma decided_no_conflict (st : Settings) (ev : Evidence) :
  decision (decided st ev) <> CONFLICT.
Proof.
  unfold decided, found.
  destruct (_ <=? _)%Z; [discriminate|]. destruct (_ && _); discriminate.
Qed.

Lemma decided_found_hits (st : Settings) (ev : Evidence) :
  decision (decided st ev) = FOUND ->
  (threshold st <= pos_hits ev)%Z
  /\ matched_positive (decided st ev) = matched_positive_snips ev.
Proof.
  unfold decided, found.
  destruct (threshold st <=? pos_hits ev)%Z eqn:T;
    [|destruct (_ && _); discriminate].
  intros _. apply Z.leb_le in T. split; [exact T|reflexivity].
Qed.

(** The final step with a lower threshold, on evidence whose counter is
    the number of its positive snippets. *)
Lemma final_decision_lower (st : Settings) (ev : Evidence) (t' : Z) :
  pos_hits ev = Z.of_nat (List.length (matched_positive_snips ev)) ->
  decision (decided st ev) = FOUND ->
  (t' <= threshold st)%Z ->
  ((Z.of_nat (List.length (matched_positive (decided st ev))) - t' < float_limit)%Z ->
   exists o',
     final_decision (with_threshold st t') ev = Ok o'
     /\ decision o' = FOUND
     /\ matched_positive o' = matched_positive (decided st ev)
     /\ (confidence (decided st ev) <= confidence o')%Q)
  /\ ((t' <= - float_limit)%Z ->
      final_decision (with_threshold st t') ev = Raise OverflowError).
Proof.
  intros P D L. destruct (decided_found_hits _ _ D) as (T & M).
  rewrite final_decision_spec. unfold overflows. cbn [threshold with_threshold].
  assert (T' : (t' <=? pos_hits ev)%Z = true) by (apply Z.leb_le; lia).
  rewrite T'. cbn [andb]. split.
  - rewrite M, <- P. intros B.
    assert (O : (float_limit <=? counted (pos_hits ev) - t')%Z = false).
    { apply Z.leb_gt. unfold counted. lia. }
    rewrite O. eexists. split; [reflexivity|]. rewrite <- M.
    apply decided_lower; assumption.
  - intros B.
    assert (O : (float_limit <=? counted (pos_hits ev) - t')%Z = true).
    { apply Z.leb_le. unfold counted.
      assert (0 <= ssize_max)%Z by (vm_compute; discriminate). lia. }
    rewrite O. reflexivity.
Qed.

Lemma evaluate_settings_lower (st : Settings) (rule_facts : json)
      (doc_text : string) (ops_facts : json) (o : Outcome) (t' : Z) :
  evaluate_settings st rule_facts doc_text ops_facts = Ok o ->
  (decision o = CONFLICT ->
   evaluate_settings (with_threshold st t') rule_facts doc_text ops_facts = Ok o)
  /\ (decision o = FOUND ->
      (t' <= threshold st)%Z ->
      ((Z.of_nat (List.length (matched_positive o)) - t' < float_limit)%Z ->
       exists o',
         evaluate_settings (with_threshold st t') rule_facts doc_text ops_facts
         = Ok o'
         /\ decision o' = FOUND
         /\ matched_positive o' = matched_positive o
         /\ (confidence o <= confidence o')%Q)
      /\ ((t' <= - float_limit)%Z ->
          evaluate_settings (with_threshold st t') rule_facts doc_text ops_facts
          = Raise OverflowError)).
Proof.
  unfold evaluate_settings.
  change (forbid_re (with_threshold st t')) with (forbid_re st).
  change (rule_type (with_threshold st t')) with (rule_type st).
  change (threshold (with_threshold st t')) with t'.
  change (aligned (with_threshold st t') rule_facts ops_facts)
    with (aligned st rule_facts ops_facts).
  change (positive_scan (with_threshold st t') doc_text)
    with (positive_scan st doc_text).
  rewrite !positive_scan_spec.
  destruct (if nonempty (forbidden_snips (forbid_re st) doc_text)
            then known_rule_type (rule_type st) else Ok false) as [[|]|];
    cbn [bind]; [| |discriminate].
  - intros H. injection H as <-. split; [reflexivity|discriminate].
  - destruct (aligned st rule_facts ops_facts).
    + destruct (check_alignment _ doc_text) as [[notes extras]|];
        cbn [bind]; [|discriminate].
      cbn [pos_hits matched_forbidden_snips matched_positive_snips first_pattern].
      destruct (nonempty ((_ ++ _) ++ extras)).
      * intros H. injection H as <-. split; [reflexivity|discriminate].
      * destruct (nonempty notes) eqn:N; cbn [andb].
        -- destruct (_ <? threshold st)%Z eqn:B.
           ++ intros H. injection H as <-. split; discriminate.
           ++ intros H. apply final_decision_ok in H. destruct H as [_ ->].
              split; [intros C; destruct (decided_no_conflict _ _ C)|].
              intros D L. apply Z.ltb_ge in B.
              assert (B' : (clean_hits st doc_text <? t')%Z = false)
                by (apply Z.ltb_ge; lia).
              rewrite B'. apply final_decision_lower; [|exact D|exact L].
              cbn [pos_hits matched_positive_snips]. rewrite length_map.
              reflexivity.
        -- intros H. apply final_decision_ok in H. destruct H as [_ ->].
           split; [intros C; destruct (decided_no_conflict _ _ C)|].
           intros D L. apply final_decision_lower; [|exact D|exact L].
           cbn [pos_hits matched_positive_snips]. rewrite length_map.
           reflexivity.
    + intros H. apply final_decision_ok in H. destruct H as [_ ->].
      split; [intros C; destruct (decided_no_conflict _ _ C)|].
      intros D L. apply final_decision_lower; [|exact D|exact L].
      cbn [pos_hits matched_positive_snips]. rewrite length_map.
      reflexivity.
Qed.

Lemma read_settings_threshold (rule : dict) (t t' : Z) (st : Settings) :
  read_settings (set_threshold t rule) = Ok st ->
  threshold st = t
  /\ read_settings (set_threshold t' rule) = Ok (with_threshold st t').
Proof.
  unfold read_settings, set_threshold, get. cbn [lookup String.eqb Ascii.eqb Bool.eqb].
  cbn [py_int bind].
  destruct (any_regex match lookup rule "positive_patterns" with
                      | Some v => v | None => JNull end); [|discriminate].
  destruct (any_regex match lookup rule "negative_patterns" with
                      | Some v => v | None => JNull end); [|discriminate].
  destruct (any_regex match lookup rule "forbidden_claims" with
                      | Some v => v | None => JNull end); [|discriminate].
  cbn [bind].
  destruct (py_int _); [|discriminate].
  intros H. injection H as <-. split; reflexivity.
Qed.

(** X19: the threshold only arbitrates between FOUND, REVIEW and MISSING.
    A CONFLICT outcome is the same whatever the threshold.  A rule that is
    FOUND with threshold [t] is FOUND with a lower threshold [t'], with the
    same positive evidence and a confidence that is not lower, as long as
    the number of its positive snippets exceeds [t'] by less than
    [float_limit], 2^1024 - 2^970; with [t'] at or below [- float_limit]
    a rule that is FOUND on the semantic path raises OverflowError, the
    surplus of hits being too large for a float. *)
Theorem lower_threshold_keeps_found (rule : dict) (doc_text : string)
        (ops_facts : json) (t t' : Z) (o : Outcome) :
  evaluate_rule_semantic (set_threshold t rule) doc_text ops_facts = Ok o ->
  (decision o = CONFLICT ->
   evaluate_rule_semantic (set_threshold t' rule) doc_text ops_facts = Ok o)
  /\ (decision o = FOUND ->
      (t' <= t)%Z ->
      ((Z.of_nat (List.length (matched_positive o)) - t' < float_limit)%Z ->
       exists o',
         evaluate_rule_semantic (set_threshold t' rule) doc_text ops_facts = Ok o'
         /\ decision o' = FOUND
         /\ matched_positive o' = matched_positive o
         /\ (confidence o <= confidence o')%Q)
      /\ (semantic_path rule ->
          (t' <= - float_limit)%Z ->
          evaluate_rule_semantic (set_threshold t' rule) doc_text ops_facts
          = Raise OverflowError)).
Proof.
  unfold evaluate_rule_semantic, semantic_path.
  change (get (set_threshold t rule) "checks" (JList []))
    with (get rule "checks" (JList [])).
  change (get (set_threshold t' rule) "checks" (JList []))
    with (get rule "checks" (JList [])).
  change (get (set_threshold t rule) "ops_facts" JNull)
    with (get rule "ops_facts" JNull).
  change (get (set_threshold t' rule) "ops_facts" JNull)
    with (get rule "ops_facts" JNull).
  destruct (truthy (get rule "checks" (JList []))).
  - intros E. split; [intros _; exact E|].
    intros D _. split; [|discriminate].
    intros _. exists o. split; [exact E|]. split; [exact D|].
    split; [reflexivity|apply Qle_refl].
  - unfold bind at 1.
    destruct (read_settings (set_threshold t rule)) as [st|] eqn:R; [|discriminate].
    destruct (read_settings_threshold _ _ t' _ R) as (T & R').
    rewrite R'. cbn [bind]. intros E.
    destruct (evaluate_settings_lower _ _ _ _ _ t' E) as (C & F).
    split; [exact C|]. rewrite T in F. intros D L.
    destruct (F D L) as (F1 & F2). split; [exact F1|]. intros _. exact F2.
Qed.

Lemma lower_threshold_keeps_found_witness :
  (exists o o',
     evaluate_rule_semantic (set_threshold 1 fuel_rule) fuel_text JNull = Ok o
     /\ evaluate_rule_semantic (set_threshold (-1) fuel_rule) fuel_text JNull = Ok o'
     /\ decision o' = FOUND
     /\ (confidence o <= confidence o')%Q)
  /\ evaluate_rule_semantic (set_threshold (- float_limit) fuel_rule) fuel_text JNull
     = Raise OverflowError.
Proof.
  destruct (evaluate_rule_semantic (set_threshold 1 fuel_rule) fuel_text JNull)
    as [o|e] eqn:E; [|vm_compute in E; discriminate].
  assert (D : decision o = FOUND)
    by (vm_compute in E; injection E as <-; reflexivity).
  split.
  - destruct (lower_threshold_keeps_found fuel_rule fuel_text JNull 1 (-1) o E)
      as (_ & F).
    destruct (F D ltac:(lia)) as (F1 & _).
    destruct F1 as (o' & E' & D' & _ & C).
    + vm_compute in E. injection E as <-. vm_compute. reflexivity.
    + exists o, o'. auto.
  - destruct (lower_threshold_keeps_found fuel_rule fuel_text JNull
                1 (- float_limit) o E) as (_ & F).
    destruct (F D) as (_ & F2); [vm_compute; discriminate|].
    apply F2; [reflexivity|lia].
Defined.

(** ** Negative patterns only take away (lines 178, 204-213) *)

Lemma filter_all {A : Type} (f : A -> bool) (l : list A) :
  (forall x, f x = true) -> filter f l = l.
Proof.
  intros T. induction l as [|x l IH]; [reflexivity|].
  cbn [filter]. rewrite T, IH. reflexivity.
Qed.

Lemma filter_none {A : Type} (f : A -> bool) (l : list A) :
  (forall x, f x = false) -> filter f l = [].
Proof.
  intros T. induction l as [|x l IH]; [reflexivity|].
  cbn [filter]. rewrite T. exact IH.
Qed.

Lemma filter_shorter {A : Type} (f : A -> bool) (l : list A) :
  List.length (filter f l) <= List.length l.
Proof.
  induction l as [|x l IH]; [reflexivity|].
  cbn [filter]. destruct (f x); cbn [List.length]; lia.
Qed.

Lemma without_negation_evidence (st : Settings) (doc_text : string) :
  clean_matches (without_negation st) doc_text = positive_matches st doc_text
  /\ suppressed_matches (without_negation st) doc_text = []
  /\ (clean_hits st doc_text <= clean_hits (without_negation st) doc_text)%Z.
Proof.
  assert (C : clean_matches (without_negation st) doc_text
              = positive_matches st doc_text).
  { unfold clean_matches. apply filter_all. reflexivity. }
  split; [exact C|]. split.
  - unfold suppressed_matches. apply filter_none. reflexivity.
  - unfold clean_hits. rewrite C. unfold clean_matches.
    pose proof (filter_shorter (fun m => negb (suppressed st doc_text m))
                               (positive_matches st doc_text)).
    lia.
Qed.

Lemma decided_more_hits (st st' : Settings) (ev ev' : Evidence) :
  threshold st' = threshold st ->
  (pos_hits ev <= pos_hits ev')%Z ->
  decision (decided st ev) = FOUND ->
  decision (decided st' ev') = FOUND
  /\ (confidence (decided st ev) <= confidence (decided st' ev'))%Q.
Proof.
  unfold decided, found. intros -> L.
  destruct (threshold st <=? pos_hits ev)%Z eqn:T;
    [|destruct (_ && _); discriminate].
  intros _. apply Z.leb_le in T.
  assert (T' : (threshold st <=? pos_hits ev')%Z = true) by (apply Z.leb_le; lia).
  rewrite T'. cbn [decision confidence]. split; [reflexivity|].
  apply Q.min_le_compat_l.
  unfold Qle, Qplus, Qmult, inject_Z. cbn [Qnum Qden]. lia.
Qed.

(** The final step on more hits: FOUND stays FOUND unless the larger
    surplus leaves the float range. *)
Lemma final_decision_more_hits (st st' : Settings) (ev ev' : Evidence) :
  threshold st' = threshold st ->
  (pos_hits ev <= pos_hits ev')%Z ->
  decision (decided st ev) = FOUND ->
  (exists o',
     final_decision st' ev' = Ok o'
     /\ decision o' = FOUND
     /\ (confidence (decided st ev) <= confidence o')%Q)
  \/ ((threshold st < 0)%Z
      /\ (float_limit <= pos_hits ev' - threshold st)%Z
      /\ final_decision st' ev' = Raise OverflowError).
Proof.
  intros T L D. rewrite final_decision_spec.
  destruct (overflows st' ev') eqn:O.
  - right. unfold overflows in O. apply andb_prop in O. destruct O as [_ O].
    apply Z.leb_le in O. rewrite T in O.
    pose proof (counted_in_range (pos_hits ev')) as C.
    assert (counted (pos_hits ev') <= pos_hits ev')%Z by (unfold counted; lia).
    repeat split; [lia|lia].
  - left. eexists. split; [reflexivity|].
    apply (decided_more_hits st st'); assumption.
Qed.

Lemma evaluate_settings_without_negation (st : Settings) (rule_facts : json)
      (doc_text : string) (ops_facts : json) (o : Outcome) :
  evaluate_settings st rule_facts doc_text ops_facts = Ok o ->
  decision o = FOUND ->
  (exists o',
     evaluate_settings (without_negation st) rule_facts doc_text ops_facts = Ok o'
     /\ decision o' = FOUND
     /\ (confidence o <= confidence o')%Q)
  \/ ((threshold st < 0)%Z
      /\ (float_limit
          <= Z.of_nat (List.length (positive_matches st doc_text)) - threshold st)%Z
      /\ evaluate_settings (without_negation st) rule_facts doc_text ops_facts
         = Raise OverflowError).
Proof.
  destruct (without_negation_evidence st doc_text) as (C & S & H).
  assert (N : clean_hits (without_negation st) doc_text
              = Z.of_nat (List.length (positive_matches st doc_text))).
  { unfold clean_hits. rewrite C. reflexivity. }
  unfold evaluate_settings.
  change (forbid_re (without_negation st)) with (forbid_re st).
  change (rule_type (without_negation st)) with (rule_type st).
  change (threshold (without_negation st)) with (threshold st).
  change (aligned (without_negation st) rule_facts ops_facts)
    with (aligned st rule_facts ops_facts).
  rewrite !positive_scan_spec. rewrite S, app_nil_r.
  destruct (if nonempty (forbidden_snips (forbid_re st) doc_text)
            then known_rule_type (rule_type st) else Ok false) as [[|]|];
    cbn [bind]; [| |discriminate].
  - intros E. injection E as <-. discriminate.
  - destruct (aligned st rule_facts ops_facts).
    + destruct (check_alignment _ doc_text) as [[notes extras]|];
        cbn [bind]; [|discriminate].
      cbn [pos_hits matched_forbidden_snips matched_positive_snips first_pattern].
      destruct (nonempty ((_ ++ _) ++ extras)) eqn:NE.
      * intros E. injection E as <-. discriminate.
      * assert (NE' : nonempty (forbidden_snips (forbid_re st) doc_text ++ extras)
                      = false).
        { destruct (forbidden_snips (forbid_re st) doc_text); [|discriminate NE].
          cbn [app] in *.
          destruct (map (snip doc_text) (suppressed_matches st doc_text));
            [exact NE|discriminate NE]. }
        rewrite NE'.
        destruct (nonempty notes && (clean_hits st doc_text <? threshold st)%Z)
          eqn:B.
        -- intros E. injection E as <-. discriminate.
        -- intros E. apply final_decision_ok in E. destruct E as [_ ->].
           intros D.
           assert (T : (threshold st <= clean_hits st doc_text)%Z)
             by apply (proj1 (decided_found_hits _ _ D)).
           assert (B' : (clean_hits (without_negation st) doc_text <? threshold st)%Z
                        = false) by (apply Z.ltb_ge; lia).
           rewrite B', andb_false_r. rewrite <- N.
           apply (final_decision_more_hits st (without_negation st));
             [reflexivity|exact H|exact D].
    + intros E. apply final_decision_ok in E. destruct E as [_ ->]. intros D.
      rewrite <- N.
      apply (final_decision_more_hits st (without_negation st));
        [reflexivity|exact H|exact D].
Qed.

Lemma read_settings_drop_negation (rule : dict) (st : Settings) :
  read_settings rule = Ok st ->
  read_settings (drop_negation rule) = Ok (without_negation st).
Proof.
  unfold read_settings, drop_negation, get.
  cbn [lookup String.eqb Ascii.eqb Bool.eqb].
  destruct (any_regex match lookup rule "positive_patterns" with
                      | Some v => v | None => JNull end); [|discriminate].
  cbn [bind].
  destruct (any_regex match lookup rule "negative_patterns" with
                      | Some v => v | None => JNull end); [|discriminate].
  change (any_regex (JList [])) with (@Ok (option Re.Pattern) None).
  cbn [bind].
  destruct (any_regex match lookup rule "forbidden_claims" with
                      | Some v => v | None => JNull end); [|discriminate].
  cbn [bind].
  destruct (py_int _); [|discriminate]. cbn [bind].
  destruct (py_int _); [|discriminate].
  intros E. injection E as <-. reflexivity.
Qed.

(** X20: negative patterns only take away.  A rule that is FOUND is FOUND
    as well when its negative patterns are dropped, with a confidence that
    is not lower: a negation can demote a rule, never promote it.  The one
    exception is a rule of the semantic path with a threshold below zero
    that the matches counted without the negations exceed by [float_limit],
    2^1024 - 2^970, or more: without its negative patterns its evaluation
    raises OverflowError. *)
Theorem negation_only_demotes (rule : dict) (doc_text : string)
        (ops_facts : json) (o : Outcome) :
  evaluate_rule_semantic rule doc_text ops_facts = Ok o ->
  decision o = FOUND ->
  (exists o',
     evaluate_rule_semantic (drop_negation rule) doc_text ops_facts = Ok o'
     /\ decision o' = FOUND
     /\ (confidence o <= confidence o')%Q)
  \/ (exists st,
        semantic_path rule
        /\ read_settings rule = Ok st
        /\ (threshold st < 0)%Z
        /\ (float_limit
            <= Z.of_nat (List.length (positive_matches st doc_text)) - threshold st)%Z
        /\ evaluate_rule_semantic (drop_negation rule) doc_text ops_facts
           = Raise OverflowError).
Proof.
  unfold evaluate_rule_semantic, semantic_path.
  change (get (drop_negation rule) "checks" (JList []))
    with (get rule "checks" (JList [])).
  change (get (drop_negation rule) "ops_facts" JNull)
    with (get rule "ops_facts" JNull).
  destruct (truthy (get rule "checks" (JList []))).
  - intros E D. left. exists o. split; [exact E|]. split; [exact D|apply Qle_refl].
  - unfold bind at 1.
    destruct (read_settings rule) as [st|] eqn:R; [|discriminate].
    rewrite (read_settings_drop_negation _ _ R). cbn [bind].
    intros E D.
    destruct (evaluate_settings_without_negation _ _ _ _ _ E D)
      as [F | (T & B & X)]; [left; exact F|].
    right. exists st. auto.
Qed.

Lemma negation_only_demotes_witness :
  (exists o o',
     evaluate_rule_semantic strict_fuel_rule
       "Fuel reserve: 30 min. The fuel reserve is checked." JNull = Ok o
     /\ evaluate_rule_semantic (drop_negation strict_fuel_rule)
          "Fuel reserve: 30 min. The fuel reserve is checked." JNull = Ok o'
     /\ decision o' = FOUND)
  /\ (exists o,
        evaluate_rule_semantic (set_threshold (2 - float_limit) strict_fuel_rule)
                               mixed_fuel_text JNull = Ok o
        /\ decision o = FOUND
        /\ evaluate_rule_semantic
             (drop_negation (set_threshold (2 - float_limit) strict_fuel_rule))
             mixed_fuel_text JNull
           = Raise OverflowError).
Proof.
  split.
  - destruct (evaluate_rule_semantic strict_fuel_rule
                "Fuel reserve: 30 min. The fuel reserve is checked." JNull)
      as [o|e] eqn:E; [|vm_compute in E; discriminate].
    destruct (negation_only_demotes _ _ _ o E)
      as [(o' & E' & D & _) | (st & _ & _ & _ & _ & X)].
    + vm_compute in E. injection E as <-. reflexivity.
    + exists o, o'. auto.
    + vm_compute in X. discriminate X.
  - destruct (evaluate_rule_semantic
                (set_threshold (2 - float_limit) strict_fuel_rule)
                mixed_fuel_text JNull)
      as [o|e] eqn:E; [|vm_compute in E; discriminate].
    assert (D : decision o = FOUND)
      by (vm_compute in E; injection E as <-; reflexivity).
    exists o. split; [reflexivity|]. split; [exact D|].
    destruct (negation_only_demotes _ _ _ o E D)
      as [(o' & E' & _) | (st & _ & _ & _ & _ & X)]; [|exact X].
    vm_compute in E'. discriminate E'.
Defined.

(** ** Documents without text (lines 308-312, 322-326) *)

(** X21: a rule about a document that is not mapped in [DOC_FILES], or
    whose file does not exist, is evaluated against the empty text.  A row
    of the report shows the outcome of that evaluation; an exception of
    the row is the one raised by joining the evidence_hints of the rule or
    by that evaluation, none is raised on behalf of the document; and when
    the hints can be joined and the evaluation returns, the row is
    produced. *)
Theorem unknown_document_is_empty (fs : file_system) (ops_facts : json)
        (rule : dict) (k : string) :
  get rule "source_docs" (JList [JStr "OpsSpecs"]) = JList [JStr k] ->
  no_document fs k ->
  cache_get (load_documents fs) (JStr k) = Ok ""
  /\ (forall row,
        report_row (load_documents fs) ops_facts (JDict rule) = Ok row ->
        exists o, evaluate_rule_semantic rule "" ops_facts = Ok o
                  /\ row_result row = decision o
                  /\ row_source_docs row = k)
  /\ (forall e,
        report_row (load_documents fs) ops_facts (JDict rule) = Raise e ->
        join_json "; " (get rule "evidence_hints" (JList [])) = Raise e
        \/ evaluate_rule_semantic rule "" ops_facts = Raise e)
  /\ (forall hints o,
        join_json "; " (get rule "evidence_hints" (JList [])) = Ok hints ->
        evaluate_rule_semantic rule "" ops_facts = Ok o ->
        exists row,
          report_row (load_documents fs) ops_facts (JDict rule) = Ok row
          /\ row_result row = decision o
          /\ row_evidence_hints row = hints).
Proof.
  intros S N.
  assert (C : cached (load_documents fs) k = "").
  { unfold load_documents. rewrite cached_loaded.
    unfold no_document in N.
    destruct (file_of DOC_FILES k) as [file|]; [|reflexivity].
    unfold load_text_from_doc. rewrite N. reflexivity. }
  split; [cbn [cache_get]; rewrite C; reflexivity|].
  unfold report_row. rewrite S.
  cbn [iterate mapM cache_get bind join_json expect_str join]. rewrite C.
  cbn [join].
  split; [|split].
  - intros row. unfold bind.
    destruct (join_json "; " _); [|discriminate].
    destruct (evaluate_rule_semantic rule "" ops_facts) as [o|]; [|discriminate].
    intros E. injection E as <-. exists o. repeat split.
  - intros e. unfold bind.
    destruct (join_json "; " _) as [hints|e'];
      [|intros E; injection E as <-; left; reflexivity].
    destruct (evaluate_rule_semantic rule "" ops_facts) as [o|e'];
      [discriminate|intros E; injection E as <-; right; reflexivity].
  - intros hints o -> ->. cbn [bind]. eexists. split; [reflexivity|].
    split; reflexivity.
Qed.

Lemma unknown_document_is_empty_witness :
  exists row,
    report_row (load_documents sample_files) JNull
               (JDict (("source_docs", JList [JStr "OM-Z"]) :: fuel_rule)) = Ok row
    /\ row_result row = MISSING.
Proof.
  destruct (unknown_document_is_empty sample_files JNull
              (("source_docs", JList [JStr "OM-Z"]) :: fuel_rule) "OM-Z" eq_refl I)
    as (_ & R & _).
  destruct (report_row (load_documents sample_files) JNull
              (JDict (("source_docs", JList [JStr "OM-Z"]) :: fuel_rule)))
    as [row|e] eqn:E; [|vm_compute in E; discriminate].
  exists row. split; [reflexivity|].
  destruct (R row eq_refl) as (o & Eo & D & _).
  rewrite D. vm_compute in Eo. injection Eo as <-. reflexivity.
Defined.
